(** * The generation pipeline of the front-end, embedded in Rocq

    A shallow embedding of the parts of the repository the specification
    talks about:

    - [src/services/chat.js]: the prompt sanitiser of [chatApi.generateImage]
      and the payload of [chatApi.generateVideo];
    - [src/components/FlowWidget.jsx]: the reconciler [flowData], the fetch
      [refreshProjectData], the per-entity handlers with their in-flight
      sets, and the graph projection [createFlowElements];
    - the chat sidebar that follows it in the same source file: the step
      state machine, [runConceptWriter], [runScriptGeneration],
      [runImageGeneration], [runVideoGeneration] and the selection handlers.

    Conventions.
    - Free text (prompts) is a JavaScript string, that is a sequence of
      UTF-16 code units: [JS.str := list N].  Identifiers, property keys and
      URLs are only ever concatenated, compared and matched against ASCII
      patterns; they are Rocq [string]s.
    - A plain object used as a dictionary is a [gmap string V] of its own
      properties, a [Set] a [gset string], a [Map] a [gmap string V].  Keys
      that name members of [Object.prototype] are outside the model.
    - React state is a record; a handler is a function on that record.  A
      state setter takes effect before the next handler runs.
    - A call to an external collaborator is an event of a trace; what it
      answers is an [outcome] supplied by the environment. *)

From Stdlib Require Import ZArith NArith List String Ascii Bool Lia Permutation
  DecimalString.
From Stdlib Require QArith DecimalPos.
From stdpp Require Import gmap strings list fin_maps.

Set Warnings "-abstract-large-number".

Local Open Scope string_scope.
Local Open Scope list_scope.

(* ===================================================================== *)
(** * JavaScript values and strings                                       *)
(* ===================================================================== *)

Module JS.

(** A string as its UTF-16 code units. *)
Definition str := list N.

(** The code units of an ASCII literal. *)
Definition lit (s : string) : str := map N_of_ascii (list_ascii_of_string s).

(** [\s] of a regular expression, and the characters [trim] removes:
    WhiteSpace and LineTerminator of ECMAScript. *)
Definition is_space (c : N) : bool :=
  (((9 <=? c) && (c <=? 13)) || (c =? 32) || (c =? 160) || (c =? 5760)
   || ((8192 <=? c) && (c <=? 8202)) || (c =? 8232) || (c =? 8233)
   || (c =? 8239) || (c =? 8287) || (c =? 12288) || (c =? 65279))%N.

Fixpoint trim_start (s : str) : str :=
  match s with
  | [] => []
  | c :: s' => if is_space c then trim_start s' else s
  end.

Fixpoint trim_end (s : str) : str :=
  match s with
  | [] => []
  | c :: s' =>
      match trim_end s' with
      | [] => if is_space c then [] else [c]
      | t => c :: t
      end
  end.

(** [s.trim()] *)
Definition trim (s : str) : str := trim_end (trim_start s).

(** [s.substring(0, n)] *)
Definition substring0 (n : nat) (s : str) : str := firstn n s.

(** [s.replace(/[^...]/g, "")] for a character class given by its
    complement [keep]. *)
Definition strip (keep : N -> bool) (s : str) : str := List.filter keep s.

(** [s.replace(/C+/g, " ")] for a character class [C]: every maximal run
    of characters of the class becomes one space.  [in_run] tells that
    the previous character belonged to the run being replaced. *)
Fixpoint replace_runs_from (in_run : bool) (C : N -> bool) (s : str) : str :=
  match s with
  | [] => []
  | c :: s' =>
      if C c
      then (if in_run then replace_runs_from true C s'
            else 32%N :: replace_runs_from true C s')
      else c :: replace_runs_from false C s'
  end.

Definition replace_runs (C : N -> bool) (s : str) : str :=
  replace_runs_from false C s.

(** Values that occur where the code accepts both numbers and strings
    (identifiers), and their absence. Numeric identifiers are integers. *)
Inductive val :=
| Undefined
| Null
| Num (n : Z)
| Str (s : string).

#[global] Instance val_eq_dec : EqDecision val.
Proof. solve_decision. Defined.

(** Values are countable, so that a [Set] of them is a [gset]. *)
Definition val_encode (v : val) : (bool + (Z + string)) :=
  match v with
  | Undefined => inl false
  | Null => inl true
  | Num n => inr (inl n)
  | Str s => inr (inr s)
  end.

Definition val_decode (e : bool + (Z + string)) : val :=
  match e with
  | inl false => Undefined
  | inl true => Null
  | inr (inl n) => Num n
  | inr (inr s) => Str s
  end.

#[global] Instance val_countable : Countable val.
Proof.
  apply (inj_countable' val_encode val_decode).
  intros []; reflexivity.
Defined.

(** ToBoolean *)
Definition truthy (v : val) : bool :=
  match v with
  | Undefined | Null => false
  | Num n => negb (n =? 0)%Z
  | Str s => negb (String.eqb s "")
  end.

(** [a || b] *)
Definition or (a b : val) : val := if truthy a then a else b.

(** ToString, as a template literal and a property access apply it; an
    integer prints in decimal. *)
Definition to_string (v : val) : string :=
  match v with
  | Undefined => "undefined"
  | Null => "null"
  | Num n => NilZero.string_of_int (Z.to_int n)
  | Str s => s
  end.

(** [c.toUpperCase()] for a character of ASCII. *)
Definition upper (c : ascii) : ascii :=
  let n := nat_of_ascii c in
  if (97 <=? n)%nat && (n <=? 122)%nat then ascii_of_nat (n - 32) else c.

(** [s.toUpperCase()] on ASCII text; the other characters have mappings
    of their own, which the model leaves out. *)
Fixpoint toUpperCase (s : string) : string :=
  match s with
  | EmptyString => EmptyString
  | String c s' => String (upper c) (toUpperCase s')
  end.

(** The text holds ASCII characters only. *)
Fixpoint ascii_text (s : string) : bool :=
  match s with
  | EmptyString => true
  | String c s' => (nat_of_ascii c <? 128)%nat && ascii_text s'
  end.

(** [table[key]] for a table written as an object literal: the entry of
    the key, if the literal has one.  The names every object inherits
    ([constructor], [toString] and the like) are no keys of the model. *)
Fixpoint entry {A} (table : list (string * A)) (key : string) : option A :=
  match table with
  | [] => None
  | (k, a) :: table' => if String.eqb k key then Some a else entry table' key
  end.

End JS.

(* ===================================================================== *)
(** * src/services/chat.js                                                *)
(* ===================================================================== *)

Module Chat.

Definition MAX_PROMPT_LENGTH : nat := 800.

(** The limit of the backend, as the comment next to
    [MAX_PROMPT_LENGTH] gives it. *)
Definition BACKEND_PROMPT_LIMIT : nat := 950.

(** [[^ -~]] is the complement of this class. *)
Definition printable (c : N) : bool := (32 <=? c)%N && (c <=? 126)%N.

Definition is_newline (c : N) : bool := (c =? 10)%N.

(** [sanitisedPrompt] of [generateImage]; [None] is a missing prompt. *)
Definition sanitisedPrompt (visual_prompt : option JS.str) : JS.str :=
  JS.trim
    (JS.replace_runs JS.is_space
       (JS.replace_runs is_newline
          (JS.strip printable (default [] visual_prompt)))).

Definition safePrompt (visual_prompt : option JS.str) : JS.str :=
  JS.substring0 MAX_PROMPT_LENGTH (sanitisedPrompt visual_prompt).

(** [art_style && art_style.trim() ? art_style.trim() : "realistic"] *)
Definition style_or_realistic (art_style : option JS.str) : JS.str :=
  match art_style with
  | Some a => match JS.trim a with [] => JS.lit "realistic" | t => t end
  | None => JS.lit "realistic"
  end.

Record image_args := {
  ia_visual_prompt : option JS.str;
  ia_art_style : option JS.str;
  ia_uuid : JS.val;
  ia_project_id : JS.val;
  ia_model : option string
}.

Record image_payload := {
  ip_model : string;
  ip_gen_type : string;
  ip_uuid : JS.val;
  ip_visual_prompt : JS.str;
  ip_art_style : JS.str;
  ip_projectId : JS.val
}.

(** The body that [generateImage] posts to [/chat]. *)
Definition generateImage_payload (a : image_args) : image_payload :=
  {| ip_model := default "recraft-v3" (ia_model a);
     ip_gen_type := "image";
     ip_uuid := ia_uuid a;
     ip_visual_prompt := safePrompt (ia_visual_prompt a);
     ip_art_style := style_or_realistic (ia_art_style a);
     ip_projectId := ia_project_id a |}.

Record video_args := {
  va_animation_prompt : option JS.str;
  va_art_style : option JS.str;
  va_image_s3_key : option string;
  va_uuid : JS.val;
  va_project_id : JS.val;
  va_model : option string
}.

Record video_payload := {
  vp_model : string;
  vp_gen_type : string;
  vp_uuid : JS.val;
  vp_animation_prompt : option JS.str;
  vp_image_s3_key : option string;
  vp_art_style : JS.str;
  vp_projectId : JS.val
}.

(** The body that [generateVideo] posts to [/chat]: the animation prompt
    goes out as it came in. *)
Definition generateVideo_payload (a : video_args) : video_payload :=
  {| vp_model := default "kling-v2.1-master" (va_model a);
     vp_gen_type := "video";
     vp_uuid := va_uuid a;
     vp_animation_prompt := va_animation_prompt a;
     vp_image_s3_key := va_image_s3_key a;
     vp_art_style := style_or_realistic (va_art_style a);
     vp_projectId := va_project_id a |}.

(** No two neighbours are both whitespace. *)
Fixpoint no_space_run (s : JS.str) : Prop :=
  match s with
  | a :: (b :: _) as s' =>
      (JS.is_space a = true -> JS.is_space b = false) /\ no_space_run s'
  | _ => True
  end.

Definition starts_clean (s : JS.str) : Prop :=
  forall c, head s = Some c -> JS.is_space c = false.

Definition ends_clean (s : JS.str) : Prop :=
  forall c, last s = Some c -> JS.is_space c = false.

(** ** The models on offer *)

Record model_info := {
  mi_name : string;
  mi_description : string;
  mi_provider : string;
  mi_imageSize : option string;
  mi_duration : option string;
  mi_resolution : option string
}.

(** [AVAILABLE_MODELS], its keys in the order they are written. *)
Definition AVAILABLE_MODELS : list (string * list (string * model_info)) :=
  [ ("IMAGE",
     [ ("recraft-v3",
        {| mi_name := "Recraft AI v3";
           mi_description := "Realistic photographic image generation";
           mi_provider := "Recraft AI";
           mi_imageSize := Some "1024x1024";
           mi_duration := None; mi_resolution := None |});
       ("imagen",
        {| mi_name := "Google Imagen";
           mi_description := "High-quality image generation";
           mi_provider := "Google Gemini";
           mi_imageSize := Some "Variable";
           mi_duration := None; mi_resolution := None |}) ]);
    ("VIDEO",
     [ ("kling-v2.1-master",
        {| mi_name := "Kling v2.1 Master";
           mi_description := "Image-to-video generation";
           mi_provider := "Fal.ai";
           mi_imageSize := None;
           mi_duration := Some "5 seconds"; mi_resolution := Some "Variable" |});
       ("gen4_turbo",
        {| mi_name := "RunwayML Gen4 Turbo";
           mi_description := "Advanced video generation";
           mi_provider := "RunwayML";
           mi_imageSize := None;
           mi_duration := Some "5 seconds"; mi_resolution := Some "1280:720" |}) ]) ].

(** [AVAILABLE_MODELS[genType.toUpperCase()] || {}] *)
Definition getAvailableModels (genType : string) : list (string * model_info) :=
  default [] (JS.entry AVAILABLE_MODELS (JS.toUpperCase genType)).

(** [Object.keys(models)[0]], or [null] when the type has no table. *)
Definition getDefaultModel (genType : string) : option string :=
  match JS.entry AVAILABLE_MODELS (JS.toUpperCase genType) with
  | None => None
  | Some models => fst <$> head models
  end.

End Chat.

(** What an awaited call to a collaborator comes back with. *)
Inductive outcome (A : Type) :=
| Resolved (a : A)
| Rejected (message : string).
Arguments Resolved {A} a.
Arguments Rejected {A} message.

(* ===================================================================== *)
(** * src/components/FlowWidget.jsx: the flow editor                      *)
(* ===================================================================== *)

Module Flow.

Definition CDN : string := "https://ds0fghatf06yb.cloudfront.net/".

Definition DEFAULT_STYLE : JS.str :=
  JS.lit "cinematic photography with soft lighting".

(** ** Segment identifiers *)

Definition nonempty (s : string) : bool := negb (String.eqb s "").

(** [\d] *)
Definition is_digit (c : ascii) : bool :=
  (48 <=? nat_of_ascii c)%nat && (nat_of_ascii c <=? 57)%nat.

(** The longest prefix of digits, and what follows it. *)
Fixpoint span_digits (s : string) : string * string :=
  match s with
  | String c s' =>
      if is_digit c
      then let (d, r) := span_digits s' in (String c d, r)
      else ("", s)
  | EmptyString => ("", "")
  end.

(** [s] without its prefix [p], when it has it. *)
Fixpoint strip_prefix (p s : string) : option string :=
  match p, s with
  | EmptyString, _ => Some s
  | String a p', String b s' =>
      if Ascii.eqb a b then strip_prefix p' s' else None
  | String _ _, EmptyString => None
  end.

(** The image path: [img.uuid.replace(/^seg-(\d+)(?:-\d+)?$/, '$1')].
    The pattern is anchored at both ends, so the whole string is
    replaced by its first group when it matches, and is kept as it is
    when it does not. *)
Definition image_segment_key (uuid : string) : string :=
  match strip_prefix "seg-" uuid with
  | Some rest =>
      match span_digits rest with
      | (EmptyString, _) => uuid
      | (n, EmptyString) => n
      | (n, String "-" t) =>
          match span_digits t with
          | (String _ _, EmptyString) => n
          | _ => uuid
          end
      | _ => uuid
      end
  | None => uuid
  end.

(** A run of digits, and a non-empty one. *)
Fixpoint all_digits (s : string) : bool :=
  match s with
  | EmptyString => true
  | String c s' => is_digit c && all_digits s'
  end.

Definition is_number (s : string) : bool := nonempty s && all_digits s.

(** The video path: [video.uuid.replace(/^seg-/, '')]. *)
Definition video_segment_key (uuid : string) : string :=
  default uuid (strip_prefix "seg-" uuid).

(** ** Records as the project data source returns them *)

Record raw_segment := {
  rs_segmentId : JS.val;
  rs_id : JS.val;
  rs_visual : option JS.str;
  rs_narration : option JS.str;
  rs_animation : option JS.str
}.

(** A missing key ([s3Key], [uuid]) is the empty string: both are falsy. *)
Record raw_image := {
  ri_id : JS.val;
  ri_success : bool;
  ri_s3Key : string;
  ri_uuid : string;
  ri_visualPrompt : option JS.str;
  ri_artStyle : option JS.str;
  ri_isPrimary : option bool   (* [Some b] when [typeof] says boolean *)
}.

Record video_file := { vf_s3Key : string }.

(** [rv_videoFiles] is [[]] when the field is not an array. *)
Record raw_video := {
  rv_id : JS.val;
  rv_success : bool;
  rv_uuid : string;
  rv_videoFiles : list video_file;
  rv_artStyle : option JS.str;
  rv_imageS3Key : option string
}.

Record project_data := {
  pd_segments : list raw_segment;
  pd_images : list raw_image;
  pd_videos : list raw_video
}.

(** ** The reconciled view *)

Record segment := {
  seg_id : JS.val;
  seg_segmentId : JS.val;
  seg_visual : JS.str;
  seg_narration : JS.str;
  seg_animation : JS.str
}.

Record image := {
  img_id : JS.val;
  img_url : string;
  img_visualPrompt : option JS.str;
  img_artStyle : option JS.str;
  img_s3Key : string;
  img_uuid : string;
  img_isPrimary : bool
}.

Record image_detail := {
  idt_id : JS.val;
  idt_visualPrompt : option JS.str;
  idt_artStyle : option JS.str;
  idt_s3Key : string;
  idt_allImages : list image
}.

Record video_detail := {
  vd_id : JS.val;
  vd_artStyle : option JS.str;
  vd_imageS3Key : option string
}.

Record flow_data := {
  fd_segments : list segment;
  fd_images : gmap string string;
  fd_videos : gmap string string;
  fd_imageDetails : gmap string image_detail;
  fd_videoDetails : gmap string video_detail
}.

(** ** [flowData] *)

(** Step 1: [{...seg, id: seg.segmentId || seg.id, visual: seg.visual || '', ...}] *)
Definition process_segment (seg : raw_segment) : segment :=
  {| seg_id := JS.or (rs_segmentId seg) (rs_id seg);
     seg_segmentId := rs_segmentId seg;
     seg_visual := default [] (rs_visual seg);
     seg_narration := default [] (rs_narration seg);
     seg_animation := default [] (rs_animation seg) |}.

(** [uuid.includes('-')] *)
Fixpoint includes_dash (s : string) : bool :=
  match s with
  | EmptyString => false
  | String c s' => Ascii.eqb c "-" || includes_dash s'
  end.

(** [img.success && img.s3Key && img.uuid] *)
Definition image_usable (img : raw_image) : bool :=
  ri_success img && nonempty (ri_s3Key img) && nonempty (ri_uuid img).

(** [typeof img.isPrimary === 'boolean' ? img.isPrimary : !img.uuid.includes('-')] *)
Definition primary_flag (img : raw_image) : bool :=
  match ri_isPrimary img with
  | Some b => b
  | None => negb (includes_dash (ri_uuid img))
  end.

Definition image_of (img : raw_image) : image :=
  {| img_id := ri_id img;
     img_url := CDN +:+ ri_s3Key img;
     img_visualPrompt := ri_visualPrompt img;
     img_artStyle := ri_artStyle img;
     img_s3Key := ri_s3Key img;
     img_uuid := ri_uuid img;
     img_isPrimary := primary_flag img |}.

(** One round of the loop over [allProjectData.images]. *)
Definition push_image (allImagesBySegment : gmap string (list image))
    (img : raw_image) : gmap string (list image) :=
  if image_usable img then
    let segmentId := image_segment_key (ri_uuid img) in
    <[segmentId := default [] (allImagesBySegment !! segmentId) ++ [image_of img]]>
      allImagesBySegment
  else allImagesBySegment.

Definition allImagesBySegment (imgs : list raw_image) : gmap string (list image) :=
  fold_left push_image imgs ∅.

(** The usable images of the segment with key [k], in the order the
    server lists them. *)
Definition arrival (k : string) (imgs : list raw_image) : list image :=
  image_of <$>
    List.filter (fun img => image_usable img
                            && String.eqb (image_segment_key (ri_uuid img)) k)
                imgs.

Definition secondary (i : image) : bool := negb (img_isPrimary i).

(** The comparator handed to [sort]. *)
Definition compare_primary (a b : image) : Z :=
  if img_isPrimary a && negb (img_isPrimary b) then (-1)%Z
  else if negb (img_isPrimary a) && img_isPrimary b then 1%Z
  else 0%Z.

(** [Array.prototype.sort]: the language requires a stable sort, and for
    a consistent comparator the stable order is unique; insertion sort
    computes it. *)
Fixpoint sort_insert {A} (cmp : A -> A -> Z) (x : A) (l : list A) : list A :=
  match l with
  | [] => [x]
  | y :: l' => if (cmp x y <=? 0)%Z then x :: l else y :: sort_insert cmp x l'
  end.

Fixpoint array_sort {A} (cmp : A -> A -> Z) (l : list A) : list A :=
  match l with
  | [] => []
  | x :: l' => sort_insert cmp x (array_sort cmp l')
  end.

(** What one key of [allImagesBySegment] contributes to [images] and
    [imageDetails]. *)
Definition primary_entry (segmentImages : list image) : option (string * image_detail) :=
  match array_sort compare_primary segmentImages with
  | [] => None
  | (primaryImage :: _) as sorted =>
      Some (img_url primaryImage,
            {| idt_id := img_id primaryImage;
               idt_visualPrompt := img_visualPrompt primaryImage;
               idt_artStyle := img_artStyle primaryImage;
               idt_s3Key := img_s3Key primaryImage;
               idt_allImages := sorted |})
  end.

Definition images_of (imgs : list raw_image) : gmap string string :=
  omap (fun l => fst <$> primary_entry l) (allImagesBySegment imgs).

Definition imageDetails_of (imgs : list raw_image) : gmap string image_detail :=
  omap (fun l => snd <$> primary_entry l) (allImagesBySegment imgs).

(** [video.success && video.uuid && videoFiles.length > 0 && videoFiles[0].s3Key] *)
Definition video_usable (v : raw_video) : bool :=
  rv_success v && nonempty (rv_uuid v)
  && match rv_videoFiles v with
     | f :: _ => nonempty (vf_s3Key f)
     | [] => false
     end.

Definition first_file_key (v : raw_video) : string :=
  match rv_videoFiles v with
  | f :: _ => vf_s3Key f
  | [] => ""
  end.

Definition detail_of (v : raw_video) : video_detail :=
  {| vd_id := rv_id v;
     vd_artStyle := rv_artStyle v;
     vd_imageS3Key := match rv_imageS3Key v with
                      | Some k => if nonempty k then Some k else None
                      | None => None
                      end |}.

(** One round of the loop over [allProjectData.videos]. *)
Definition put_video (acc : gmap string string * gmap string video_detail)
    (v : raw_video) : gmap string string * gmap string video_detail :=
  if video_usable v then
    let segmentId := video_segment_key (rv_uuid v) in
    (<[segmentId := CDN +:+ first_file_key v]> (fst acc),
     <[segmentId := detail_of v]> (snd acc))
  else acc.

Definition canonical_videos (vs : list raw_video)
  : gmap string string * gmap string video_detail :=
  fold_left put_video vs (∅, ∅).

(** [temporaryVideos.forEach((videoUrl, key) => { videos[key] = videoUrl })] *)
Definition add_temporary (temporaryVideos videos : gmap string string)
  : gmap string string :=
  map_fold (fun key videoUrl videos => <[key := videoUrl]> videos)
           videos temporaryVideos.

Definition flowData (allProjectData : project_data)
    (temporaryVideos : gmap string string) : flow_data :=
  let cv := canonical_videos (pd_videos allProjectData) in
  {| fd_segments := process_segment <$> pd_segments allProjectData;
     fd_images := images_of (pd_images allProjectData);
     fd_videos := add_temporary temporaryVideos (fst cv);
     fd_imageDetails := imageDetails_of (pd_images allProjectData);
     fd_videoDetails := snd cv |}.

(** The key under which [handleCreateNewVideo] files a preview. *)
Definition videoKey (segmentId imageId : JS.val) : string :=
  JS.to_string segmentId +:+ "-" +:+ JS.to_string imageId.

(** ** [createFlowElements] *)

Inductive node_type :=
| segmentNode | addImageNode | imageNode | videoNode | addVideoNode.

Record position := { pos_x : Z; pos_y : Z }.

(** The [segmentData] object a node hands back to the handlers; a field
    a node does not set is [None]. *)
Record segment_data := {
  sd_id : JS.val;
  sd_visual : option JS.str;
  sd_animation : option JS.str;
  sd_artStyle : option JS.str;
  sd_imageS3Key : option string;
  sd_s3Key : option string
}.

Inductive node_data :=
| SegmentNodeData (segment : segment) (status : string)
| AddImageNodeData (segmentId : JS.val) (segmentData : segment_data)
    (hasExistingImages : bool)
| ImageNodeData (segmentId : JS.val) (imageUrl : string) (imageId : JS.val)
    (isPrimary : bool) (allImages : list image) (segmentData : segment_data)
| VideoNodeData (segmentId imageId : JS.val) (videoUrl : string)
    (videoId : JS.val) (segmentData : segment_data)
| AddVideoNodeData (segmentId imageId : JS.val) (segmentData : segment_data).

Record node := {
  node_id : string;
  node_kind : node_type;
  node_position : position;
  node_payload : node_data
}.

Record edge_style := {
  stroke : string;
  strokeWidth : Z;
  strokeDasharray : option string
}.

Record edge := {
  edge_id : string;
  edge_source : string;
  edge_target : string;
  edge_sourceHandle : string;
  edge_targetHandle : string;
  edge_look : edge_style
}.

Definition nodeSpacing : Z := 220.
Definition rowSpacing : Z := 300.
Definition startX : Z := 50.
Definition startY : Z := 50.
Definition segmentSpacing : Z := 600.

(** The vertical position of the segment at [segIndex]. *)
Definition segment_y (segIndex : nat) : Z :=
  (startY + Z.of_nat segIndex * segmentSpacing)%Z.

(** [m[k]] when it is truthy. *)
Definition truthy_at (m : gmap string string) (k : string) : option string :=
  match m !! k with
  | Some u => if nonempty u then Some u else None
  | None => None
  end.

(** [m[k]] as a condition. *)
Definition has_at (m : gmap string string) (k : string) : bool :=
  match truthy_at m k with
  | Some _ => true
  | None => false
  end.

(** [a || b] on optional text, the empty text being falsy. *)
Definition text_or (a : option JS.str) (b : JS.str) : JS.str :=
  match a with
  | Some (c :: s) => c :: s
  | _ => b
  end.

Definition mk_edge (source target : string) (look : edge_style) : edge :=
  {| edge_id := source +:+ "-to-" +:+ target;
     edge_source := source;
     edge_target := target;
     edge_sourceHandle := "output";
     edge_targetHandle := "input";
     edge_look := look |}.

Definition segment_node_id (sid : string) : string := "segment-" +:+ sid.
Definition add_image_node_id (sid : string) : string := "add-image-" +:+ sid.
Definition image_node_id (sid iid : string) : string :=
  "image-" +:+ sid +:+ "-" +:+ iid.
Definition video_node_id (sid iid : string) : string :=
  "video-" +:+ sid +:+ "-" +:+ iid.
Definition add_video_node_id (sid iid : string) : string :=
  "add-video-" +:+ sid +:+ "-" +:+ iid.

(** [flowData.videos[`${segment.id}-${image.id}`] || flowData.videos[segment.id]] *)
Definition imageVideoUrl (fd : flow_data) (sid iid : string) : option string :=
  match truthy_at (fd_videos fd) (sid +:+ "-" +:+ iid) with
  | Some u => Some u
  | None => truthy_at (fd_videos fd) sid
  end.

(** [videoDetails?.[`${segment.id}-${image.id}`]?.id || videoDetails?.[segment.id]?.id] *)
Definition imageVideoId (fd : flow_data) (sid iid : string) : JS.val :=
  JS.or (default JS.Undefined (vd_id <$> fd_videoDetails fd !! (sid +:+ "-" +:+ iid)))
        (default JS.Undefined (vd_id <$> fd_videoDetails fd !! sid)).

(** What the loop over [imageDetail.allImages] pushes for one image: the
    image node and the node to its right, and the two edges. *)
Definition image_row (fd : flow_data) (segment : segment) (y : Z)
    (imageDetail : image_detail) (imageIndex : nat) (image : image)
  : list node * list edge :=
  let sid := JS.to_string (seg_id segment) in
  let iid := JS.to_string (img_id image) in
  let imageX := (startX + nodeSpacing + nodeSpacing)%Z in
  let imageY := (y + Z.of_nat imageIndex * rowSpacing)%Z in
  let videoX := (imageX + nodeSpacing)%Z in
  let image_node :=
    {| node_id := image_node_id sid iid;
       node_kind := imageNode;
       node_position := {| pos_x := imageX; pos_y := imageY |};
       node_payload :=
         ImageNodeData (seg_id segment) (img_url image) (img_id image)
           (img_isPrimary image) (idt_allImages imageDetail)
           {| sd_id := seg_id segment;
              sd_visual := Some (text_or (img_visualPrompt image) (seg_visual segment));
              sd_animation := Some (seg_animation segment);
              sd_artStyle := Some (text_or (img_artStyle image) DEFAULT_STYLE);
              sd_imageS3Key := None;
              sd_s3Key := None |} |} in
  let image_edge :=
    mk_edge (add_image_node_id sid) (image_node_id sid iid)
      {| stroke := "#f59e0b"; strokeWidth := 2; strokeDasharray := Some "5,5" |} in
  match imageVideoUrl fd sid iid with
  | Some url =>
      ([ image_node;
         {| node_id := video_node_id sid iid;
            node_kind := videoNode;
            node_position := {| pos_x := videoX; pos_y := imageY |};
            node_payload :=
              VideoNodeData (seg_id segment) (img_id image) url
                (imageVideoId fd sid iid)
                {| sd_id := seg_id segment;
                   sd_visual := None;
                   sd_animation := Some (seg_animation segment);
                   sd_artStyle :=
                     Some (text_or (fd_videoDetails fd !! sid ≫= vd_artStyle)
                             DEFAULT_STYLE);
                   sd_imageS3Key := Some (img_s3Key image);
                   sd_s3Key := None |} |} ],
       [ image_edge;
         mk_edge (image_node_id sid iid) (video_node_id sid iid)
           {| stroke := "#10b981"; strokeWidth := 3; strokeDasharray := None |} ])
  | None =>
      ([ image_node;
         {| node_id := add_video_node_id sid iid;
            node_kind := addVideoNode;
            node_position := {| pos_x := videoX; pos_y := imageY |};
            node_payload :=
              AddVideoNodeData (seg_id segment) (img_id image)
                {| sd_id := seg_id segment;
                   sd_visual := None;
                   sd_animation := Some (seg_animation segment);
                   sd_artStyle := Some (text_or (img_artStyle image) DEFAULT_STYLE);
                   sd_imageS3Key := None;
                   sd_s3Key := None |} |} ],
       [ image_edge;
         mk_edge (image_node_id sid iid) (add_video_node_id sid iid)
           {| stroke := "#10b981"; strokeWidth := 2; strokeDasharray := Some "5,5" |} ])
  end.

(** The images the loop runs over for a segment:
    [flowData.images[segment.id] && imageDetail?.allImages]. *)
Definition images_shown (fd : flow_data) (sid : string) : option image_detail :=
  match truthy_at (fd_images fd) sid with
  | Some _ => fd_imageDetails fd !! sid
  | None => None
  end.

Definition segment_rows (fd : flow_data) (segment : segment) (y : Z)
  : list (list node * list edge) :=
  match images_shown fd (JS.to_string (seg_id segment)) with
  | Some imageDetail =>
      imap (image_row fd segment y imageDetail) (idt_allImages imageDetail)
  | None => []
  end.

(** What one round of the loop over [flowData.segments] pushes. *)
Definition segment_block (fd : flow_data) (segIndex : nat) (segment : segment)
  : list node * list edge :=
  let sid := JS.to_string (seg_id segment) in
  let x := startX in
  let y := segment_y segIndex in
  let rows := segment_rows fd segment y in
  ( {| node_id := segment_node_id sid;
       node_kind := segmentNode;
       node_position := {| pos_x := x; pos_y := y |};
       node_payload :=
         SegmentNodeData segment
           (if has_at (fd_videos fd) sid then "completed"
            else if has_at (fd_images fd) sid then "generating"
            else "pending") |}
    :: {| node_id := add_image_node_id sid;
          node_kind := addImageNode;
          node_position := {| pos_x := (x + nodeSpacing)%Z; pos_y := y |};
          node_payload :=
            AddImageNodeData (seg_id segment)
              {| sd_id := seg_id segment;
                 sd_visual := Some (seg_visual segment);
                 sd_animation := None;
                 sd_artStyle := Some DEFAULT_STYLE;
                 sd_imageS3Key := None;
                 sd_s3Key := None |}
              (has_at (fd_images fd) sid) |}
    :: concat (fst <$> rows),
    mk_edge (segment_node_id sid) (add_image_node_id sid)
      {| stroke := "#8b5cf6"; strokeWidth := 3; strokeDasharray := None |}
    :: concat (snd <$> rows) ).

(** The node list and the edge list handed to [setNodes] and [setEdges]. *)
Definition createFlowElements (fd : flow_data) : list node * list edge :=
  let blocks := imap (segment_block fd) (fd_segments fd) in
  (concat (fst <$> blocks), concat (snd <$> blocks)).

(** An edge both ends of which are nodes of the list. *)
Definition anchored (nodes : list node) (e : edge) : Prop :=
  (exists n, In n nodes /\ node_id n = edge_source e)
  /\ (exists n, In n nodes /\ node_id n = edge_target e).

(** ** Component state *)

Record state := {
  loading : bool;
  error : option string;
  projectData : option (list raw_segment);
  allProjectData : project_data;
  regeneratingImages : gset JS.val;
  regeneratingVideos : gset JS.val;
  creatingImages : gset JS.val;
  creatingVideos : gset JS.val;
  temporaryVideos : gmap string string;
  flowMessages : list string
}.

Definition initial : state :=
  {| loading := false; error := None; projectData := None;
     allProjectData := {| pd_segments := []; pd_images := []; pd_videos := [] |};
     regeneratingImages := ∅; regeneratingVideos := ∅;
     creatingImages := ∅; creatingVideos := ∅;
     temporaryVideos := ∅; flowMessages := [] |}.

Definition setLoading (b : bool) (st : state) : state :=
  {| loading := b; error := error st; projectData := projectData st;
     allProjectData := allProjectData st;
     regeneratingImages := regeneratingImages st;
     regeneratingVideos := regeneratingVideos st;
     creatingImages := creatingImages st; creatingVideos := creatingVideos st;
     temporaryVideos := temporaryVideos st; flowMessages := flowMessages st |}.

Definition setError (e : option string) (st : state) : state :=
  {| loading := loading st; error := e; projectData := projectData st;
     allProjectData := allProjectData st;
     regeneratingImages := regeneratingImages st;
     regeneratingVideos := regeneratingVideos st;
     creatingImages := creatingImages st; creatingVideos := creatingVideos st;
     temporaryVideos := temporaryVideos st; flowMessages := flowMessages st |}.

(** [setAllProjectData] followed by [setProjectData]. *)
Definition setAllProjectData (d : project_data) (st : state) : state :=
  {| loading := loading st; error := error st;
     projectData := Some (pd_segments d);
     allProjectData := d;
     regeneratingImages := regeneratingImages st;
     regeneratingVideos := regeneratingVideos st;
     creatingImages := creatingImages st; creatingVideos := creatingVideos st;
     temporaryVideos := temporaryVideos st; flowMessages := flowMessages st |}.

Definition setRegeneratingImages (f : gset JS.val -> gset JS.val) (st : state) : state :=
  {| loading := loading st; error := error st; projectData := projectData st;
     allProjectData := allProjectData st;
     regeneratingImages := f (regeneratingImages st);
     regeneratingVideos := regeneratingVideos st;
     creatingImages := creatingImages st; creatingVideos := creatingVideos st;
     temporaryVideos := temporaryVideos st; flowMessages := flowMessages st |}.

Definition setRegeneratingVideos (f : gset JS.val -> gset JS.val) (st : state) : state :=
  {| loading := loading st; error := error st; projectData := projectData st;
     allProjectData := allProjectData st;
     regeneratingImages := regeneratingImages st;
     regeneratingVideos := f (regeneratingVideos st);
     creatingImages := creatingImages st; creatingVideos := creatingVideos st;
     temporaryVideos := temporaryVideos st; flowMessages := flowMessages st |}.

Definition setCreatingImages (f : gset JS.val -> gset JS.val) (st : state) : state :=
  {| loading := loading st; error := error st; projectData := projectData st;
     allProjectData := allProjectData st;
     regeneratingImages := regeneratingImages st;
     regeneratingVideos := regeneratingVideos st;
     creatingImages := f (creatingImages st); creatingVideos := creatingVideos st;
     temporaryVideos := temporaryVideos st; flowMessages := flowMessages st |}.

Definition setCreatingVideos (f : gset JS.val -> gset JS.val) (st : state) : state :=
  {| loading := loading st; error := error st; projectData := projectData st;
     allProjectData := allProjectData st;
     regeneratingImages := regeneratingImages st;
     regeneratingVideos := regeneratingVideos st;
     creatingImages := creatingImages st; creatingVideos := f (creatingVideos st);
     temporaryVideos := temporaryVideos st; flowMessages := flowMessages st |}.

Definition setTemporaryVideos (f : gmap string string -> gmap string string)
    (st : state) : state :=
  {| loading := loading st; error := error st; projectData := projectData st;
     allProjectData := allProjectData st;
     regeneratingImages := regeneratingImages st;
     regeneratingVideos := regeneratingVideos st;
     creatingImages := creatingImages st; creatingVideos := creatingVideos st;
     temporaryVideos := f (temporaryVideos st); flowMessages := flowMessages st |}.

Definition addFlowMessage (m : string) (st : state) : state :=
  {| loading := loading st; error := error st; projectData := projectData st;
     allProjectData := allProjectData st;
     regeneratingImages := regeneratingImages st;
     regeneratingVideos := regeneratingVideos st;
     creatingImages := creatingImages st; creatingVideos := creatingVideos st;
     temporaryVideos := temporaryVideos st;
     flowMessages := flowMessages st ++ [m] |}.

(** What the component reads from outside its state: the session, the
    project kept in [localStorage], the models picked, the clock. *)
Record context := {
  isAuthenticated : bool;
  storedProjectId : JS.val;   (* [Undefined] when nothing usable is stored *)
  selectedImageModel : option string;
  selectedVideoModel : option string;
  now : Z
}.

Definition NO_PROJECT : string :=
  "No project selected. Please select a project first.".

(** ** [refreshProjectData] *)

Record segmentation := { sg_segments : option (list raw_segment) }.

(** [{ success, data }]; [resp_data] is [None] when [data] is missing. *)
Record response (A : Type) := {
  resp_success : bool;
  resp_data : option (list A)
}.
Arguments resp_success {A} r.
Arguments resp_data {A} r.

(** The answers of the three requests; [Resolved None] is an answer
    without a body. *)
Record fetches := {
  f_segmentations : outcome (option (response segmentation));
  f_images : outcome (option (response raw_image));
  f_videos : outcome (option (response raw_video))
}.

(** The segments of the first segmentation of a successful answer. *)
Definition first_segments (r : option (response segmentation)) : list raw_segment :=
  match r with
  | Some {| resp_success := true; resp_data := Some (firstSegmentation :: _) |} =>
      default [] (sg_segments firstSegmentation)
  | _ => []
  end.

(** [r?.data || []] *)
Definition data_or_empty {A} (r : option (response A)) : list A :=
  default [] (r ≫= resp_data).

Definition refreshProjectData (ctx : context) (f : fetches) (st : state) : state :=
  if negb (isAuthenticated ctx) then st
  else if negb (JS.truthy (storedProjectId ctx)) then setError (Some NO_PROJECT) st
  else
    match f_segmentations f, f_images f, f_videos f with
    | Resolved segmentationsData, Resolved imagesData, Resolved videosData =>
        setLoading false
          (setAllProjectData
             {| pd_segments := first_segments segmentationsData;
                pd_images := data_or_empty imagesData;
                pd_videos := data_or_empty videosData |}
             (setLoading true st))
    | _, _, _ =>
        setLoading false
          (setError (Some "Failed to fetch project data") (setLoading true st))
    end.

(** ** The per-entity handlers *)

Inductive call :=
| GenerateImage (p : Chat.image_payload)
| GenerateVideo (p : Chat.video_payload).

(** [{ s3_key }]; the empty string when the answer carries none. *)
Record gen_response := { s3_key : string }.

(** [`seg-${id}`] *)
Definition seg_uuid (id : JS.val) : JS.val := JS.Str ("seg-" +:+ JS.to_string id).

(** [`seg-${segmentId}-${timestamp}`] *)
Definition unique_uuid (segmentId : JS.val) (timestamp : Z) : JS.val :=
  JS.Str ("seg-" +:+ JS.to_string segmentId +:+ "-" +:+ JS.to_string (JS.Num timestamp)).

(** [segmentData.artStyle || 'cinematic photography with soft lighting'] *)
Definition style_of (sd : segment_data) : JS.str :=
  text_or (sd_artStyle sd) DEFAULT_STYLE.

Definition truthy_key (k : option string) : option string :=
  match k with
  | Some s => if nonempty s then Some s else None
  | None => None
  end.

(** [handleRegenerateImage] up to its first [await]: the state it
    leaves and the generation request it sends. *)
Definition handleRegenerateImage (ctx : context) (imageId : JS.val)
    (segmentData : segment_data) (st : state) : state * list call :=
  if negb (isAuthenticated ctx) || bool_decide (imageId ∈ regeneratingImages st)
  then (st, [])
  else if negb (JS.truthy (storedProjectId ctx))
  then (setError (Some NO_PROJECT) st, [])
  else
    let st' := setRegeneratingImages (fun prev => prev ∪ {[imageId]}) st in
    match truthy_key (sd_s3Key segmentData) with
    | Some _ => (st', [])
    | None =>
        (st', [GenerateImage (Chat.generateImage_payload
                 {| Chat.ia_visual_prompt := sd_visual segmentData;
                    Chat.ia_art_style := Some (style_of segmentData);
                    Chat.ia_uuid := seg_uuid (sd_id segmentData);
                    Chat.ia_project_id := storedProjectId ctx;
                    Chat.ia_model := selectedImageModel ctx |})])
    end.

(** The rest of [handleRegenerateImage], once the generation request
    ([None] when an edited image was handed over instead) and then the
    refresh have come back. *)
Definition handleRegenerateImage_settled (ctx : context) (imageId : JS.val)
    (segmentData : segment_data) (gen : option (outcome gen_response))
    (f : fetches) (st : state) : state :=
  let done :=
    match gen with
    | Some (Rejected message) =>
        setError (Some ("Failed to regenerate image: " +:+ message)) st
    | _ =>
        addFlowMessage
          ("Image for scene " +:+ JS.to_string (sd_id segmentData)
             +:+ " regenerated successfully!")
          (refreshProjectData ctx f st)
    end in
  setRegeneratingImages (fun prev => prev ∖ {[imageId]}) done.

(** [flowData.imageDetails?.[segmentData.id]?.s3Key || segmentData.imageS3Key] *)
Definition connected_image_key (st : state) (segmentData : segment_data)
  : option string :=
  let fd := flowData (allProjectData st) (temporaryVideos st) in
  match truthy_key (idt_s3Key <$> fd_imageDetails fd !! JS.to_string (sd_id segmentData)) with
  | Some k => Some k
  | None => sd_imageS3Key segmentData
  end.

Definition handleRegenerateVideo (ctx : context) (videoId : JS.val)
    (segmentData : segment_data) (st : state) : state * list call :=
  if negb (isAuthenticated ctx) || bool_decide (videoId ∈ regeneratingVideos st)
  then (st, [])
  else if negb (JS.truthy (storedProjectId ctx))
  then (setError (Some NO_PROJECT) st, [])
  else
    (setRegeneratingVideos (fun prev => prev ∪ {[videoId]}) st,
     [GenerateVideo (Chat.generateVideo_payload
        {| Chat.va_animation_prompt := sd_animation segmentData;
           Chat.va_art_style := sd_artStyle segmentData;
           Chat.va_image_s3_key := connected_image_key st segmentData;
           Chat.va_uuid := seg_uuid (sd_id segmentData);
           Chat.va_project_id := storedProjectId ctx;
           Chat.va_model := selectedVideoModel ctx |})]).

Definition handleRegenerateVideo_settled (ctx : context) (videoId : JS.val)
    (segmentData : segment_data) (gen : outcome gen_response)
    (f : fetches) (st : state) : state :=
  let done :=
    match gen with
    | Rejected message =>
        setError (Some ("Failed to regenerate video: " +:+ message)) st
    | Resolved _ =>
        addFlowMessage
          ("Video for scene " +:+ JS.to_string (sd_id segmentData)
             +:+ " regenerated, overwritten, and metadata updated successfully!")
          (refreshProjectData ctx f st)
    end in
  setRegeneratingVideos (fun prev => prev ∖ {[videoId]}) done.

(** [handleCreateNewImage]: the only test before the request is the one
    on the session. *)
Definition handleCreateNewImage (ctx : context) (segmentId : JS.val)
    (segmentData : segment_data) (st : state) : state * list call :=
  if negb (isAuthenticated ctx) then (st, [])
  else if negb (JS.truthy (storedProjectId ctx))
  then (setError (Some NO_PROJECT) st, [])
  else
    (setCreatingImages (fun prev => prev ∪ {[segmentId]}) st,
     [GenerateImage (Chat.generateImage_payload
        {| Chat.ia_visual_prompt := sd_visual segmentData;
           Chat.ia_art_style := Some (style_of segmentData);
           Chat.ia_uuid := unique_uuid segmentId (now ctx);
           Chat.ia_project_id := storedProjectId ctx;
           Chat.ia_model := selectedImageModel ctx |})]).

Definition handleCreateNewImage_settled (ctx : context) (segmentId : JS.val)
    (gen : outcome gen_response) (f : fetches) (st : state) : state :=
  let done :=
    match gen with
    | Rejected message =>
        setError (Some ("Failed to create new image: " +:+ message)) st
    | Resolved _ =>
        addFlowMessage
          ("New image for scene " +:+ JS.to_string segmentId
             +:+ " created successfully!")
          (refreshProjectData ctx f st)
    end in
  setCreatingImages (fun prev => prev ∖ {[segmentId]}) done.

(** [imageDetail?.allImages?.find(img => img.id === imageId)] *)
Definition targetImage (st : state) (segmentId imageId : JS.val) : option image :=
  let fd := flowData (allProjectData st) (temporaryVideos st) in
  fd_imageDetails fd !! JS.to_string segmentId
    ≫= fun imageDetail =>
         List.find (fun img => bool_decide (img_id img = imageId))
                   (idt_allImages imageDetail).

(** [handleCreateNewVideo] up to its first [await].  When the image is
    not found the handler throws before any request, reports the error
    and takes the key out of the set again. *)
Definition handleCreateNewVideo (ctx : context) (segmentId imageId : JS.val)
    (segmentData : segment_data) (st : state) : state * list call :=
  if negb (isAuthenticated ctx) || bool_decide (imageId ∈ creatingVideos st)
  then (st, [])
  else if negb (JS.truthy (storedProjectId ctx))
  then (setError (Some NO_PROJECT) st, [])
  else
    let st' := setCreatingVideos (fun prev => prev ∪ {[imageId]}) st in
    match targetImage st segmentId imageId with
    | None =>
        (setCreatingVideos (fun prev => prev ∖ {[imageId]})
           (setError (Some "Failed to create new video: Image not found") st'),
         [])
    | Some img =>
        (st',
         [GenerateVideo (Chat.generateVideo_payload
            {| Chat.va_animation_prompt := sd_animation segmentData;
               Chat.va_art_style := Some (style_of segmentData);
               Chat.va_image_s3_key := Some (img_s3Key img);
               Chat.va_uuid := unique_uuid segmentId (now ctx);
               Chat.va_project_id := storedProjectId ctx;
               Chat.va_model := selectedVideoModel ctx |})])
    end.

Definition handleCreateNewVideo_settled (segmentId imageId : JS.val)
    (gen : outcome gen_response) (st : state) : state :=
  let done :=
    match gen with
    | Rejected message =>
        setError (Some ("Failed to create new video: " +:+ message)) st
    | Resolved genResponse =>
        if nonempty (s3_key genResponse) then
          addFlowMessage
            ("New video for scene " +:+ JS.to_string segmentId
               +:+ " generated successfully! (Preview mode - not saved to database)")
            (setTemporaryVideos
               (fun prev => <[videoKey segmentId imageId := CDN +:+ s3_key genResponse]> prev)
               st)
        else st
    end in
  setCreatingVideos (fun prev => prev ∖ {[imageId]}) done.

(** The four operations on an entity, and what the environment does to
    a running one. *)
Inductive operation :=
| RegenerateImage (imageId : JS.val) (segmentData : segment_data)
| RegenerateVideo (videoId : JS.val) (segmentData : segment_data)
| CreateNewImage (segmentId : JS.val) (segmentData : segment_data)
| CreateNewVideo (segmentId imageId : JS.val) (segmentData : segment_data).

(** The key an operation files its task under, and the set it uses. *)
Definition entityKey (op : operation) : JS.val :=
  match op with
  | RegenerateImage imageId _ => imageId
  | RegenerateVideo videoId _ => videoId
  | CreateNewImage segmentId _ => segmentId
  | CreateNewVideo _ imageId _ => imageId
  end.

Definition in_flight (op : operation) (st : state) : gset JS.val :=
  match op with
  | RegenerateImage _ _ => regeneratingImages st
  | RegenerateVideo _ _ => regeneratingVideos st
  | CreateNewImage _ _ => creatingImages st
  | CreateNewVideo _ _ _ => creatingVideos st
  end.

Definition invoke (ctx : context) (op : operation) (st : state) : state * list call :=
  match op with
  | RegenerateImage imageId sd => handleRegenerateImage ctx imageId sd st
  | RegenerateVideo videoId sd => handleRegenerateVideo ctx videoId sd st
  | CreateNewImage segmentId sd => handleCreateNewImage ctx segmentId sd st
  | CreateNewVideo segmentId imageId sd => handleCreateNewVideo ctx segmentId imageId sd st
  end.

Definition settle (ctx : context) (op : operation) (gen : outcome gen_response)
    (f : fetches) (st : state) : state :=
  match op with
  | RegenerateImage imageId sd =>
      handleRegenerateImage_settled ctx imageId sd
        (match truthy_key (sd_s3Key sd) with Some _ => None | None => Some gen end) f st
  | RegenerateVideo videoId sd => handleRegenerateVideo_settled ctx videoId sd gen f st
  | CreateNewImage segmentId _ => handleCreateNewImage_settled ctx segmentId gen f st
  | CreateNewVideo segmentId imageId _ => handleCreateNewVideo_settled segmentId imageId gen st
  end.

(** ** Further handlers of the flow editor *)

(** The request of [handleMakePrimary]. *)
Inductive project_call :=
| SetPrimaryImage (projectId imageId : JS.val).

(** [handleMakePrimary] up to its [await]: the image is looked up in the
    list the node hands over, then the stored project is read. *)
Definition handleMakePrimary (ctx : context) (imageId segmentId : JS.val)
    (allImages : list image) (st : state) : state * list project_call :=
  if negb (isAuthenticated ctx) then (st, [])
  else
    match List.find (fun img => bool_decide (img_id img = imageId)) allImages with
    | None => (st, [])
    | Some _ =>
        if negb (JS.truthy (storedProjectId ctx))
        then (setError (Some NO_PROJECT) st, [])
        else (st, [SetPrimaryImage (storedProjectId ctx) imageId])
    end.

(** The rest of [handleMakePrimary], once [setPrimaryImage] and then the
    refresh have come back. *)
Definition handleMakePrimary_settled (ctx : context) (segmentId : JS.val)
    (r : outcome unit) (f : fetches) (st : state) : state :=
  match r with
  | Rejected message =>
      setError (Some ("Failed to make image primary: " +:+ message)) st
  | Resolved _ =>
      addFlowMessage
        ("Image for scene " +:+ JS.to_string segmentId +:+ " is now primary!")
        (refreshProjectData ctx f st)
  end.

(** The button "Clear Previews": [setTemporaryVideos(new Map())]. *)
Definition clearPreviews (st : state) : state :=
  setTemporaryVideos (fun _ => ∅) st.

(** The view the component renders from its state. *)
Definition view (st : state) : flow_data :=
  flowData (allProjectData st) (temporaryVideos st).

(** The usable videos filed under the key [k], in the order the server
    lists them. *)
Definition videos_for (k : string) (vs : list raw_video) : list raw_video :=
  List.filter (fun v => video_usable v
                        && String.eqb (video_segment_key (rv_uuid v)) k)
              vs.

(** The positions of the nodes of a row. *)
Definition row_positions (row : list node * list edge) : list position :=
  node_position <$> fst row.

(** The four in-flight sets of a state. *)
Definition in_flight_sets (st : state)
  : gset JS.val * gset JS.val * gset JS.val * gset JS.val :=
  (regeneratingImages st, regeneratingVideos st, creatingImages st, creatingVideos st).

(** The sets with the key of an operation put into the set of the
    operation, or taken out of it. *)
Definition with_key (op : operation) (change : gset JS.val -> gset JS.val) (st : state)
  : gset JS.val * gset JS.val * gset JS.val * gset JS.val :=
  match op with
  | RegenerateImage _ _ =>
      (change (regeneratingImages st), regeneratingVideos st, creatingImages st, creatingVideos st)
  | RegenerateVideo _ _ =>
      (regeneratingImages st, change (regeneratingVideos st), creatingImages st, creatingVideos st)
  | CreateNewImage _ _ =>
      (regeneratingImages st, regeneratingVideos st, change (creatingImages st), creatingVideos st)
  | CreateNewVideo _ _ _ =>
      (regeneratingImages st, regeneratingVideos st, creatingImages st, change (creatingVideos st))
  end.

(** The segment an operation works for, and the uuid its request
    names the result by. *)
Definition segment_of (op : operation) : JS.val :=
  match op with
  | RegenerateImage _ segmentData => sd_id segmentData
  | RegenerateVideo _ segmentData => sd_id segmentData
  | CreateNewImage segmentId _ => segmentId
  | CreateNewVideo segmentId _ _ => segmentId
  end.

Definition request_uuid (c : call) : JS.val :=
  match c with
  | GenerateImage p => Chat.ip_uuid p
  | GenerateVideo p => Chat.vp_uuid p
  end.

End Flow.

(* ===================================================================== *)
(** * The chat sidebar: the six-step workflow                             *)
(* ===================================================================== *)

Module Sidebar.

(** The three values a step status takes:
    ['pending'], ['loading'], ['done']. *)
Inductive status := Pending | Loading | Done.

#[global] Instance status_eq_dec : EqDecision status.
Proof. solve_decision. Defined.

Record concept := { concept_title : JS.str }.

(** A segment of a script, with the fields the workflow reads. *)
Record segment := {
  id : JS.val;
  segmentId : JS.val;
  uuid : JS.val;
  visual : option JS.str;
  animation : option JS.str;
  narration : option JS.str;
  s3Key : option string;
  image_s3_key : option string;
  imageS3Key : option string;
  videoUrl : option string;
  video_url : option string
}.

(** [segments] is [None] when the script carries no list. *)
Record script := {
  segments : option (list segment);
  artStyle : option JS.str
}.

Record project := { project_id : JS.val }.

Inductive task_kind := image | video.
Inductive task_status := generating | completed | error_.

Record progress := {
  pg_type : task_kind;
  pg_status : task_status;
  pg_index : nat;
  pg_total : nat;
  pg_error : option string
}.

(** What [creditDeductionMessage] shows: a deduction given by the
    arguments of [showCreditDeduction], the deduction for a whole
    process, or a failed request.  The amounts come from the price
    table and are not part of the model. *)
Inductive notice :=
| Deducted (serviceName : string) (model : option string) (count : nat)
| ProcessDeducted (serviceName : string)
| RequestFailed (serviceName : string).

Record state := {
  loading : bool;
  error : option string;
  currentStep : nat;
  stepStatus : gmap nat status;
  concepts : option (list concept);
  selectedConcept : option concept;
  scripts : option (script * script);
  selectedScript : option script;
  generatedImages : gmap string string;
  generatedVideos : gmap string string;
  generationProgress : gmap string progress;
  creditDeductionMessage : option notice
}.

(** State the modelled functions only read. *)
Record context := {
  prompt : JS.str;
  selectedProject : option project;
  selectedImageModel : option string;
  selectedVideoModel : option string
}.

Definition all_pending : gmap nat status :=
  <[0 := Pending]> (<[1 := Pending]> (<[2 := Pending]>
    (<[3 := Pending]> (<[4 := Pending]> (<[5 := Pending]> ∅))))).

(** The state after [resetFlow], which is also the first one. *)
Definition initial : state :=
  {| loading := false; error := None; currentStep := 0;
     stepStatus := all_pending;
     concepts := None; selectedConcept := None;
     scripts := None; selectedScript := None;
     generatedImages := ∅; generatedVideos := ∅;
     generationProgress := ∅; creditDeductionMessage := None |}.

Definition setLoading (b : bool) (st : state) : state :=
  {| loading := b; error := error st; currentStep := currentStep st;
     stepStatus := stepStatus st; concepts := concepts st;
     selectedConcept := selectedConcept st; scripts := scripts st;
     selectedScript := selectedScript st;
     generatedImages := generatedImages st; generatedVideos := generatedVideos st;
     generationProgress := generationProgress st;
     creditDeductionMessage := creditDeductionMessage st |}.

Definition setError (e : option string) (st : state) : state :=
  {| loading := loading st; error := e; currentStep := currentStep st;
     stepStatus := stepStatus st; concepts := concepts st;
     selectedConcept := selectedConcept st; scripts := scripts st;
     selectedScript := selectedScript st;
     generatedImages := generatedImages st; generatedVideos := generatedVideos st;
     generationProgress := generationProgress st;
     creditDeductionMessage := creditDeductionMessage st |}.

Definition setCurrentStep (n : nat) (st : state) : state :=
  {| loading := loading st; error := error st; currentStep := n;
     stepStatus := stepStatus st; concepts := concepts st;
     selectedConcept := selectedConcept st; scripts := scripts st;
     selectedScript := selectedScript st;
     generatedImages := generatedImages st; generatedVideos := generatedVideos st;
     generationProgress := generationProgress st;
     creditDeductionMessage := creditDeductionMessage st |}.

Definition setStepStatus (f : gmap nat status -> gmap nat status) (st : state) : state :=
  {| loading := loading st; error := error st; currentStep := currentStep st;
     stepStatus := f (stepStatus st); concepts := concepts st;
     selectedConcept := selectedConcept st; scripts := scripts st;
     selectedScript := selectedScript st;
     generatedImages := generatedImages st; generatedVideos := generatedVideos st;
     generationProgress := generationProgress st;
     creditDeductionMessage := creditDeductionMessage st |}.

Definition setConcepts (c : option (list concept)) (st : state) : state :=
  {| loading := loading st; error := error st; currentStep := currentStep st;
     stepStatus := stepStatus st; concepts := c;
     selectedConcept := selectedConcept st; scripts := scripts st;
     selectedScript := selectedScript st;
     generatedImages := generatedImages st; generatedVideos := generatedVideos st;
     generationProgress := generationProgress st;
     creditDeductionMessage := creditDeductionMessage st |}.

Definition setSelectedConcept (c : option concept) (st : state) : state :=
  {| loading := loading st; error := error st; currentStep := currentStep st;
     stepStatus := stepStatus st; concepts := concepts st;
     selectedConcept := c; scripts := scripts st;
     selectedScript := selectedScript st;
     generatedImages := generatedImages st; generatedVideos := generatedVideos st;
     generationProgress := generationProgress st;
     creditDeductionMessage := creditDeductionMessage st |}.

Definition setScripts (s : option (script * script)) (st : state) : state :=
  {| loading := loading st; error := error st; currentStep := currentStep st;
     stepStatus := stepStatus st; concepts := concepts st;
     selectedConcept := selectedConcept st; scripts := s;
     selectedScript := selectedScript st;
     generatedImages := generatedImages st; generatedVideos := generatedVideos st;
     generationProgress := generationProgress st;
     creditDeductionMessage := creditDeductionMessage st |}.

Definition setSelectedScript (f : option script -> option script) (st : state) : state :=
  {| loading := loading st; error := error st; currentStep := currentStep st;
     stepStatus := stepStatus st; concepts := concepts st;
     selectedConcept := selectedConcept st; scripts := scripts st;
     selectedScript := f (selectedScript st);
     generatedImages := generatedImages st; generatedVideos := generatedVideos st;
     generationProgress := generationProgress st;
     creditDeductionMessage := creditDeductionMessage st |}.

Definition setGeneratedImages (m : gmap string string) (st : state) : state :=
  {| loading := loading st; error := error st; currentStep := currentStep st;
     stepStatus := stepStatus st; concepts := concepts st;
     selectedConcept := selectedConcept st; scripts := scripts st;
     selectedScript := selectedScript st;
     generatedImages := m; generatedVideos := generatedVideos st;
     generationProgress := generationProgress st;
     creditDeductionMessage := creditDeductionMessage st |}.

Definition setGeneratedVideos (m : gmap string string) (st : state) : state :=
  {| loading := loading st; error := error st; currentStep := currentStep st;
     stepStatus := stepStatus st; concepts := concepts st;
     selectedConcept := selectedConcept st; scripts := scripts st;
     selectedScript := selectedScript st;
     generatedImages := generatedImages st; generatedVideos := m;
     generationProgress := generationProgress st;
     creditDeductionMessage := creditDeductionMessage st |}.

Definition setGenerationProgress (f : gmap string progress -> gmap string progress)
    (st : state) : state :=
  {| loading := loading st; error := error st; currentStep := currentStep st;
     stepStatus := stepStatus st; concepts := concepts st;
     selectedConcept := selectedConcept st; scripts := scripts st;
     selectedScript := selectedScript st;
     generatedImages := generatedImages st; generatedVideos := generatedVideos st;
     generationProgress := f (generationProgress st);
     creditDeductionMessage := creditDeductionMessage st |}.

Definition setCreditDeductionMessage (n : option notice) (st : state) : state :=
  {| loading := loading st; error := error st; currentStep := currentStep st;
     stepStatus := stepStatus st; concepts := concepts st;
     selectedConcept := selectedConcept st; scripts := scripts st;
     selectedScript := selectedScript st;
     generatedImages := generatedImages st; generatedVideos := generatedVideos st;
     generationProgress := generationProgress st;
     creditDeductionMessage := n |}.

(** [updateStepStatus]: [{...prev, [stepId]: status}] *)
Definition updateStepStatus (stepId : nat) (s : status) (st : state) : state :=
  setStepStatus (fun prev => <[stepId := s]> prev) st.

Definition showCreditDeduction (serviceName : string) (model : option string)
    (count : nat) (st : state) : state :=
  setCreditDeductionMessage (Some (Deducted serviceName model count)) st.

Definition showRequestFailed (serviceName : string) (st : state) : state :=
  setCreditDeductionMessage (Some (RequestFailed serviceName)) st.

(** [error.message || fallback] *)
Definition message_or (message fallback : string) : string :=
  if Flow.nonempty message then message else fallback.

(** The message of the [TypeError] the engine throws when a property of
    [undefined] or [null] is read; its wording belongs to the engine. *)
Definition TYPE_ERROR : string := "TypeError".

(** ** The status derived from the data *)

Definition has_segments (s : option script) : bool :=
  match s with
  | Some {| segments := Some (_ :: _) |} => true
  | _ => false
  end.

Definition is_set (k : option string) : bool :=
  match k with
  | Some s => Flow.nonempty s
  | None => false
  end.

(** [selectedScript?.segments?.some(p)] *)
Definition some_segment (p : segment -> bool) (s : option script) : bool :=
  match s with
  | Some {| segments := Some l |} => existsb p l
  | _ => false
  end.

Definition hasImages (st : state) : bool :=
  negb (bool_decide (generatedImages st = ∅))
  || some_segment (fun seg => is_set (s3Key seg) || is_set (image_s3_key seg)
                              || is_set (imageS3Key seg))
                  (selectedScript st).

Definition hasVideos (st : state) : bool :=
  negb (bool_decide (generatedVideos st = ∅))
  || some_segment (fun seg => is_set (videoUrl seg) || is_set (video_url seg))
                  (selectedScript st).

Definition done_if (b : bool) : status := if b then Done else Pending.

(** The effect that recomputes every step status from the data. *)
Definition derive_status (ctx : context) (st : state) : state :=
  match selectedProject ctx with
  | None => st
  | Some _ =>
      setStepStatus
        (fun stepStatus =>
           <[5 := done_if (hasVideos st)]>
             (<[4 := done_if (hasImages st)]>
                (<[3 := done_if (has_segments (selectedScript st))]>
                   (<[2 := done_if (has_segments (selectedScript st))]>
                      (<[1 := done_if (bool_decide (is_Some (selectedConcept st)))]>
                         (<[0 := done_if (match concepts st with
                                          | Some (_ :: _) => true
                                          | _ => false
                                          end)]> stepStatus))))))
        st
  end.

Definition handleConceptSelect (c : concept) (st : state) : state :=
  setCurrentStep 2 (updateStepStatus 1 Done (setSelectedConcept (Some c) st)).

Definition handleScriptSelect (s : script) (st : state) : state :=
  setCurrentStep 4 (updateStepStatus 3 Done (setSelectedScript (fun _ => Some s) st)).

(** ** [runConceptWriter] and [runScriptGeneration] *)

(** The requests the sidebar sends. *)
Inductive call :=
| ProcessWebInfo (prompt : JS.str) (projectId : JS.val)
| GenerateConcepts (prompt : JS.str) (webInfoContent : JS.str) (projectId : JS.val)
| GetSegmentation (prompt : JS.str) (concept : JS.str) (projectId : JS.val)
| GenerateImage (p : Chat.image_payload)
| DownloadImage (s3_key : string)
| GenerateVideo (p : Chat.video_payload)
| DownloadVideo (s3_key : string).

(** [selectedProject?.id] *)
Definition projectId (ctx : context) : JS.val :=
  match selectedProject ctx with
  | Some p => project_id p
  | None => JS.Undefined
  end.

(** The answer of the web-info service: the contents of its choices. *)
Record web_info := { choices : list JS.str }.

Record concepts_result := { cr_concepts : option (list concept) }.

Record concept_answers := {
  webInfoResult : outcome web_info;
  conceptsResult : JS.str -> outcome concepts_result
}.

Definition concept_failed (message : string) (st : state) : state :=
  setLoading false
    (updateStepStatus 0 Pending
       (setError (Some (message_or message "Failed to generate concepts. Please try again."))
          (showRequestFailed "Concept Generation" st))).

(** [runConceptWriter], run to its end against the answers of the two
    services: the final state and the requests sent. *)
Definition runConceptWriter (ctx : context) (env : concept_answers) (st : state)
  : state * list call :=
  match JS.trim (prompt ctx) with
  | [] => (setError (Some "Please enter a prompt first") st, [])
  | _ :: _ =>
      let st1 := updateStepStatus 0 Loading (setError None (setLoading true st)) in
      let c1 := ProcessWebInfo (prompt ctx) (projectId ctx) in
      match webInfoResult env with
      | Rejected message => (concept_failed message st1, [c1])
      | Resolved w =>
          match choices w with
          | [] => (concept_failed TYPE_ERROR st1, [c1])
          | webInfoContent :: _ =>
              let c2 := GenerateConcepts (prompt ctx) webInfoContent (projectId ctx) in
              match conceptsResult env webInfoContent with
              | Rejected message => (concept_failed message st1, [c1; c2])
              | Resolved r =>
                  (setLoading false
                     (setCurrentStep 1
                        (updateStepStatus 0 Done
                           (setConcepts (cr_concepts r)
                              (setCreditDeductionMessage
                                 (Some (ProcessDeducted "Concept Writer Process")) st1)))),
                   [c1; c2])
              end
          end
      end
  end.

Definition script_failed (message : string) (st : state) : state :=
  setLoading false
    (updateStepStatus 2 Pending
       (setError (Some (message_or message "Failed to generate scripts. Please try again."))
          (showRequestFailed "Script Generation" st))).

(** [runScriptGeneration], run to its end against the answers of the two
    segmentation requests ([Promise.all]: one rejection rejects both). *)
Definition runScriptGeneration (ctx : context) (res1 res2 : outcome script)
    (st : state) : state * list call :=
  match selectedConcept st with
  | None => (setError (Some "Please select a concept first") st, [])
  | Some c =>
      let st1 := updateStepStatus 2 Loading (setError None (setLoading true st)) in
      let q := GetSegmentation (prompt ctx) (concept_title c) (projectId ctx) in
      match res1, res2 with
      | Resolved r1, Resolved r2 =>
          (setLoading false
             (setCurrentStep 3
                (updateStepStatus 2 Done
                   (setScripts (Some (r1, r2))
                      (showCreditDeduction "Script Generation" None 2 st1)))),
           [q; q])
      | Rejected message, _ => (script_failed message st1, [q; q])
      | _, Rejected message => (script_failed message st1, [q; q])
      end
  end.

(** ** [runImageGeneration] and [runVideoGeneration]

    A batch starts one task per eligible segment and waits for all of
    them with [Promise.allSettled].  Between the start and the end the
    environment settles the pending requests one at a time, in any
    order: an [event] is one request coming back. *)

(** The value a task's promise resolves with; [None] is [null]. *)
Record task_result := {
  tr_segmentId : JS.val;
  tr_url : string
}.

Inductive task_state :=
| AwaitGeneration
| AwaitDownload (s3_key : string)
| Settled (result : option task_result).

(** [launched] keeps, for every task, the position of its segment in
    [selectedScript.segments] and the segment as it was at the start;
    [collected] is the local [imagesMap] or [videosMap]. *)
Record batch := {
  ui : state;
  launched : list (nat * segment);
  tasks : list task_state;
  collected : gmap string string;
  sent : list call
}.

Inductive event :=
| GenerationSettled (i : nat) (r : outcome Flow.gen_response)
| DownloadSettled (i : nat) (r : outcome string).

Definition event_task (ev : event) : nat :=
  match ev with
  | GenerationSettled i _ => i
  | DownloadSettled i _ => i
  end.

Definition on_ui (f : state -> state) (b : batch) : batch :=
  {| ui := f (ui b); launched := launched b; tasks := tasks b;
     collected := collected b; sent := sent b |}.

Definition set_task (i : nat) (t : task_state) (b : batch) : batch :=
  {| ui := ui b; launched := launched b; tasks := <[i := t]> (tasks b);
     collected := collected b; sent := sent b |}.

Definition collect (key url : string) (b : batch) : batch :=
  {| ui := ui b; launched := launched b; tasks := tasks b;
     collected := <[key := url]> (collected b); sent := sent b |}.

Definition send (c : call) (b : batch) : batch :=
  {| ui := ui b; launched := launched b; tasks := tasks b;
     collected := collected b; sent := sent b ++ [c] |}.

(** [setGenerationProgress(prev => ({...prev, [segment.id]: {...}}))] *)
Definition mark (kind : task_kind) (s : task_status) (index total : nat)
    (err : option string) (segment : segment) (st : state) : state :=
  setGenerationProgress
    (fun prev =>
       <[JS.to_string (id segment) :=
           {| pg_type := kind; pg_status := s; pg_index := S index;
              pg_total := total; pg_error := err |}]> prev)
    st.

Definition with_s3Key (key : string) (seg : segment) : segment :=
  {| id := id seg; segmentId := segmentId seg; uuid := uuid seg;
     visual := visual seg; animation := animation seg; narration := narration seg;
     s3Key := Some key;
     image_s3_key := image_s3_key seg; imageS3Key := imageS3Key seg;
     videoUrl := videoUrl seg; video_url := video_url seg |}.

(** [segment.s3Key = result.s3_key]: the segment is the object held by
    [selectedScript.segments], so the assignment shows there. *)
Definition assign_s3Key (k : nat) (key : string) (s : option script) : option script :=
  match s with
  | Some {| segments := Some l; artStyle := a |} =>
      Some {| segments := Some (alter (with_s3Key key) k l); artStyle := a |}
  | other => other
  end.

Definition all_settled (b : batch) : bool :=
  forallb (fun t => match t with Settled _ => true | _ => false end) (tasks b).

(** [seg.visual && seg.visual.trim()] *)
Definition has_visual (seg : segment) : bool :=
  match visual seg with
  | Some v => match JS.trim v with [] => false | _ :: _ => true end
  | None => false
  end.

(** [selectedScript.artStyle || ""] *)
Definition script_style (sc : script) : option JS.str :=
  Some (default [] (artStyle sc)).

Definition image_request (ctx : context) (sc : script) (seg : segment) : call :=
  GenerateImage (Chat.generateImage_payload
    {| Chat.ia_visual_prompt := visual seg;
       Chat.ia_art_style := script_style sc;
       Chat.ia_uuid := id seg;
       Chat.ia_project_id := projectId ctx;
       Chat.ia_model := selectedImageModel ctx |}).

Definition image_failed (message : string) (st : state) : state :=
  setLoading false
    (updateStepStatus 4 Pending
       (setError (Some (message_or message "Failed to generate images. Please try again."))
          (showRequestFailed "Image Generation" st))).

(** The start of a task: its progress entry and its request.  A task
    without a request is one that returns [null] before it does
    anything: it is settled from the start and shows no progress. *)
Definition start_task (kind : task_kind) (request : segment -> option call) (total : nat)
    (b : batch) (t : nat * (nat * segment)) : batch :=
  match request (snd (snd t)) with
  | Some c => send c (on_ui (mark kind generating (fst t) total None (snd (snd t))) b)
  | None => set_task (fst t) (Settled None) b
  end.

Definition start_all (kind : task_kind) (request : segment -> option call)
    (items : list (nat * segment)) (st : state) : batch :=
  fold_left (start_task kind request (length items))
    (imap pair items)
    {| ui := st; launched := items;
       tasks := replicate (length items) AwaitGeneration;
       collected := ∅; sent := [] |}.

(** [runImageGeneration] up to [await Promise.allSettled]: either it is
    over already, or a batch is running. *)
Definition runImageGeneration_launch (ctx : context) (st : state) : state + batch :=
  match selectedScript st with
  | None => inl (setError (Some "Please select a script first") st)
  | Some sc =>
      let st1 := setGenerationProgress (fun _ => ∅)
                   (updateStepStatus 4 Loading (setError None (setLoading true st))) in
      match segments sc with
      | None => inl (image_failed TYPE_ERROR st1)
      | Some segs =>
          match List.filter (fun p => has_visual (snd p)) (imap pair segs) with
          | [] =>
              inl (setLoading false
                     (updateStepStatus 4 Pending
                        (setLoading false
                           (setError (Some "No visual prompts found in script segments.")
                              st1))))
          | segmentsToGenerate =>
              inr (start_all image (fun seg => Some (image_request ctx sc seg))
                     segmentsToGenerate st1)
          end
      end
  end.

(** One request of an image task coming back. *)
Definition image_event (b : batch) (ev : event) : option batch :=
  let total := length (launched b) in
  match ev with
  | GenerationSettled i r =>
      match tasks b !! i, launched b !! i with
      | Some AwaitGeneration, Some (_, segment) =>
          Some
            match r with
            | Resolved result =>
                if Flow.nonempty (Flow.s3_key result)
                then send (DownloadImage (Flow.s3_key result))
                       (set_task i (AwaitDownload (Flow.s3_key result)) b)
                else set_task i (Settled None)
                       (on_ui (mark image error_ i total
                                 (Some "No image key returned from API") segment) b)
            | Rejected message =>
                set_task i (Settled None)
                  (on_ui (mark image error_ i total (Some message) segment) b)
            end
      | _, _ => None
      end
  | DownloadSettled i r =>
      match tasks b !! i, launched b !! i with
      | Some (AwaitDownload key), Some (k, segment) =>
          Some
            match r with
            | Resolved imageUrl =>
                set_task i
                  (Settled (Some {| tr_segmentId := id segment; tr_url := imageUrl |}))
                  (on_ui (mark image completed i total None segment)
                     (on_ui (setSelectedScript (assign_s3Key k key))
                        (collect (JS.to_string (id segment)) imageUrl b)))
            | Rejected message =>
                set_task i (Settled None)
                  (on_ui (mark image error_ i total (Some message) segment) b)
            end
      | _, _ => None
      end
  end.

(** What follows [await Promise.allSettled(imagePromises)]; it runs only
    when every task has settled.  No task rejects, so the test on
    rejected results never fires. *)
Definition runImageGeneration_finish (ctx : context) (b : batch) : option state :=
  if all_settled b then
    let segmentsWithS3Key := selectedScript (ui b) ≫= segments in
    Some
      (setLoading false
         (setCurrentStep 5
            (updateStepStatus 4 Done
               (setSelectedScript
                  (fun prev => Some {| segments := segmentsWithS3Key;
                                       artStyle := prev ≫= artStyle |})
                  (setGeneratedImages (collected b)
                     (showCreditDeduction "Image Generation" (selectedImageModel ctx)
                        (length (launched b)) (ui b)))))))
  else None.

(** [[segment.id, `seg-${segment.id}`, segment.segmentId, segment.uuid]] *)
Definition segmentIdVariants (seg : segment) : list JS.val :=
  [ id seg;
    JS.Str ("seg-" +:+ JS.to_string (id seg));
    segmentId seg;
    uuid seg ].

(** [segmentIdVariants.find(id => generatedImages[id])]: the element of
    the list itself, a number where the id is one; [None] when [find]
    finds nothing. *)
Definition matchingImageKey (generatedImages : gmap string string) (seg : segment)
  : option JS.val :=
  List.find (fun v => Flow.has_at generatedImages (JS.to_string v))
            (segmentIdVariants seg).

(** The first component of [s.split(sep)] and the rest, at the first
    occurrence of [sep]. *)
Fixpoint cut (sep s : string) : option (string * string) :=
  match Flow.strip_prefix sep s with
  | Some after => Some ("", after)
  | None =>
      match s with
      | EmptyString => None
      | String c s' =>
          match cut sep s' with
          | Some (before, after) => Some (String c before, after)
          | None => None
          end
      end
  end.

(** [imageUrl.split('cloudfront.net/')[1]], when the URL has the marker. *)
Definition imageS3Key_of (imageUrl : string) : option string :=
  match cut "cloudfront.net/" imageUrl with
  | Some (_, after) =>
      Some match cut "cloudfront.net/" after with
           | Some (part, _) => part
           | None => after
           end
  | None => None
  end.

(** [segment.animation || segment.visual] *)
Definition animation_or_visual (seg : segment) : option JS.str :=
  match animation seg with
  | Some (c :: s) => Some (c :: s)
  | _ => visual seg
  end.

Definition video_request (ctx : context) (sc : script)
    (generatedImages : gmap string string) (seg : segment) : call :=
  GenerateVideo (Chat.generateVideo_payload
    {| Chat.va_animation_prompt := animation_or_visual seg;
       Chat.va_art_style := script_style sc;
       Chat.va_image_s3_key :=
         matchingImageKey generatedImages seg
           ≫= fun key => generatedImages !! JS.to_string key ≫= imageS3Key_of;
       Chat.va_uuid := id seg;
       Chat.va_project_id := projectId ctx;
       Chat.va_model := selectedVideoModel ctx |}).

(** The beginning of a video task: [if (!matchingImageKey) return null]
    ends it before anything is sent.  The test is on the id that [find]
    gave back, so an id that is falsy ([0], the empty text,
    [undefined]) ends the task although the map has an image for it. *)
Definition video_task (ctx : context) (sc : script)
    (generatedImages : gmap string string) (seg : segment) : option call :=
  match matchingImageKey generatedImages seg with
  | Some key =>
      if JS.truthy key then Some (video_request ctx sc generatedImages seg) else None
  | None => None
  end.

Definition video_failed (message : string) (st : state) : state :=
  setLoading false
    (updateStepStatus 5 Pending
       (setError (Some (message_or message "Failed to generate videos. Please try again."))
          (showRequestFailed "Video Generation" st))).

(** [runVideoGeneration] up to [await Promise.allSettled]. *)
Definition runVideoGeneration_launch (ctx : context) (st : state) : state + batch :=
  if bool_decide (generatedImages st = ∅)
  then inl (setError (Some "Please generate images first") st)
  else
    let st1 := setGenerationProgress (fun _ => ∅)
                 (updateStepStatus 5 Loading (setError None (setLoading true st))) in
    match selectedScript st with
    | None => inl (video_failed TYPE_ERROR st1)
    | Some sc =>
        match segments sc with
        | None => inl (video_failed TYPE_ERROR st1)
        | Some segs =>
            let validSegments :=
              List.filter
                (fun p => bool_decide (is_Some (matchingImageKey (generatedImages st) (snd p))))
                (imap pair segs) in
            inr (start_all video (video_task ctx sc (generatedImages st))
                   validSegments st1)
        end
    end.

(** One request of a video task coming back. *)
Definition video_event (b : batch) (ev : event) : option batch :=
  let total := length (launched b) in
  match ev with
  | GenerationSettled i r =>
      match tasks b !! i, launched b !! i with
      | Some AwaitGeneration, Some (_, segment) =>
          Some
            match r with
            | Resolved result =>
                if Flow.nonempty (Flow.s3_key result)
                then send (DownloadVideo (Flow.s3_key result))
                       (set_task i (AwaitDownload (Flow.s3_key result)) b)
                else set_task i (Settled None)
                       (on_ui (mark video error_ i total
                                 (Some "No video key returned from API") segment) b)
            | Rejected message =>
                set_task i (Settled None)
                  (on_ui (mark video error_ i total (Some message) segment) b)
            end
      | _, _ => None
      end
  | DownloadSettled i r =>
      match tasks b !! i, launched b !! i with
      | Some (AwaitDownload _), Some (_, segment) =>
          Some
            match r with
            | Resolved videoUrl =>
                set_task i
                  (Settled (Some {| tr_segmentId := id segment; tr_url := videoUrl |}))
                  (on_ui (mark video completed i total None segment)
                     (collect (JS.to_string (id segment)) videoUrl b))
            | Rejected message =>
                set_task i (Settled None)
                  (on_ui (mark video error_ i total (Some message) segment) b)
            end
      | _, _ => None
      end
  end.

(** What follows [await Promise.allSettled(videoPromises)]. *)
Definition runVideoGeneration_finish (ctx : context) (b : batch) : option state :=
  if all_settled b then
    let total := length (launched b) in
    Some
      (setLoading false
         (updateStepStatus 5 Done
            (setGeneratedVideos (collected b)
               (if (0 <? total)%nat
                then showCreditDeduction "Video Generation" (selectedVideoModel ctx)
                       total (ui b)
                else ui b))))
  else None.

(** A run of the environment: the events in the order they happen. *)
Fixpoint run (step : batch -> event -> option batch) (b : batch)
    (evs : list event) : option batch :=
  match evs with
  | [] => Some b
  | ev :: evs' =>
      match step b ev with
      | Some b' => run step b' evs'
      | None => None
      end
  end.

(** Task [i] came to an end with a result. *)
Definition succeeded (b : batch) (i : nat) (r : task_result) : Prop :=
  tasks b !! i = Some (Settled (Some r)).

(** Task [i] came to an end without one. *)
Definition failed (b : batch) (i : nat) : Prop :=
  tasks b !! i = Some (Settled None).

(** The key of task [i] in the collected map. *)
Definition task_key (b : batch) (i : nat) : option string :=
  (fun p => JS.to_string (id (snd p))) <$> launched b !! i.

(** The two batches side by side. *)
Definition launch (kind : task_kind) : context -> state -> state + batch :=
  match kind with
  | image => runImageGeneration_launch
  | video => runVideoGeneration_launch
  end.

Definition on_event (kind : task_kind) : batch -> event -> option batch :=
  match kind with
  | image => image_event
  | video => video_event
  end.

Definition finish (kind : task_kind) : context -> batch -> option state :=
  match kind with
  | image => runImageGeneration_finish
  | video => runVideoGeneration_finish
  end.

(** [generatedImages] or [generatedVideos]. *)
Definition generated (kind : task_kind) (st : state) : gmap string string :=
  match kind with
  | image => generatedImages st
  | video => generatedVideos st
  end.

Definition step_of (kind : task_kind) : nat :=
  match kind with
  | image => 4
  | video => 5
  end.

(** The keys of the tasks of a batch, in the order of the tasks. *)
Definition task_keys (b : batch) : list string :=
  (fun p => JS.to_string (id (snd p))) <$> launched b.

(** Every result a task has ended with is in the collected map, under
    the key of the task, unless a later result of a task with the same
    key took its place. *)
Definition recorded (b : batch) : Prop :=
  forall i r, succeeded b i r ->
    exists j r' k,
      succeeded b j r' /\ task_key b j = Some k /\ task_key b i = Some k
      /\ collected b !! k = Some (tr_url r').

(** ** The steps of the workflow *)

Definition isStepDisabled (stepId : nat) (st : state) : bool :=
  if loading st then true
  else
    match stepId with
    | 0 => false
    | 1 => negb (bool_decide (is_Some (concepts st)))
    | 2 => negb (bool_decide (is_Some (selectedConcept st)))
    | 3 | 4 =>
        match selectedScript st with
        | Some {| segments := Some _ |} => false
        | _ => true
        end
    | 5 => bool_decide (generatedImages st = ∅)
    | _ => true
    end.

(** [handleStepClick], run to its end against the answers of the
    services the step calls. *)
Definition handleStepClick (ctx : context) (env : concept_answers)
    (res1 res2 : outcome script) (stepId : nat) (st : state) : state * list call :=
  if isStepDisabled stepId st || loading st then (st, [])
  else
    let st1 := setCurrentStep stepId st in
    if bool_decide (stepStatus st !! stepId = Some Done) then (st1, [])
    else
      match stepId with
      | 0 => runConceptWriter ctx env st1
      | 2 => runScriptGeneration ctx res1 res2 st1
      | _ => (st1, [])
      end.

(** The state of the dialogue that asks for a model before a step is
    run again. *)
Record redo := {
  showRedoModal : bool;
  redoStepId : option nat;
  redoImageModel : option string;
  redoVideoModel : option string
}.

Definition setRedoImageModel (m : option string) (rd : redo) : redo :=
  {| showRedoModal := showRedoModal rd; redoStepId := redoStepId rd;
     redoImageModel := m; redoVideoModel := redoVideoModel rd |}.

Definition setRedoVideoModel (m : option string) (rd : redo) : redo :=
  {| showRedoModal := showRedoModal rd; redoStepId := redoStepId rd;
     redoImageModel := redoImageModel rd; redoVideoModel := m |}.

Definition setShowRedoModal (b : bool) (rd : redo) : redo :=
  {| showRedoModal := b; redoStepId := redoStepId rd;
     redoImageModel := redoImageModel rd; redoVideoModel := redoVideoModel rd |}.

Definition setRedoStepId (s : option nat) (rd : redo) : redo :=
  {| showRedoModal := showRedoModal rd; redoStepId := s;
     redoImageModel := redoImageModel rd; redoVideoModel := redoVideoModel rd |}.

Definition setSelectedImageModel (m : option string) (ctx : context) : context :=
  {| prompt := prompt ctx; selectedProject := selectedProject ctx;
     selectedImageModel := m; selectedVideoModel := selectedVideoModel ctx |}.

Definition setSelectedVideoModel (m : option string) (ctx : context) : context :=
  {| prompt := prompt ctx; selectedProject := selectedProject ctx;
     selectedImageModel := selectedImageModel ctx; selectedVideoModel := m |}.

(** [handleRedoStep]: steps 4 and 5 open the dialogue, the others run. *)
Definition handleRedoStep (ctx : context) (env : concept_answers)
    (res1 res2 : outcome script) (stepId : nat) (rd : redo) (st : state)
  : redo * (state * list call) :=
  if loading st then (rd, (st, []))
  else if (stepId =? 4)%nat || (stepId =? 5)%nat then
    (setShowRedoModal true
       (setRedoVideoModel (selectedVideoModel ctx)
          (setRedoImageModel (selectedImageModel ctx)
             (setRedoStepId (Some stepId) rd))),
     (st, []))
  else
    let st1 := setCurrentStep stepId st in
    (rd,
     match stepId with
     | 0 => runConceptWriter ctx env st1
     | 2 => runScriptGeneration ctx res1 res2 st1
     | _ => (st1, [])
     end).

(** [handleRedoWithModel] up to the end of the launch of the batch:
    [None] when the handler returns at once; otherwise the models the
    next render sees, the dialogue, and the outcome of the launch.  The
    launch is the one of the render the handler belongs to, so it reads
    the models of [ctx].  [setRedoStepId(null)] runs when the generation
    is over, which is at once when the launch ends without a batch. *)
Definition handleRedoWithModel (ctx : context) (rd : redo) (st : state)
  : option (context * redo * (state + batch)) :=
  if loading st then None
  else
    match redoStepId rd with
    | None | Some 0 => None
    | Some stepId =>
        let rd1 := setShowRedoModal false rd in
        let st1 := setCurrentStep stepId st in
        let over (r : state + batch) : redo :=
          match r with
          | inl _ => setRedoStepId None rd1
          | inr _ => rd1
          end in
        match stepId with
        | 4 =>
            let r := runImageGeneration_launch ctx st1 in
            Some (setSelectedImageModel (redoImageModel rd) ctx, over r, r)
        | 5 =>
            let r := runVideoGeneration_launch ctx st1 in
            Some (setSelectedVideoModel (redoVideoModel rd) ctx, over r, r)
        | _ => Some (ctx, setRedoStepId None rd1, inl st1)
        end
    end.

(** [resetFlow]: the models go back to the defaults of the service. *)
Definition resetFlow (ctx : context) (st : state) : context * state :=
  (setSelectedVideoModel (Chat.getDefaultModel "VIDEO")
     (setSelectedImageModel (Chat.getDefaultModel "IMAGE") ctx),
   setGenerationProgress (fun _ => ∅)
     (setGeneratedVideos ∅
        (setGeneratedImages ∅
           (setSelectedScript (fun _ => None)
              (setScripts None
                 (setSelectedConcept None
                    (setConcepts None
                       (setStepStatus (fun _ => all_pending)
                          (setCurrentStep 0 st))))))))).

(** The model a batch of the kind reads. *)
Definition model_of (kind : task_kind) (ctx : context) : option string :=
  match kind with
  | image => selectedImageModel ctx
  | video => selectedVideoModel ctx
  end.

(** The model a request carries, when it is a generation request. *)
Definition request_model (c : call) : option string :=
  match c with
  | GenerateImage p => Some (Chat.ip_model p)
  | GenerateVideo p => Some (Chat.vp_model p)
  | _ => None
  end.

(** ** [stripMarkdown] *)

(** The characters the pattern removes: [*], [_], the backquote, [#]. *)
Definition is_markup (c : N) : bool :=
  (c =? 42)%N || (c =? 95)%N || (c =? 96)%N || (c =? 35)%N.

(** [s.replace(/\*\*|__|\*|_|`|#/g, "")]: from the left, at every
    position the alternatives are tried in the order they are written;
    a match is dropped and the scan goes on after it. *)
Fixpoint strip_markup (s : JS.str) : JS.str :=
  match s with
  | [] => []
  | c :: s' =>
      match s' with
      | c' :: s'' =>
          if (c =? 42)%N && (c' =? 42)%N then strip_markup s''
          else if (c =? 95)%N && (c' =? 95)%N then strip_markup s''
          else if is_markup c then strip_markup s'
          else c :: strip_markup s'
      | [] => if is_markup c then [] else [c]
      end
  end.

Definition stripMarkdown (s : JS.str) : JS.str := JS.trim (strip_markup s).


(** [seg'] is [seg], but for the key of a generated image assigned to
    it since. *)
Definition keyed (seg seg' : segment) : Prop :=
  seg' = seg \/ exists key, seg' = with_s3Key key seg.

(** The segments of the tasks are those of the script shown, each at
    its position, but for the keys assigned since the launch. *)
Definition aligned (b : batch) : Prop :=
  exists sc segs,
    selectedScript (ui b) = Some sc /\ segments sc = Some segs
    /\ forall i pos seg, launched b !! i = Some (pos, seg) ->
         exists seg', segs !! pos = Some seg' /\ keyed seg seg'.

(** ** [loadProjectData] *)

(** A segment, an image and a video as the project service stores
    them, with the fields the function reads. *)
Record stored_segment := {
  ss_segmentId : JS.val;
  ss_id : JS.val;
  ss_visual : option JS.str;
  ss_animation : option JS.str;
  ss_narration : option JS.str;
  ss_s3Key : option string;
  ss_image_s3_key : option string;
  ss_imageS3Key : option string;
  ss_videoUrl : option string;
  ss_video_url : option string
}.

Record stored_segmentation := {
  sn_segments : option (list stored_segment);
  sn_artStyle : option JS.str
}.

Record stored_image := {
  si_uuid : JS.val;
  si_segment_id : JS.val;
  si_segmentId : JS.val;
  si_id : JS.val;
  si_s3Key : option string;
  si_imageS3Key : option string;
  si_imageS3key : option string;
  si_image_s3_key : option string;
  si_url : option string;
  si_imageUrl : option string
}.

Record video_file := { vf_s3Key : option string }.

Record stored_video := {
  sv_uuid : JS.val;
  sv_segment_id : JS.val;
  sv_segmentId : JS.val;
  sv_id : JS.val;
  sv_s3Keys : option (list string);
  sv_videoFiles : option (list video_file);
  sv_url : option string
}.

(** The answers the function reads, out of the five it waits for;
    [None] is an answer without a body. *)
Record project_answers := {
  projectConcepts : option (Flow.response concept);
  projectImages : option (Flow.response stored_image);
  projectVideos : option (Flow.response stored_video);
  projectSegmentations : option (Flow.response stored_segmentation)
}.

(** [r && r.success && r.data && r.data.length > 0]: the data, when the
    test passes. *)
Definition answered {A} (r : option (Flow.response A)) : option (list A) :=
  match r with
  | Some {| Flow.resp_success := true; Flow.resp_data := Some (x :: l) |} => Some (x :: l)
  | _ => None
  end.

(** [a || b] on optional text. *)
Definition text_else (a b : option string) : option string :=
  if is_set a then a else b.

Definition load_segment (seg : stored_segment) : segment :=
  {| id := JS.or (ss_segmentId seg) (ss_id seg);
     segmentId := JS.Undefined; uuid := JS.Undefined;
     visual := ss_visual seg; animation := ss_animation seg;
     narration := ss_narration seg;
     s3Key := text_else (text_else (ss_s3Key seg) (ss_image_s3_key seg))
                        (ss_imageS3Key seg);
     image_s3_key := None; imageS3Key := None;
     videoUrl := text_else (ss_videoUrl seg) (ss_video_url seg);
     video_url := None |}.

(** The script of the first segmentation, when it has segments. *)
Definition load_script (r : option (Flow.response stored_segmentation))
  : option script :=
  match answered r with
  | Some (firstSegmentation :: _) =>
      match sn_segments firstSegmentation with
      | Some (s :: l) =>
          Some {| segments := Some (load_segment <$> (s :: l));
                  artStyle := sn_artStyle firstSegmentation |}
      | _ => None
      end
  | _ => None
  end.

(** [img.uuid || img.segment_id || img.segmentId || img.id] *)
Definition image_segment (img : stored_image) : JS.val :=
  JS.or (JS.or (JS.or (si_uuid img) (si_segment_id img)) (si_segmentId img)) (si_id img).

(** [img.s3Key || img.imageS3Key || img.imageS3key || img.image_s3_key] *)
Definition image_key (img : stored_image) : option string :=
  text_else (text_else (text_else (si_s3Key img) (si_imageS3Key img)) (si_imageS3key img))
            (si_image_s3_key img).

(** [key ? `https://ds0fghatf06yb.cloudfront.net/${key}`
         : (img.url || img.imageUrl)] *)
Definition image_url (img : stored_image) : option string :=
  match image_key img with
  | Some key => if Flow.nonempty key then Some (Flow.CDN +:+ key)
                else text_else (si_url img) (si_imageUrl img)
  | None => text_else (si_url img) (si_imageUrl img)
  end.

Definition set_s3Key (key : option string) (seg : segment) : segment :=
  {| id := id seg; segmentId := segmentId seg; uuid := uuid seg;
     visual := visual seg; animation := animation seg; narration := narration seg;
     s3Key := key;
     image_s3_key := image_s3_key seg; imageS3Key := imageS3Key seg;
     videoUrl := videoUrl seg; video_url := video_url seg |}.

(** [const segment = segments.find(p);
     if (segment && !segment.s3Key) segment.s3Key = key;] *)
Fixpoint assign_key (p : segment -> bool) (key : option string)
    (segs : list segment) : list segment :=
  match segs with
  | [] => []
  | seg :: rest =>
      if p seg
      then (if is_set (s3Key seg) then seg else set_s3Key key seg) :: rest
      else seg :: assign_key p key rest
  end.

(** One round of [projectImages.data.forEach]: the map filled so far and
    the segments of the script, which the loop updates in place.
    [loosely_equal] is the operator [==] of the language. *)
Definition load_image (loosely_equal : JS.val -> JS.val -> bool)
    (acc : gmap string string * list segment) (img : stored_image)
  : gmap string string * list segment :=
  let segmentId := image_segment img in
  if negb (JS.truthy segmentId) then acc
  else
    match image_url img with
    | Some imageUrl =>
        if Flow.nonempty imageUrl
        then (<[JS.to_string segmentId := imageUrl]> (fst acc),
              assign_key (fun seg => loosely_equal (id seg) segmentId)
                         (image_key img) (snd acc))
        else acc
    | None => acc
    end.

(** [video.uuid || video.segment_id || video.segmentId || video.id] *)
Definition video_segment (v : stored_video) : JS.val :=
  JS.or (JS.or (JS.or (sv_uuid v) (sv_segment_id v)) (sv_segmentId v)) (sv_id v).

Definition video_key (v : stored_video) : option string :=
  match sv_s3Keys v with
  | Some (k :: _) => Some k
  | _ =>
      match sv_videoFiles v with
      | Some (f :: _) => vf_s3Key f
      | _ => None
      end
  end.

(** [videoKey ? `https://ds0fghatf06yb.cloudfront.net/${videoKey}`
              : (video.url || null)] *)
Definition stored_video_url (v : stored_video) : option string :=
  match video_key v with
  | Some key => if Flow.nonempty key then Some (Flow.CDN +:+ key) else sv_url v
  | None => sv_url v
  end.

Definition load_video (acc : gmap string string) (v : stored_video)
  : gmap string string :=
  let segmentId := video_segment v in
  if negb (JS.truthy segmentId) then acc
  else if is_set (stored_video_url v)
       then match stored_video_url v with
            | Some videoUrl => <[JS.to_string segmentId := videoUrl]> acc
            | None => acc
            end
       else acc.

(** The script as the state holds it in the end: the segments are the
    objects the loop over the images has updated. *)
Definition with_segments (segs : list segment) (s : option script) : option script :=
  match s with
  | Some sc => Some {| segments := Some segs; artStyle := artStyle sc |}
  | None => None
  end.

(** [loadProjectData], run to its end against the answer of
    [Promise.all]; the second component is [storedVideosMap]. *)
Definition loadProjectData (loosely_equal : JS.val -> JS.val -> bool)
    (ctx : context) (answers : outcome project_answers)
    (st : state) (storedVideosMap : gmap string string)
  : state * gmap string string :=
  match selectedProject ctx with
  | None => (st, storedVideosMap)
  | Some _ =>
      let st1 := setError None (setLoading true st) in
      match answers with
      | Rejected _ =>
          (setLoading false
             (setError (Some "Failed to load project data. Please try again.") st1),
           storedVideosMap)
      | Resolved a =>
          let script := load_script (projectSegmentations a) in
          let segments := default [] (script ≫= segments) in
          let loaded :=
            fold_left (load_image loosely_equal)
              (default [] (answered (projectImages a))) (∅, segments) in
          let videosMap :=
            fold_left load_video (default [] (answered (projectVideos a))) ∅ in
          (setLoading false
             (setScripts None
                (setSelectedConcept None
                   (setGeneratedVideos videosMap
                      (setGeneratedImages (fst loaded)
                         (setSelectedScript
                            (fun _ => with_segments (snd loaded) script)
                            (setConcepts (answered (projectConcepts a)) st1)))))),
           videosMap)
      end
  end.

(** [{...generatedVideos, ...storedVideosMap}]: where both maps have
    an entry, the stored one is taken. *)
Definition combinedVideosMap (generatedVideos storedVideosMap : gmap string string)
  : gmap string string :=
  storedVideosMap ∪ generatedVideos.

(** ** A batch against the answers of the environment *)

(** What the environment answers to the two requests of each task. *)
Record answers := {
  generation : nat -> outcome Flow.gen_response;
  download : nat -> outcome string
}.

(** The event brings the answer of the environment. *)
Definition answer_of (env : answers) (ev : event) : Prop :=
  match ev with
  | GenerationSettled i r => r = generation env i
  | DownloadSettled i r => r = download env i
  end.

(** The value the promise of task [i] resolves with, read off the body
    of the task and the answers to its own requests: [null] when the
    task sent nothing, when the generation fails or brings no key, or
    when the download fails; otherwise the URL of the download. *)
Definition task_outcome (env : answers) (b0 : batch) (i : nat) : option task_result :=
  match tasks b0 !! i, launched b0 !! i with
  | Some AwaitGeneration, Some (_, segment) =>
      match generation env i with
      | Resolved result =>
          if Flow.nonempty (Flow.s3_key result)
          then match download env i with
               | Resolved url => Some {| tr_segmentId := id segment; tr_url := url |}
               | Rejected _ => None
               end
          else None
      | Rejected _ => None
      end
  | _, _ => None
  end.

(** The batch [b], started as [b0], has only seen answers of [env]. *)
Definition on_course (env : answers) (b0 b : batch) : Prop :=
  launched b = launched b0
  /\ length (tasks b) = length (launched b0)
  /\ forall i t, tasks b !! i = Some t ->
       match t with
       | AwaitGeneration => tasks b0 !! i = Some AwaitGeneration
       | AwaitDownload key =>
           tasks b0 !! i = Some AwaitGeneration
           /\ exists result,
                generation env i = Resolved result
                /\ Flow.s3_key result = key /\ Flow.nonempty key = true
       | Settled r => r = task_outcome env b0 i
       end.

(** The answers a task still waits for. *)
Definition weight (t : task_state) : nat :=
  match t with
  | AwaitGeneration => 2
  | AwaitDownload _ => 1
  | Settled _ => 0
  end.

Definition pending (b : batch) : nat := sum_list_with weight (tasks b).

(** The task has sent its generation request and waits for the answer. *)
Definition awaiting (t : task_state) : bool :=
  match t with
  | AwaitGeneration => true
  | _ => false
  end.

End Sidebar.

(* ===================================================================== *)
(** * src/lib/pricing.js                                                  *)
(* ===================================================================== *)

Module Pricing.

(** An amount of credits.  The amounts of the table are multiples of a
    quarter, which the numbers of the language hold exactly; they are
    rationals here. *)
Definition credits := QArith_base.Q.

Record price := {
  pr_credits : credits;
  pr_editCredits : credits;
  pr_unit : string
}.

Definition quarters (n : Z) : credits := QArith_base.Qmake n 4.

(** [CREDIT_PRICES]; the [cost] in dollars of an entry plays no part in
    any function and is left out. *)
Definition CREDIT_PRICES : list (string * list (string * price)) :=
  [ ("IMAGE",
     [ ("imagen",
        {| pr_credits := quarters 8; pr_editCredits := quarters 16; pr_unit := "per image" |});
       ("recraft-v3",
        {| pr_credits := quarters 4; pr_editCredits := quarters 8; pr_unit := "per image" |}) ]);
    ("VIDEO",
     [ ("veo2",
        {| pr_credits := quarters 100; pr_editCredits := quarters 150; pr_unit := "per second" |});
       ("gen4_turbo",
        {| pr_credits := quarters 10; pr_editCredits := quarters 15; pr_unit := "per second" |});
       ("kling v2.1-master",
        {| pr_credits := quarters 80; pr_editCredits := quarters 120; pr_unit := "per second" |});
       ("veo3",
        {| pr_credits := quarters 150; pr_editCredits := quarters 0; pr_unit := "per second" |}) ]);
    ("AUDIO",
     [ ("elevenlabs",
        {| pr_credits := quarters 8; pr_editCredits := quarters 8; pr_unit := "per minute" |}) ]);
    ("TEXT",
     [ ("perplexity",
        {| pr_credits := quarters 4; pr_editCredits := quarters 8; pr_unit := "per request" |});
       ("concept generator",
        {| pr_credits := quarters 4; pr_editCredits := quarters 8; pr_unit := "per request" |});
       ("script & segmentation",
        {| pr_credits := quarters 12; pr_editCredits := quarters 24; pr_unit := "per request" |});
       ("web-info",
        {| pr_credits := quarters 4; pr_editCredits := quarters 8; pr_unit := "per request" |}) ]) ].

Definition getCreditCost (category model : string) (isEdit : bool) : credits :=
  match JS.entry CREDIT_PRICES (JS.toUpperCase category) with
  | None => quarters 0
  | Some categoryPrices =>
      match JS.entry categoryPrices model with
      | None => quarters 0
      | Some modelPrices =>
          if isEdit then pr_editCredits modelPrices else pr_credits modelPrices
      end
  end.

Definition getTextCreditCost (serviceName : string) (isEdit : bool) : credits :=
  getCreditCost "TEXT" serviceName isEdit.

Definition getImageCreditCost (model : string) (isEdit : bool) : credits :=
  getCreditCost "IMAGE" model isEdit.

(** [duration] in whole seconds. *)
Definition getVideoCreditCost (model : string) (duration : Z) (isEdit : bool) : credits :=
  QArith_base.Qmult (getCreditCost "VIDEO" model isEdit) (QArith_base.inject_Z duration).

Definition getAudioCreditCost (model : string) (duration : Z) (isEdit : bool) : credits :=
  QArith_base.Qmult (getCreditCost "AUDIO" model isEdit) (QArith_base.inject_Z duration).

(** [if (model)] of [showCreditDeduction]: the model, when one is given
    and it is not the empty text. *)
Definition given (model : option string) : option string :=
  match model with
  | Some m => if Flow.nonempty m then Some m else None
  | None => None
  end.

(** The amount [showCreditDeduction] of the sidebar computes for its
    message; a service it does not know has none. *)
Definition deduction (serviceName : string) (model : option string) (count : nat)
  : option credits :=
  let times (c : credits) := QArith_base.Qmult c (QArith_base.inject_Z (Z.of_nat count)) in
  if String.eqb serviceName "Web Info Processing" then
    Some (getTextCreditCost "web-info" false)
  else if String.eqb serviceName "Concept Generation" then
    Some (getTextCreditCost "concept generator" false)
  else if String.eqb serviceName "Script Generation" then
    Some (times (getTextCreditCost "script & segmentation" false))
  else if String.eqb serviceName "Image Generation" then
    Some (times (getImageCreditCost (default "imagen" (given model)) false))
  else if String.eqb serviceName "Video Generation" then
    Some (times (getVideoCreditCost (default "veo2" (given model)) 5 false))
  else None.

(** The amount a notice of the sidebar shows. *)
Definition notice_credits (n : Sidebar.notice) : option credits :=
  match n with
  | Sidebar.Deducted serviceName model count => deduction serviceName model count
  | Sidebar.ProcessDeducted _ =>
      Some (QArith_base.Qplus (getTextCreditCost "web-info" false)
                              (getTextCreditCost "concept generator" false))
  | Sidebar.RequestFailed _ => None
  end.

End Pricing.

(* ===================================================================== *)
(** * src/context/AuthContext.jsx                                         *)
(* ===================================================================== *)

Module Auth.

(** What [user] or [authData.user] holds: nothing at all ([undefined]),
    [null], or the object of the user. *)
Inductive held (U : Type) :=
| Absent
| Nothing
| Held (u : U).
Arguments Absent {U}.
Arguments Nothing {U}.
Arguments Held {U} u.

Record state (U : Type) := {
  user : held U;
  token : option string;
  loading : bool;
  error : option string
}.
Arguments user {U} s.
Arguments token {U} s.
Arguments loading {U} s.
Arguments error {U} s.

(** [localStorage] *)
Definition storage := gmap string string.

(** [!!user && !!token] *)
Definition isAuthenticated {U} (st : state U) : bool :=
  match user st with
  | Held _ => Sidebar.is_set (token st)
  | _ => false
  end.

Record auth_data (U : Type) := {
  access_token : option string;
  ad_user : held U
}.
Arguments access_token {U} a.
Arguments ad_user {U} a.

(** The text [localStorage.setItem(key, JSON.stringify(user))] stores;
    [stringify] is [JSON.stringify] on the object of a user. *)
Definition stored_text {U} (stringify : U -> string) (h : held U) : string :=
  match h with
  | Absent => "undefined"
  | Nothing => "null"
  | Held u => stringify u
  end.

Definition handleAuthSuccess {U} (stringify : U -> string) (authData : auth_data U)
    (s : state U * storage) : state U * storage :=
  match access_token authData with
  | Some t =>
      if Flow.nonempty t
      then ({| user := ad_user authData; token := Some t;
               loading := loading (fst s); error := None |},
            <["authUser" := stored_text stringify (ad_user authData)]>
              (<["authToken" := t]> (snd s)))
      else s
  | None => s
  end.

(** [logout]: what the bridge of the desktop shell answers, if it is
    asked at all, is only logged. *)
Definition logout {U} (answer : option (outcome unit)) (s : state U * storage)
  : state U * storage :=
  ({| user := Nothing; token := None; loading := loading (fst s); error := None |},
   delete "authUser" (delete "authToken" (snd s))).

(** The effect that follows every change of [user]. *)
Definition persist {U} (stringify : U -> string) (s : state U * storage) : storage :=
  match user (fst s) with
  | Held u => <["authUser" := stringify u]> (snd s)
  | _ => delete "authUser" (snd s)
  end.

(** The state the provider starts with.  [parse] is [JSON.parse]:
    [None] when it throws. *)
Definition start {U} (parse : string -> option (held U)) (store : storage) : state U :=
  {| user := match store !! "authUser" with
             | Some stored =>
                 if Flow.nonempty stored then default Nothing (parse stored) else Nothing
             | None => Nothing
             end;
     token := store !! "authToken";
     loading := false;
     error := None |}.

End Auth.

(* ===================================================================== *)
(** * src/components/VideoPanel.jsx                                       *)
(* ===================================================================== *)

Module Panel.

(** The segment the panel is opened on, with the fields it reads. *)
Record segment := {
  id : JS.val;
  imageUrl : option string;
  narration : option JS.str;
  animation : option JS.str;
  visual : option JS.str;
  artStyle : option JS.str
}.

Record state := {
  loading : bool;
  videos : gmap string string;
  error : option string;
  selectedVideoModel : option string
}.

Definition setLoading (b : bool) (st : state) : state :=
  {| loading := b; videos := videos st; error := error st;
     selectedVideoModel := selectedVideoModel st |}.

Definition setError (e : option string) (st : state) : state :=
  {| loading := loading st; videos := videos st; error := e;
     selectedVideoModel := selectedVideoModel st |}.

Definition setVideos (f : gmap string string -> gmap string string) (st : state) : state :=
  {| loading := loading st; videos := f (videos st); error := error st;
     selectedVideoModel := selectedVideoModel st |}.

(** A text that is there and not empty. *)
Definition present (t : option JS.str) : bool :=
  match t with
  | Some (_ :: _) => true
  | _ => false
  end.

(** [currentSegment.animation || currentSegment.visual] *)
Definition prompt_of (seg : segment) : option JS.str :=
  if present (animation seg) then animation seg else visual seg.

(** The request [handleGenerateVideo] makes: the address of the image
    goes out as the image key, and no project is named. *)
Definition request (seg : segment) (st : state) : Sidebar.call :=
  Sidebar.GenerateVideo
    (Chat.generateVideo_payload
       {| Chat.va_animation_prompt := prompt_of seg;
          Chat.va_art_style := Some (Flow.text_or (artStyle seg) []);
          Chat.va_image_s3_key := imageUrl seg;
          Chat.va_uuid := id seg;
          Chat.va_project_id := JS.Undefined;
          Chat.va_model := selectedVideoModel st |}).

(** [err.message || 'Failed to generate video'], then [finally]. *)
Definition failed (message : string) (st : state) : state :=
  setLoading false
    (setError (Some (Sidebar.message_or message "Failed to generate video")) st).

(** [handleGenerateVideo], run to its end against the answers of the
    generation and of the download. *)
Definition handleGenerateVideo (currentSegment : option segment)
    (gen : outcome Flow.gen_response) (download : outcome string) (st : state)
  : state * list Sidebar.call :=
  match currentSegment with
  | Some seg =>
      if Sidebar.is_set (imageUrl seg) && present (narration seg) then
        let st1 := setError None (setLoading true st) in
        match gen with
        | Rejected message => (failed message st1, [request seg st])
        | Resolved result =>
            if Flow.nonempty (Flow.s3_key result) then
              let calls := [request seg st; Sidebar.DownloadVideo (Flow.s3_key result)] in
              match download with
              | Rejected message => (failed message st1, calls)
              | Resolved videoUrl =>
                  (setLoading false
                     (setVideos (fun prev => <[JS.to_string (id seg) := videoUrl]> prev) st1),
                   calls)
              end
            else (failed "No video URL in response" st1, [request seg st])
        end
      else (setError (Some "Required data missing for video generation") st, [])
  | None => (setError (Some "Required data missing for video generation") st, [])
  end.

(** The test of the effect that starts a generation by itself:
    [segment?.imageUrl && segment?.id && !videos[segment.id]]. *)
Definition starts_by_itself (segment : option segment) (st : state) : bool :=
  match segment with
  | Some seg =>
      Sidebar.is_set (imageUrl seg) && JS.truthy (id seg)
      && negb (Flow.has_at (videos st) (JS.to_string (id seg)))
  | None => false
  end.

End Panel.


(* ===================================================================== *)
(** * Properties of the prompt sanitiser                                  *)
(* ===================================================================== *)

Section Sanitiser.

Import JS Chat.

Lemma printable_space c : printable c = true -> is_space c = true -> c = 32%N.
Proof.
  unfold printable, is_space.
  rewrite !orb_true_iff, !andb_true_iff, !N.leb_le, !N.eqb_eq. lia.
Qed.

Lemma printable_not_newline c : printable c = true -> is_newline c = false.
Proof.
  unfold printable, is_newline.
  rewrite andb_true_iff, !N.leb_le, N.eqb_neq. lia.
Qed.

Lemma Forall_replace_runs_from C s flag :
  Forall (fun c => printable c = true) s ->
  Forall (fun c => printable c = true) (replace_runs_from flag C s).
Proof.
  intros H. revert flag.
  induction H as [|c s Hc _ IH]; intros flag; simpl; [constructor|].
  destruct (C c); [destruct flag|]; auto.
Qed.

Lemma Forall_trim_start (P : N -> Prop) s : Forall P s -> Forall P (trim_start s).
Proof.
  induction 1 as [|c s Hc Hs IH]; simpl; [constructor|].
  destruct (is_space c); auto.
Qed.

Lemma Forall_trim_end (P : N -> Prop) s : Forall P s -> Forall P (trim_end s).
Proof.
  induction 1 as [|c s Hc Hs IH]; simpl; [constructor|].
  destruct (trim_end s); [destruct (is_space c)|]; auto.
Qed.

Lemma Forall_firstn (P : N -> Prop) n s : Forall P s -> Forall P (firstn n s).
Proof.
  intros H. revert n. induction H; intros [|n]; simpl; auto.
Qed.

(** A text the collapsing pass produced after a run does not start
    with whitespace, provided only spaces of the class were dropped. *)
Lemma replace_runs_spaces s :
  no_space_run (replace_runs_from false is_space s)
  /\ no_space_run (replace_runs_from true is_space s)
  /\ starts_clean (replace_runs_from true is_space s).
Proof.
  induction s as [|c s (IHf & IHt & IHc)]; simpl.
  - repeat split; intros ? [=].
  - destruct (is_space c) eqn:Hc.
    + repeat split; auto.
      destruct (replace_runs_from true is_space s) as [|b t] eqn:E; [exact I|].
      split; [|exact IHt]. intros _. apply IHc. reflexivity.
    + assert (Hns : no_space_run (c :: replace_runs_from false is_space s)).
      { destruct (replace_runs_from false is_space s) as [|b t] eqn:E; [exact I|].
        split; [|exact IHf]. congruence. }
      repeat split; auto. intros ? [= <-]. exact Hc.
Qed.

Lemma no_space_run_tail a s : no_space_run (a :: s) -> no_space_run s.
Proof. destruct s; simpl; tauto. Qed.

Lemma no_space_run_trim_start s : no_space_run s -> no_space_run (trim_start s).
Proof.
  induction s as [|c s IH]; intros H; [exact I|].
  cbn [trim_start]. destruct (is_space c); [|exact H].
  apply IH. eapply no_space_run_tail, H.
Qed.

Lemma trim_end_head s c t :
  trim_end s = c :: t -> exists s', s = c :: s'.
Proof.
  destruct s as [|a s]; simpl; [discriminate|].
  destruct (trim_end s); [destruct (is_space a)|]; intros [= <- <-]; eauto.
Qed.

Lemma no_space_run_trim_end s : no_space_run s -> no_space_run (trim_end s).
Proof.
  induction s as [|c s IH]; intros H; [exact I|].
  pose proof (no_space_run_tail _ _ H) as Hs.
  cbn [trim_end]. destruct (trim_end s) as [|b t] eqn:E.
  - destruct (is_space c); exact I.
  - destruct (trim_end_head _ _ _ E) as [s' ->].
    split; [apply H | apply IH, Hs].
Qed.

Lemma no_space_run_firstn n s : no_space_run s -> no_space_run (firstn n s).
Proof.
  revert n. induction s as [|a s IH]; intros [|n] H; simpl; try exact I.
  pose proof (no_space_run_tail _ _ H) as Hs.
  destruct s as [|b s]; [destruct n; exact I|].
  destruct n as [|n]; [exact I|].
  split; [apply H | apply (IH (S n) Hs)].
Qed.

Lemma starts_clean_trim_start s : starts_clean (trim_start s).
Proof.
  induction s as [|c s IH]; simpl; [intros ? [=]|].
  destruct (is_space c) eqn:Hc; [exact IH|].
  intros ? [= <-]. exact Hc.
Qed.

Lemma starts_clean_trim_end s : starts_clean s -> starts_clean (trim_end s).
Proof.
  intros H c Hc. destruct (trim_end s) as [|a t] eqn:E; [discriminate|].
  injection Hc as ->. destruct (trim_end_head _ _ _ E) as [s' ->].
  apply H. reflexivity.
Qed.

Lemma starts_clean_firstn n s : starts_clean s -> starts_clean (firstn n s).
Proof.
  intros H c. destruct n, s; simpl; try discriminate. intros [= <-].
  apply H. reflexivity.
Qed.

Lemma ends_clean_trim_end s : ends_clean (trim_end s).
Proof.
  induction s as [|c s IH]; simpl; [intros ? [=]|].
  destruct (trim_end s) as [|b t] eqn:E.
  - destruct (is_space c) eqn:Hc; intros ? [=]. congruence.
  - intros x Hx. apply IH. exact Hx.
Qed.

Lemma sanitisedPrompt_printable p :
  Forall (fun c => printable c = true) (sanitisedPrompt p).
Proof.
  unfold sanitisedPrompt, trim, replace_runs, strip.
  apply Forall_trim_end, Forall_trim_start.
  do 2 apply Forall_replace_runs_from.
  apply List.Forall_forall. intros c Hc. apply List.filter_In in Hc. tauto.
Qed.

End Sanitiser.

(** C9, as amended.  The prompt [generateImage] sends holds printable
    ASCII only, no newline and no two neighbouring whitespace characters,
    does not start with whitespace, ends with whitespace only if it was
    cut to the maximal length, and is at most 800 characters long, which
    is below the 950 of the backend.  [generateVideo] sends the animation
    prompt as it received it. *)
Theorem generateImage_prompt_sanitised (a : Chat.image_args) (v : Chat.video_args) :
  let sent := Chat.ip_visual_prompt (Chat.generateImage_payload a) in
  Forall (fun c => (32 <= c <= 126)%N) sent
  /\ ~ In 10%N sent
  /\ Chat.no_space_run sent
  /\ Chat.starts_clean sent
  /\ (Chat.ends_clean sent \/ length sent = Chat.MAX_PROMPT_LENGTH)
  /\ length sent <= Chat.MAX_PROMPT_LENGTH
  /\ Chat.MAX_PROMPT_LENGTH < Chat.BACKEND_PROMPT_LIMIT
  /\ Chat.vp_animation_prompt (Chat.generateVideo_payload v)
     = Chat.va_animation_prompt v.
Proof.
  cbn zeta. cbn [Chat.generateImage_payload Chat.ip_visual_prompt].
  set (p := Chat.ia_visual_prompt a).
  assert (Hprint : Forall (fun c => Chat.printable c = true) (Chat.safePrompt p)).
  { apply Forall_firstn, sanitisedPrompt_printable. }
  assert (Hruns : Chat.no_space_run (Chat.sanitisedPrompt p)
                  /\ Chat.starts_clean (Chat.sanitisedPrompt p)).
  { unfold Chat.sanitisedPrompt, JS.trim, JS.replace_runs. split.
    - apply no_space_run_trim_end, no_space_run_trim_start, replace_runs_spaces.
    - apply starts_clean_trim_end, starts_clean_trim_start. }
  destruct Hruns as [Hruns Hstart].
  repeat split.
  - eapply List.Forall_impl; [|exact Hprint].
    intros c Hc. unfold Chat.printable in Hc.
    apply andb_true_iff in Hc as [H1 H2].
    apply N.leb_le in H1. apply N.leb_le in H2. lia.
  - intros Hin. rewrite List.Forall_forall in Hprint.
    specialize (Hprint _ Hin). discriminate Hprint.
  - apply no_space_run_firstn, Hruns.
  - apply starts_clean_firstn, Hstart.
  - unfold Chat.safePrompt, JS.substring0.
    destruct (le_lt_dec (length (Chat.sanitisedPrompt p)) Chat.MAX_PROMPT_LENGTH) as [Hle|Hlt].
    + left. rewrite List.firstn_all2 by exact Hle.
      apply ends_clean_trim_end.
    + right. rewrite List.length_firstn. lia.
  - unfold Chat.safePrompt, JS.substring0. rewrite List.length_firstn. lia.
  - apply Nat.ltb_lt. vm_compute. reflexivity.
Qed.

(** C9, as stated, fails twice: a prompt cut at 800 characters can end in
    a space, and the animation prompt of [generateVideo] keeps its
    newline. *)
Lemma prompt_sanitised_counterexample :
  ~ Chat.ends_clean
      (Chat.ip_visual_prompt
         (Chat.generateImage_payload
            {| Chat.ia_visual_prompt := Some (repeat 97%N 799 ++ [32; 98]%N);
               Chat.ia_art_style := None;
               Chat.ia_uuid := JS.Str "seg-1";
               Chat.ia_project_id := JS.Num 1;
               Chat.ia_model := None |}))
  /\ In 10%N
       (default []
          (Chat.vp_animation_prompt
             (Chat.generateVideo_payload
                {| Chat.va_animation_prompt := Some [97; 10; 98]%N;
                   Chat.va_art_style := None;
                   Chat.va_image_s3_key := None;
                   Chat.va_uuid := JS.Str "seg-1";
                   Chat.va_project_id := JS.Num 1;
                   Chat.va_model := None |}))).
Proof.
  split.
  - intros H. specialize (H 32%N).
    assert (E : JS.is_space 32 = false) by (apply H; vm_compute; reflexivity).
    discriminate E.
  - simpl. auto.
Qed.

(* ===================================================================== *)
(** * Properties of the reconciler                                        *)
(* ===================================================================== *)

Section SegmentKeys.

Import Flow.

Lemma strip_prefix_app p s : strip_prefix p (p +:+ s) = Some s.
Proof.
  induction p as [|a p IH]; simpl; [reflexivity|].
  rewrite Ascii.eqb_refl. exact IH.
Qed.

Lemma span_digits_all n : all_digits n = true -> span_digits n = (n, "").
Proof.
  induction n as [|c n IH]; simpl; [reflexivity|].
  intros H. apply andb_true_iff in H as [Hc Hn].
  rewrite Hc, (IH Hn). reflexivity.
Qed.

Lemma span_digits_dash n t :
  all_digits n = true -> span_digits (n +:+ String "-" t) = (n, String "-" t).
Proof.
  induction n as [|c n IH]; simpl; [reflexivity|].
  intros H. apply andb_true_iff in H as [Hc Hn].
  rewrite Hc, (IH Hn). reflexivity.
Qed.

Lemma strip_prefix_digits n : is_number n = true -> strip_prefix "seg-" n = None.
Proof.
  destruct n as [|c n]; [discriminate|].
  unfold is_number. intros H. apply andb_true_iff in H as [_ H].
  cbn [all_digits] in H. apply andb_true_iff in H as [Hc _].
  change (strip_prefix "seg-" (String c n))
    with (if Ascii.eqb "s" c then strip_prefix "eg-" n else None).
  destruct (Ascii.eqb_spec "s" c) as [<-|]; [discriminate Hc | reflexivity].
Qed.

Lemma image_key_bare n : is_number n = true -> image_segment_key n = n.
Proof.
  intros H. unfold image_segment_key. rewrite strip_prefix_digits by exact H.
  reflexivity.
Qed.

Lemma image_key_seg n : is_number n = true -> image_segment_key ("seg-" +:+ n) = n.
Proof.
  intros H. unfold image_segment_key. rewrite strip_prefix_app.
  destruct n as [|c n]; [discriminate|].
  rewrite span_digits_all by exact H. reflexivity.
Qed.

Lemma image_key_seg_stamp n t :
  is_number n = true -> is_number t = true ->
  image_segment_key ("seg-" +:+ n +:+ "-" +:+ t) = n.
Proof.
  intros Hn Ht. unfold image_segment_key. rewrite strip_prefix_app.
  destruct n as [|c n]; [discriminate|].
  change (String c n +:+ "-" +:+ t) with (String c n +:+ String "-" t).
  rewrite span_digits_dash by exact Hn.
  destruct t as [|d t]; [discriminate|].
  rewrite span_digits_all by exact Ht. reflexivity.
Qed.

Lemma video_key_bare n : is_number n = true -> video_segment_key n = n.
Proof.
  intros H. unfold video_segment_key. rewrite strip_prefix_digits by exact H.
  reflexivity.
Qed.

Lemma video_key_seg s : video_segment_key ("seg-" +:+ s) = s.
Proof. unfold video_segment_key. rewrite strip_prefix_app. reflexivity. Qed.

End SegmentKeys.

(** C2, as amended.  For a segment number [n] and a timestamp [t], both
    non-empty runs of digits: the image path gives the key [n] for the uuid
    [n], [seg-n] and [seg-n-t]; the video path gives [n] for [n] and
    [seg-n] and gives [n-t] for [seg-n-t]; the segment path takes the
    [segmentId] field when it is truthy and the [id] field otherwise, as
    they are. *)
Theorem segment_key_normalisation (n t : string) (seg : Flow.raw_segment) :
  Flow.is_number n = true ->
  Flow.is_number t = true ->
  Flow.image_segment_key n = n
  /\ Flow.image_segment_key ("seg-" +:+ n) = n
  /\ Flow.image_segment_key ("seg-" +:+ n +:+ "-" +:+ t) = n
  /\ Flow.video_segment_key n = n
  /\ Flow.video_segment_key ("seg-" +:+ n) = n
  /\ Flow.video_segment_key ("seg-" +:+ n +:+ "-" +:+ t) = n +:+ "-" +:+ t
  /\ Flow.seg_id (Flow.process_segment seg)
     = (if JS.truthy (Flow.rs_segmentId seg) then Flow.rs_segmentId seg
        else Flow.rs_id seg).
Proof.
  intros Hn Ht.
  split; [apply image_key_bare, Hn|].
  split; [apply image_key_seg, Hn|].
  split; [apply image_key_seg_stamp; assumption|].
  split; [apply video_key_bare, Hn|].
  split; [apply video_key_seg|].
  split; [apply (video_key_seg (n +:+ "-" +:+ t))|].
  reflexivity.
Qed.

Lemma segment_key_normalisation_witness :
  Flow.image_segment_key "seg-2-1712345678901" = "2"
  /\ Flow.video_segment_key "seg-2-1712345678901" = "2-1712345678901".
Proof.
  pose proof (segment_key_normalisation "2" "1712345678901"
    {| Flow.rs_segmentId := JS.Undefined; Flow.rs_id := JS.Num 2;
       Flow.rs_visual := None; Flow.rs_narration := None;
       Flow.rs_animation := None |} eq_refl eq_refl) as H.
  split; apply H.
Defined.

(** C2, as stated, fails on the video path and on the segment path: a
    video whose uuid carries a timestamp keeps the timestamp in its key,
    and a segment whose id is written [seg-2] keeps that id. *)
Lemma segment_key_counterexample :
  Flow.video_segment_key "seg-2-1712345678901" <> "2"
  /\ Flow.seg_id (Flow.process_segment
       {| Flow.rs_segmentId := JS.Undefined; Flow.rs_id := JS.Str "seg-2";
          Flow.rs_visual := None; Flow.rs_narration := None;
          Flow.rs_animation := None |}) <> JS.Str "2"
  /\ Flow.image_segment_key "seg-2-1712345678901" = "2".
Proof. repeat split; discriminate. Qed.

Section PrimaryFirst.

Import Flow.

Lemma sort_insert_primary x l :
  img_isPrimary x = true -> sort_insert compare_primary x l = x :: l.
Proof.
  intros Hx. destruct l as [|y l]; [reflexivity|].
  cbn [sort_insert]. unfold compare_primary. rewrite Hx.
  destruct (img_isPrimary y); reflexivity.
Qed.

Lemma sort_insert_secondary x P Q :
  img_isPrimary x = false ->
  Forall (fun i => img_isPrimary i = true) P ->
  Forall (fun i => img_isPrimary i = false) Q ->
  sort_insert compare_primary x (P ++ Q) = P ++ x :: Q.
Proof.
  intros Hx HP HQ. induction HP as [|y P Hy _ IH].
  - destruct HQ as [|y Q Hy _]; [reflexivity|].
    cbn. unfold compare_primary. rewrite Hx, Hy. reflexivity.
  - cbn. unfold compare_primary at 1. rewrite Hx, Hy. cbn.
    f_equal. exact IH.
Qed.

Lemma Forall_filter_true {A} (f : A -> bool) l :
  Forall (fun i => f i = true) (List.filter f l).
Proof.
  apply List.Forall_forall. intros i Hi. apply List.filter_In in Hi. tauto.
Qed.

(** The sort puts the flagged images first and keeps the arrival order
    inside both groups. *)
Lemma array_sort_primary l :
  array_sort compare_primary l = List.filter img_isPrimary l ++ List.filter secondary l.
Proof.
  induction l as [|x l IH]; [reflexivity|].
  cbn [array_sort List.filter]. rewrite IH.
  replace (secondary x) with (negb (img_isPrimary x)) by reflexivity.
  destruct (img_isPrimary x) eqn:Hx; cbn [negb].
  - apply sort_insert_primary, Hx.
  - apply sort_insert_secondary; [exact Hx | apply Forall_filter_true |].
    eapply List.Forall_impl; [|apply (Forall_filter_true secondary)].
    intros i Hi. unfold secondary in Hi. destruct (img_isPrimary i); [discriminate|reflexivity].
Qed.

Lemma filter_filter_same {A} (f : A -> bool) l :
  List.filter f (List.filter f l) = List.filter f l.
Proof.
  induction l as [|x l IH]; [reflexivity|]. cbn.
  destruct (f x) eqn:E; cbn; rewrite ?E, IH; reflexivity.
Qed.

Lemma filter_filter_none {A} (f g : A -> bool) l :
  (forall x, g x = true -> f x = false) ->
  List.filter f (List.filter g l) = [].
Proof.
  intros H. induction l as [|x l IH]; [reflexivity|]. cbn.
  destruct (g x) eqn:E; cbn; [rewrite (H _ E)|]; exact IH.
Qed.

Lemma filter_split_perm {A} (f : A -> bool) l :
  Permutation (List.filter f l ++ List.filter (fun x => negb (f x)) l) l.
Proof.
  induction l as [|x l IH]; [constructor|]. cbn.
  destruct (f x); cbn.
  - constructor. exact IH.
  - etransitivity; [symmetry; apply Permutation_middle|].
    constructor. exact IH.
Qed.

Lemma arrival_cons k img imgs :
  arrival k (img :: imgs)
  = if image_usable img && String.eqb (image_segment_key (ri_uuid img)) k
    then image_of img :: arrival k imgs
    else arrival k imgs.
Proof.
  unfold arrival. cbn [List.filter].
  destruct (image_usable img && _); reflexivity.
Qed.

(** What the loop over the images leaves under a key. *)
Lemma push_images_lookup k imgs acc :
  fold_left push_image imgs acc !! k
  = match arrival k imgs with
    | [] => acc !! k
    | l => Some (default [] (acc !! k) ++ l)
    end.
Proof.
  revert acc. induction imgs as [|img imgs IH]; intros acc; [reflexivity|].
  cbn [fold_left]. rewrite IH, arrival_cons. unfold push_image.
  destruct (image_usable img) eqn:Hu; cbn [andb]; [|reflexivity].
  destruct (String.eqb_spec (image_segment_key (ri_uuid img)) k) as [->|Hne].
  - rewrite lookup_insert_eq. cbn [default].
    destruct (arrival k imgs) as [|i l].
    + reflexivity.
    + unfold id. rewrite <- app_assoc. reflexivity.
  - rewrite lookup_insert_ne by exact Hne. reflexivity.
Qed.

Lemma allImagesBySegment_lookup k imgs :
  arrival k imgs <> [] -> allImagesBySegment imgs !! k = Some (arrival k imgs).
Proof.
  intros H. unfold allImagesBySegment. rewrite push_images_lookup.
  destruct (arrival k imgs); [contradiction|]. rewrite lookup_empty. reflexivity.
Qed.

End PrimaryFirst.

(** C3.  For a segment whose list of usable images is not empty and holds
    at most one flagged image: the sorted list is a rearrangement of the
    arrival list in which the flagged images and the others each keep
    their arrival order; its first image is the one surfaced in [images]
    and [imageDetails]; that image is the flagged one if there is one; and
    the flag is the boolean of the server when there is one, and otherwise
    says that the uuid holds no dash. *)
Theorem primary_first_sort (imgs : list Flow.raw_image) (k : string) :
  Flow.arrival k imgs <> [] ->
  length (List.filter Flow.img_isPrimary (Flow.arrival k imgs)) <= 1 ->
  exists primaryImage rest,
    Flow.imageDetails_of imgs !! k
    = Some {| Flow.idt_id := Flow.img_id primaryImage;
              Flow.idt_visualPrompt := Flow.img_visualPrompt primaryImage;
              Flow.idt_artStyle := Flow.img_artStyle primaryImage;
              Flow.idt_s3Key := Flow.img_s3Key primaryImage;
              Flow.idt_allImages := primaryImage :: rest |}
    /\ Flow.images_of imgs !! k = Some (Flow.img_url primaryImage)
    /\ Permutation (primaryImage :: rest) (Flow.arrival k imgs)
    /\ List.filter Flow.img_isPrimary (primaryImage :: rest)
       = List.filter Flow.img_isPrimary (Flow.arrival k imgs)
    /\ List.filter Flow.secondary (primaryImage :: rest)
       = List.filter Flow.secondary (Flow.arrival k imgs)
    /\ (forall flagged, In flagged (Flow.arrival k imgs) ->
          Flow.img_isPrimary flagged = true -> primaryImage = flagged)
    /\ (forall raw, Flow.img_isPrimary (Flow.image_of raw)
                    = match Flow.ri_isPrimary raw with
                      | Some b => b
                      | None => negb (Flow.includes_dash (Flow.ri_uuid raw))
                      end).
Proof.
  intros Hne Hone.
  pose proof (array_sort_primary (Flow.arrival k imgs)) as Hsort.
  pose proof (filter_split_perm Flow.img_isPrimary (Flow.arrival k imgs)) as Hperm.
  fold Flow.secondary in Hperm. rewrite <- Hsort in Hperm.
  destruct (Flow.array_sort Flow.compare_primary (Flow.arrival k imgs))
    as [|primaryImage rest] eqn:Es.
  { apply Permutation_nil in Hperm. contradiction. }
  exists primaryImage, rest.
  assert (Hentry : Flow.primary_entry (Flow.arrival k imgs)
                   = Some (Flow.img_url primaryImage,
                           {| Flow.idt_id := Flow.img_id primaryImage;
                              Flow.idt_visualPrompt := Flow.img_visualPrompt primaryImage;
                              Flow.idt_artStyle := Flow.img_artStyle primaryImage;
                              Flow.idt_s3Key := Flow.img_s3Key primaryImage;
                              Flow.idt_allImages := primaryImage :: rest |})).
  { unfold Flow.primary_entry. rewrite Es. reflexivity. }
  split; [|split; [|split; [exact Hperm|split; [|split; [|split]]]]].
  - unfold Flow.imageDetails_of. rewrite lookup_omap.
    rewrite allImagesBySegment_lookup by exact Hne. cbn. rewrite Hentry. reflexivity.
  - unfold Flow.images_of. rewrite lookup_omap.
    rewrite allImagesBySegment_lookup by exact Hne. cbn. rewrite Hentry. reflexivity.
  - rewrite Hsort, List.filter_app, filter_filter_same.
    rewrite (filter_filter_none Flow.img_isPrimary Flow.secondary).
    + apply app_nil_r.
    + intros x Hx. unfold Flow.secondary in Hx. destruct (Flow.img_isPrimary x); [discriminate|reflexivity].
  - rewrite Hsort, List.filter_app, filter_filter_same.
    rewrite (filter_filter_none Flow.secondary Flow.img_isPrimary).
    + reflexivity.
    + intros x Hx. unfold Flow.secondary. rewrite Hx. reflexivity.
  - intros flagged Hin Hflag.
    assert (Hf : In flagged (List.filter Flow.img_isPrimary (Flow.arrival k imgs))).
    { apply List.filter_In. split; assumption. }
    destruct (List.filter Flow.img_isPrimary (Flow.arrival k imgs)) as [|x [|y l]].
    + destruct Hf.
    + destruct Hf as [->|[]]. cbn in Hsort. congruence.
    + cbn in Hone. lia.
  - intros raw. reflexivity.
Qed.

Lemma primary_first_sort_witness :
  let imgs :=
    [ {| Flow.ri_id := JS.Num 11; Flow.ri_success := true;
         Flow.ri_s3Key := "images/b.png"; Flow.ri_uuid := "seg-1-1712345678901";
         Flow.ri_visualPrompt := None; Flow.ri_artStyle := None;
         Flow.ri_isPrimary := None |};
      {| Flow.ri_id := JS.Num 12; Flow.ri_success := true;
         Flow.ri_s3Key := "images/c.png"; Flow.ri_uuid := "seg-1-1712345678999";
         Flow.ri_visualPrompt := None; Flow.ri_artStyle := None;
         Flow.ri_isPrimary := Some false |};
      {| Flow.ri_id := JS.Num 10; Flow.ri_success := true;
         Flow.ri_s3Key := "images/a.png"; Flow.ri_uuid := "1";
         Flow.ri_visualPrompt := None; Flow.ri_artStyle := None;
         Flow.ri_isPrimary := None |} ] in
  exists primaryImage rest,
    Flow.images_of imgs !! "1" = Some (Flow.img_url primaryImage)
    /\ Flow.img_id <$> (primaryImage :: rest) = [JS.Num 10; JS.Num 11; JS.Num 12].
Proof.
  intros imgs.
  destruct (primary_first_sort imgs "1") as (p & rest & Hd & Hi & _).
  - discriminate.
  - vm_compute. lia.
  - exists p, rest. split; [exact Hi|].
    assert (Hall := f_equal (fun o => Flow.idt_allImages <$> o) Hd).
    vm_compute in Hall. injection Hall as <- <-. reflexivity.
Defined.

Section PreviewVideos.

Import Flow.

(** The loop over the previews writes every preview over what the map
    holds under its key and leaves the other keys alone. *)
Lemma add_temporary_lookup (temporaryVideos videos : gmap string string) k :
  add_temporary temporaryVideos videos !! k
  = match temporaryVideos !! k with
    | Some preview => Some preview
    | None => videos !! k
    end.
Proof.
  unfold add_temporary.
  apply (map_fold_weak_ind
           (fun r (m : gmap string string) =>
              r !! k = match m !! k with Some p => Some p | None => videos !! k end)).
  - rewrite lookup_empty. reflexivity.
  - intros i x m r _ IH. destruct (decide (i = k)) as [->|Hne].
    + rewrite !lookup_insert_eq. reflexivity.
    + rewrite !lookup_insert_ne by exact Hne. exact IH.
Qed.

End PreviewVideos.

(** C1, as amended.  Under every key the merged video map holds the
    preview when there is a preview for that key, and the video fetched
    from the server otherwise: a preview replaces the fetched video of
    the same key, and the keys without a preview keep the fetched one. *)
Theorem preview_video_merge (allProjectData : Flow.project_data)
    (temporaryVideos : gmap string string) (k : string) :
  Flow.fd_videos (Flow.flowData allProjectData temporaryVideos) !! k
  = match temporaryVideos !! k with
    | Some preview => Some preview
    | None => fst (Flow.canonical_videos (Flow.pd_videos allProjectData)) !! k
    end.
Proof. apply add_temporary_lookup. Qed.

(** C1, as stated, fails: the server holds a video for segment 2 and
    image 7, a preview exists for the same pair, and the merged map shows
    the preview. *)
Lemma preview_video_counterexample :
  let fetched :=
    {| Flow.pd_segments := [];
       Flow.pd_images := [];
       Flow.pd_videos :=
         [ {| Flow.rv_id := JS.Num 9; Flow.rv_success := true;
              Flow.rv_uuid := "seg-2-7";
              Flow.rv_videoFiles := [ {| Flow.vf_s3Key := "videos/fetched.mp4" |} ];
              Flow.rv_artStyle := None; Flow.rv_imageS3Key := None |} ] |} in
  let key := Flow.videoKey (JS.Num 2) (JS.Num 7) in
  let previews : gmap string string :=
    {[ key := Flow.CDN +:+ "videos/preview.mp4" ]} in
  fst (Flow.canonical_videos (Flow.pd_videos fetched)) !! key
  = Some (Flow.CDN +:+ "videos/fetched.mp4")
  /\ Flow.fd_videos (Flow.flowData fetched previews) !! key
     = Some (Flow.CDN +:+ "videos/preview.mp4").
Proof.
  cbn zeta. split.
  - vm_compute. reflexivity.
  - cbn [Flow.flowData Flow.fd_videos]. rewrite add_temporary_lookup.
    rewrite lookup_singleton_eq. reflexivity.
Qed.

(* ===================================================================== *)
(** * Properties of the graph projection                                  *)
(* ===================================================================== *)

Section Graph.

Import Flow.

Lemma anchored_mono nodes nodes' e :
  (forall n, In n nodes -> In n nodes') -> anchored nodes e -> anchored nodes' e.
Proof.
  intros Hsub [(n1 & H1 & E1) (n2 & H2 & E2)]. split; eauto.
Qed.

Lemma In_concat_fmap {A B} (f : A -> list B) (l : list A) (x : B) :
  In x (concat (f <$> l)) <-> exists y, y ∈ l /\ In x (f y).
Proof.
  rewrite in_concat. split.
  - intros (ys & Hys & Hx). apply list_elem_of_In, list_elem_of_fmap in Hys.
    destruct Hys as (y & -> & Hy). eauto.
  - intros (y & Hy & Hx). exists (f y). split; [|exact Hx].
    apply list_elem_of_In, list_elem_of_fmap. eauto.
Qed.

(** The shape of a row: the image node, the node to its right, the edge
    that reaches the image node and the edge that leaves it. *)
Lemma image_row_shape fd segment y imageDetail imageIndex image :
  let sid := JS.to_string (seg_id segment) in
  let iid := JS.to_string (img_id image) in
  exists image_n right_n e_in e_out,
    image_row fd segment y imageDetail imageIndex image
    = ([image_n; right_n], [e_in; e_out])
    /\ node_kind image_n = imageNode
    /\ node_id image_n = image_node_id sid iid
    /\ edge_source e_in = add_image_node_id sid
    /\ edge_target e_in = node_id image_n
    /\ edge_source e_out = node_id image_n
    /\ edge_target e_out = node_id right_n
    /\ ((node_kind right_n = videoNode
         /\ node_id right_n = video_node_id sid iid
         /\ imageVideoUrl fd sid iid <> None)
        \/ (node_kind right_n = addVideoNode
            /\ node_id right_n = add_video_node_id sid iid
            /\ imageVideoUrl fd sid iid = None)).
Proof.
  cbn zeta. unfold image_row.
  destruct (imageVideoUrl fd _ _) as [url|] eqn:E;
    do 4 eexists; (split; [reflexivity|]); cbn;
    repeat (split; [reflexivity|]); [left | right]; repeat split; congruence.
Qed.

Lemma add_image_is_not_image sid sid' iid :
  add_image_node_id sid <> image_node_id sid' iid.
Proof. unfold add_image_node_id, image_node_id. cbn. discriminate. Qed.

(** Inside the block of a segment every edge is anchored. *)
Lemma segment_block_anchored fd segIndex segment e :
  In e (snd (segment_block fd segIndex segment)) ->
  anchored (fst (segment_block fd segIndex segment)) e.
Proof.
  unfold segment_block. cbn [fst snd].
  set (sid := JS.to_string (seg_id segment)).
  set (y := segment_y segIndex).
  unfold segment_rows. fold sid.
  intros [<- | Hin].
  - split; eexists; split;
      [left; reflexivity | reflexivity | right; left; reflexivity | reflexivity].
  - apply In_concat_fmap in Hin as (row & Hrow & He).
    destruct (images_shown fd sid) as [imageDetail|]; [|inversion Hrow].
    apply elem_of_lookup_imap in Hrow as (j & image & -> & Hj).
    destruct (image_row_shape fd segment y imageDetail j image)
      as (n1 & n2 & e1 & e2 & Erow & _ & Hid & Hs1 & Ht1 & Hs2 & Ht2 & _).
    assert (Hn : forall n, In n [n1; n2] ->
              In n (concat (fst <$> imap (image_row fd segment y imageDetail)
                                         (idt_allImages imageDetail)))).
    { intros n Hn. apply In_concat_fmap.
      exists (image_row fd segment y imageDetail j image). split.
      - apply elem_of_lookup_imap. eauto.
      - rewrite Erow. exact Hn. }
    rewrite Erow in He. cbn [snd] in He.
    destruct He as [<- | [<- | []]]; split.
    + eexists. split; [right; left; reflexivity|]. symmetry. exact Hs1.
    + exists n1. split; [|symmetry; exact Ht1].
      right; right. apply Hn. left. reflexivity.
    + exists n1. split; [|symmetry; exact Hs2].
      right; right. apply Hn. left. reflexivity.
    + exists n2. split; [|symmetry; exact Ht2].
      right; right. apply Hn. right; left. reflexivity.
Qed.

End Graph.

(** C10.  In the node list and the edge list of [createFlowElements],
    both ends of every edge are nodes of the node list; and every image
    row consists of the image node and of one node to its right, which
    is a video node when a video is found for the image and an add-video
    node when none is, with one edge leaving the image node, towards
    that node. *)
Theorem graph_well_formed (fd : Flow.flow_data) :
  let nodes := fst (Flow.createFlowElements fd) in
  let edges := snd (Flow.createFlowElements fd) in
  (forall e, In e edges -> Flow.anchored nodes e)
  /\ (forall segIndex segment imageDetail imageIndex image,
        Flow.fd_segments fd !! segIndex = Some segment ->
        Flow.images_shown fd (JS.to_string (Flow.seg_id segment)) = Some imageDetail ->
        Flow.idt_allImages imageDetail !! imageIndex = Some image ->
        exists image_n right_n e_in e_out,
          Flow.image_row fd segment (Flow.segment_y segIndex) imageDetail
                         imageIndex image
          = ([image_n; right_n], [e_in; e_out])
          /\ In image_n nodes /\ In right_n nodes
          /\ In e_in edges /\ In e_out edges
          /\ Flow.node_kind image_n = Flow.imageNode
          /\ Flow.edge_source e_in <> Flow.node_id image_n
          /\ Flow.edge_source e_out = Flow.node_id image_n
          /\ Flow.edge_target e_out = Flow.node_id right_n
          /\ (Flow.node_kind right_n = Flow.videoNode
              \/ Flow.node_kind right_n = Flow.addVideoNode)
          /\ (Flow.node_kind right_n = Flow.videoNode
              <-> Flow.imageVideoUrl fd (JS.to_string (Flow.seg_id segment))
                    (JS.to_string (Flow.img_id image)) <> None)).
Proof.
  cbn zeta. unfold Flow.createFlowElements. cbn [fst snd]. split.
  - intros e He. apply In_concat_fmap in He as (block & Hblock & He).
    apply elem_of_lookup_imap in Hblock as (i & segment & -> & Hi).
    eapply anchored_mono; [|apply segment_block_anchored, He].
    intros n Hn. apply In_concat_fmap. eexists. split; [|exact Hn].
    apply elem_of_lookup_imap. eauto.
  - intros segIndex segment imageDetail imageIndex image Hseg Hshown Himg.
    destruct (image_row_shape fd segment (Flow.segment_y segIndex) imageDetail
                imageIndex image)
      as (n1 & n2 & e1 & e2 & Erow & Hk & Hid & Hs1 & Ht1 & Hs2 & Ht2 & Hright).
    exists n1, n2, e1, e2.
    assert (Hblock : Flow.segment_block fd segIndex segment
                     ∈ imap (Flow.segment_block fd) (Flow.fd_segments fd)).
    { apply elem_of_lookup_imap. eauto. }
    assert (Hrow : Flow.image_row fd segment (Flow.segment_y segIndex) imageDetail
                     imageIndex image
                   ∈ Flow.segment_rows fd segment (Flow.segment_y segIndex)).
    { unfold Flow.segment_rows. rewrite Hshown. apply elem_of_lookup_imap. eauto. }
    assert (Hnodes : forall n, In n [n1; n2] ->
              In n (concat (fst <$> imap (Flow.segment_block fd) (Flow.fd_segments fd)))).
    { intros n Hn. apply In_concat_fmap. eexists. split; [exact Hblock|].
      unfold Flow.segment_block. cbn [fst]. right; right.
      apply In_concat_fmap. eexists. split; [exact Hrow|].
      rewrite Erow. exact Hn. }
    assert (Hedges : forall e, In e [e1; e2] ->
              In e (concat (snd <$> imap (Flow.segment_block fd) (Flow.fd_segments fd)))).
    { intros e He. apply In_concat_fmap. eexists. split; [exact Hblock|].
      unfold Flow.segment_block. cbn [snd]. right.
      apply In_concat_fmap. eexists. split; [exact Hrow|].
      rewrite Erow. exact He. }
    split; [exact Erow|].
    split; [apply Hnodes; left; reflexivity|].
    split; [apply Hnodes; right; left; reflexivity|].
    split; [apply Hedges; left; reflexivity|].
    split; [apply Hedges; right; left; reflexivity|].
    split; [exact Hk|].
    split; [rewrite Hs1, Hid; apply add_image_is_not_image|].
    split; [exact Hs2|].
    split; [exact Ht2|].
    destruct Hright as [(Hv & _ & Hurl) | (Ha & _ & Hurl)].
    + split; [left; exact Hv|]. split; auto.
    + split; [right; exact Ha|]. rewrite Ha, Hurl. split; [discriminate | congruence].
Qed.

Lemma graph_well_formed_witness :
  let fd :=
    Flow.flowData
      {| Flow.pd_segments :=
           [ {| Flow.rs_segmentId := JS.Undefined; Flow.rs_id := JS.Num 1;
                Flow.rs_visual := Some (JS.lit "a dog on a beach");
                Flow.rs_narration := None; Flow.rs_animation := None |} ];
         Flow.pd_images :=
           [ {| Flow.ri_id := JS.Num 10; Flow.ri_success := true;
                Flow.ri_s3Key := "images/a.png"; Flow.ri_uuid := "seg-1";
                Flow.ri_visualPrompt := None; Flow.ri_artStyle := None;
                Flow.ri_isPrimary := None |};
             {| Flow.ri_id := JS.Num 11; Flow.ri_success := true;
                Flow.ri_s3Key := "images/b.png"; Flow.ri_uuid := "seg-1-1712345678901";
                Flow.ri_visualPrompt := None; Flow.ri_artStyle := None;
                Flow.ri_isPrimary := None |} ];
         Flow.pd_videos := [] |}
      {[ Flow.videoKey (JS.Num 1) (JS.Num 11) := Flow.CDN +:+ "videos/preview.mp4" ]} in
  exists image_n right_n e_in e_out,
    In image_n (fst (Flow.createFlowElements fd))
    /\ In right_n (fst (Flow.createFlowElements fd))
    /\ In e_in (snd (Flow.createFlowElements fd))
    /\ In e_out (snd (Flow.createFlowElements fd))
    /\ Flow.edge_source e_out = Flow.node_id image_n
    /\ Flow.edge_target e_out = Flow.node_id right_n
    /\ Flow.node_id right_n = "video-1-11".
Proof.
  intros fd.
  destruct (graph_well_formed fd) as [_ Hrows].
  destruct (Hrows 0 (Flow.process_segment
                       {| Flow.rs_segmentId := JS.Undefined; Flow.rs_id := JS.Num 1;
                          Flow.rs_visual := Some (JS.lit "a dog on a beach");
                          Flow.rs_narration := None; Flow.rs_animation := None |})
              (default {| Flow.idt_id := JS.Undefined; Flow.idt_visualPrompt := None;
                          Flow.idt_artStyle := None; Flow.idt_s3Key := "";
                          Flow.idt_allImages := [] |}
                 (Flow.fd_imageDetails fd !! "1"))
              1
              {| Flow.img_id := JS.Num 11; Flow.img_url := Flow.CDN +:+ "images/b.png";
                 Flow.img_visualPrompt := None; Flow.img_artStyle := None;
                 Flow.img_s3Key := "images/b.png";
                 Flow.img_uuid := "seg-1-1712345678901";
                 Flow.img_isPrimary := false |})
    as (n1 & n2 & e1 & e2 & Erow & H1 & H2 & H3 & H4 & _ & _ & Hs & Ht & _).
  - reflexivity.
  - vm_compute. reflexivity.
  - vm_compute. reflexivity.
  - exists n1, n2, e1, e2. repeat (split; [assumption|]).
    vm_compute in Erow. injection Erow as <- <- <- <-. reflexivity.
Defined.

(* ===================================================================== *)
(** * Properties of the fetch and of the per-entity handlers              *)
(* ===================================================================== *)

Section Refresh.

Import Flow.

Lemma refresh_rejected ctx f st :
  isAuthenticated ctx = true ->
  JS.truthy (storedProjectId ctx) = true ->
  (exists m, f_segmentations f = Rejected m)
  \/ (exists m, f_images f = Rejected m)
  \/ (exists m, f_videos f = Rejected m) ->
  refreshProjectData ctx f st
  = setLoading false (setError (Some "Failed to fetch project data") (setLoading true st)).
Proof.
  intros Ha Hp Hrej. unfold refreshProjectData. rewrite Ha, Hp. cbn [negb].
  destruct Hrej as [[m E] | [[m E] | [m E]]]; rewrite E;
    destruct (f_segmentations f); try reflexivity;
    destruct (f_images f); reflexivity.
Qed.

Lemma refresh_resolved ctx f st s i v :
  isAuthenticated ctx = true ->
  JS.truthy (storedProjectId ctx) = true ->
  f_segmentations f = Resolved s -> f_images f = Resolved i -> f_videos f = Resolved v ->
  refreshProjectData ctx f st
  = setLoading false
      (setAllProjectData
         {| pd_segments := first_segments s;
            pd_images := data_or_empty i;
            pd_videos := data_or_empty v |}
         (setLoading true st)).
Proof.
  intros Ha Hp Es Ei Ev. unfold refreshProjectData.
  rewrite Ha, Hp, Es, Ei, Ev. reflexivity.
Qed.

End Refresh.

(** C6, as amended.  With a session and a stored project: if one of the
    three requests is rejected, the installed view is left as it was and
    the one error "Failed to fetch project data" is reported; if the three
    requests are answered, a view is installed whatever the [success]
    flags say: its segments are those of the first segmentation of an
    answer with [success] true and are none otherwise, and its images
    and videos are the [data] of the two answers. *)
Theorem refresh_all_or_nothing (ctx : Flow.context) (f : Flow.fetches) (st : Flow.state) :
  Flow.isAuthenticated ctx = true ->
  JS.truthy (Flow.storedProjectId ctx) = true ->
  let st' := Flow.refreshProjectData ctx f st in
  ((exists m, Flow.f_segmentations f = Rejected m)
   \/ (exists m, Flow.f_images f = Rejected m)
   \/ (exists m, Flow.f_videos f = Rejected m) ->
   Flow.allProjectData st' = Flow.allProjectData st
   /\ Flow.projectData st' = Flow.projectData st
   /\ Flow.error st' = Some "Failed to fetch project data")
  /\ (forall s i v,
        Flow.f_segmentations f = Resolved s ->
        Flow.f_images f = Resolved i ->
        Flow.f_videos f = Resolved v ->
        Flow.allProjectData st'
        = {| Flow.pd_segments := Flow.first_segments s;
             Flow.pd_images := Flow.data_or_empty i;
             Flow.pd_videos := Flow.data_or_empty v |}
        /\ Flow.error st' = Flow.error st
        /\ (forall r, s = Some r -> Flow.resp_success r = false ->
              Flow.pd_segments (Flow.allProjectData st') = [])
        /\ (forall r, i = Some r ->
              Flow.pd_images (Flow.allProjectData st') = default [] (Flow.resp_data r))
        /\ (forall r, v = Some r ->
              Flow.pd_videos (Flow.allProjectData st') = default [] (Flow.resp_data r))).
Proof.
  intros Ha Hp st'. subst st'. split.
  - intros Hrej. rewrite (refresh_rejected ctx f st Ha Hp Hrej). repeat split.
  - intros s i v Es Ei Ev. rewrite (refresh_resolved ctx f st s i v Ha Hp Es Ei Ev).
    cbn. split; [reflexivity|]. split; [reflexivity|].
    split; [|split]; intros r -> ; try reflexivity.
    intros Hr. destruct r as [[] d]; [discriminate|reflexivity].
Qed.

Lemma refresh_all_or_nothing_witness :
  let ctx := {| Flow.isAuthenticated := true; Flow.storedProjectId := JS.Num 7;
                Flow.selectedImageModel := Some "recraft-v3";
                Flow.selectedVideoModel := Some "kling-v2.1-master";
                Flow.now := 1712345678901 |} in
  let f := {| Flow.f_segmentations :=
                Resolved (Some {| Flow.resp_success := true; Flow.resp_data := Some [] |});
              Flow.f_images := Rejected "Network Error";
              Flow.f_videos :=
                Resolved (Some {| Flow.resp_success := true; Flow.resp_data := Some [] |}) |} in
  Flow.allProjectData (Flow.refreshProjectData ctx f Flow.initial)
  = Flow.allProjectData Flow.initial
  /\ Flow.error (Flow.refreshProjectData ctx f Flow.initial)
     = Some "Failed to fetch project data".
Proof.
  intros ctx f.
  destruct (refresh_all_or_nothing ctx f Flow.initial eq_refl eq_refl) as [H _].
  destruct H as (H1 & _ & H3).
  - right; left. exists "Network Error". reflexivity.
  - split; assumption.
Defined.

(** C6, as stated, fails for an answer with [success] false: the images
    request answers [{ success: false, data: [img] }], nothing is
    reported, and a view with that image is installed. *)
Lemma refresh_counterexample :
  let ctx := {| Flow.isAuthenticated := true; Flow.storedProjectId := JS.Num 7;
                Flow.selectedImageModel := Some "recraft-v3";
                Flow.selectedVideoModel := Some "kling-v2.1-master";
                Flow.now := 1712345678901 |} in
  let img := {| Flow.ri_id := JS.Num 10; Flow.ri_success := true;
                Flow.ri_s3Key := "images/a.png"; Flow.ri_uuid := "seg-1";
                Flow.ri_visualPrompt := None; Flow.ri_artStyle := None;
                Flow.ri_isPrimary := None |} in
  let f := {| Flow.f_segmentations :=
                Resolved (Some {| Flow.resp_success := false; Flow.resp_data := None |});
              Flow.f_images :=
                Resolved (Some {| Flow.resp_success := false; Flow.resp_data := Some [img] |});
              Flow.f_videos :=
                Resolved (Some {| Flow.resp_success := true; Flow.resp_data := Some [] |}) |} in
  let st' := Flow.refreshProjectData ctx f Flow.initial in
  Flow.error st' = None
  /\ Flow.pd_images (Flow.allProjectData st') = [img]
  /\ Flow.allProjectData st' <> Flow.allProjectData Flow.initial.
Proof. cbn. repeat split. discriminate. Qed.

Section Handlers.

Import Flow.

Variable ctx : context.
Hypothesis signed_in : isAuthenticated ctx = true.
Hypothesis project_stored : JS.truthy (storedProjectId ctx) = true.

(** The three handlers that test their set do nothing for a key that is
    in it. *)
Lemma guarded_invoke_noop op st :
  (forall segmentId segmentData, op <> CreateNewImage segmentId segmentData) ->
  entityKey op ∈ in_flight op st ->
  invoke ctx op st = (st, []).
Proof.
  intros Hop Hin. destruct op as [k sd | k sd | k sd | s k sd]; cbn in *.
  - unfold handleRegenerateImage. rewrite bool_decide_true by exact Hin.
    rewrite orb_true_r. reflexivity.
  - unfold handleRegenerateVideo. rewrite bool_decide_true by exact Hin.
    rewrite orb_true_r. reflexivity.
  - exfalso. eapply Hop. reflexivity.
  - unfold handleCreateNewVideo. rewrite bool_decide_true by exact Hin.
    rewrite orb_true_r. reflexivity.
Qed.

(** Once an operation has settled its key is out of its set. *)
Lemma settle_releases op gen f st :
  entityKey op ∉ in_flight op (settle ctx op gen f st).
Proof.
  destruct op as [k sd | k sd | k sd | s k sd]; cbn;
    unfold handleRegenerateImage_settled, handleRegenerateVideo_settled,
      handleCreateNewImage_settled, handleCreateNewVideo_settled; cbn;
    intros H; apply elem_of_difference in H as [_ H];
    apply H, elem_of_singleton; reflexivity.
Qed.

(** After it has settled, a regeneration of the same video starts again. *)
Lemma regenerate_video_again videoId segmentData gen f st :
  let op := RegenerateVideo videoId segmentData in
  exists request,
    snd (invoke ctx op (settle ctx op gen f st)) = [request]
    /\ videoId ∈ regeneratingVideos (fst (invoke ctx op (settle ctx op gen f st))).
Proof.
  intros op. pose proof (settle_releases op gen f st) as Hout.
  cbn [invoke op entityKey in_flight] in *. unfold handleRegenerateVideo.
  rewrite signed_in, project_stored, bool_decide_false by exact Hout.
  cbn [negb orb snd fst]. eexists. split; [reflexivity|].
  cbn. apply elem_of_union. right. apply elem_of_singleton. reflexivity.
Qed.

(** [handleCreateNewImage] sends a request whatever its set holds. *)
Lemma create_image_unguarded segmentId segmentData st :
  exists request,
    handleCreateNewImage ctx segmentId segmentData st
    = (setCreatingImages (fun prev => prev ∪ {[segmentId]}) st, [request]).
Proof.
  unfold handleCreateNewImage. rewrite signed_in, project_stored. cbn [negb].
  eexists. reflexivity.
Qed.

End Handlers.

(** C5 on the code.  A session, a stored project, no task running: the
    first [handleCreateNewImage] for segment 1 puts the key in
    [creatingImages] and sends a request; a second one, while the key is
    still there, sends a second request.  The same two invocations of
    [handleCreateNewVideo] for an image send one request only. *)
Theorem create_image_runs_twice :
  let ctx := {| Flow.isAuthenticated := true; Flow.storedProjectId := JS.Num 7;
                Flow.selectedImageModel := Some "recraft-v3";
                Flow.selectedVideoModel := Some "kling-v2.1-master";
                Flow.now := 1712345678901 |} in
  let segmentData :=
    {| Flow.sd_id := JS.Num 1; Flow.sd_visual := Some (JS.lit "a dog on a beach");
       Flow.sd_animation := Some (JS.lit "the dog runs"); Flow.sd_artStyle := None;
       Flow.sd_imageS3Key := None; Flow.sd_s3Key := None |} in
  let st0 :=
    Flow.setAllProjectData
      {| Flow.pd_segments := [];
         Flow.pd_images :=
           [ {| Flow.ri_id := JS.Num 10; Flow.ri_success := true;
                Flow.ri_s3Key := "images/a.png"; Flow.ri_uuid := "seg-1";
                Flow.ri_visualPrompt := None; Flow.ri_artStyle := None;
                Flow.ri_isPrimary := None |} ];
         Flow.pd_videos := [] |}
      Flow.initial in
  let image1 := Flow.handleCreateNewImage ctx (JS.Num 1) segmentData st0 in
  let image2 := Flow.handleCreateNewImage ctx (JS.Num 1) segmentData (fst image1) in
  let video1 := Flow.handleCreateNewVideo ctx (JS.Num 1) (JS.Num 10) segmentData st0 in
  let video2 := Flow.handleCreateNewVideo ctx (JS.Num 1) (JS.Num 10) segmentData (fst video1) in
  JS.Num 1 ∈ Flow.creatingImages (fst image1)
  /\ length (snd image1) = 1
  /\ length (snd image2) = 1
  /\ JS.Num 10 ∈ Flow.creatingVideos (fst video1)
  /\ length (snd video1) = 1
  /\ snd video2 = [].
Proof.
  cbn zeta.
  split; [apply (bool_decide_unpack _); vm_compute; exact I|].
  split; [reflexivity|]. split; [reflexivity|].
  split; [apply (bool_decide_unpack _); vm_compute; exact I|].
  split; [vm_compute; reflexivity|].
  vm_compute. reflexivity.
Qed.

(* ===================================================================== *)
(** * Properties of the step workflow                                     *)
(* ===================================================================== *)

Section Steps.

Import Sidebar.

Lemma concept_failed_status message st :
  stepStatus (concept_failed message st) = <[0 := Pending]> (stepStatus st)
  /\ Sidebar.error (concept_failed message st)
     = Some (message_or message "Failed to generate concepts. Please try again.")
  /\ creditDeductionMessage (concept_failed message st)
     = Some (RequestFailed "Concept Generation").
Proof. repeat split. Qed.

Lemma script_failed_status message st :
  stepStatus (script_failed message st) = <[2 := Pending]> (stepStatus st)
  /\ Sidebar.error (script_failed message st)
     = Some (message_or message "Failed to generate scripts. Please try again.")
  /\ creditDeductionMessage (script_failed message st)
     = Some (RequestFailed "Script Generation").
Proof. repeat split. Qed.

Lemma runConceptWriter_failure ctx env st :
  JS.trim (prompt ctx) <> [] ->
  (exists m, webInfoResult env = Rejected m)
  \/ (exists w, webInfoResult env = Resolved w /\ choices w = [])
  \/ (exists w c l m, webInfoResult env = Resolved w /\ choices w = c :: l
                      /\ conceptsResult env c = Rejected m) ->
  exists m calls,
    runConceptWriter ctx env st
    = (concept_failed m
         (updateStepStatus 0 Loading (Sidebar.setError None (Sidebar.setLoading true st))),
       calls).
Proof.
  intros Hp Hfail. unfold runConceptWriter.
  destruct (JS.trim (prompt ctx)) as [|c0 p0]; [contradiction|].
  destruct Hfail as [[m E] | [(w & E & Ec) | (w & c & l & m & E & Ec & Er)]];
    rewrite E; [| rewrite Ec | rewrite Ec, Er]; eauto.
Qed.

Lemma runScriptGeneration_failure ctx res1 res2 st c :
  selectedConcept st = Some c ->
  (exists m, res1 = Rejected m) \/ (exists m, res2 = Rejected m) ->
  exists m calls,
    runScriptGeneration ctx res1 res2 st
    = (script_failed m
         (updateStepStatus 2 Loading (Sidebar.setError None (Sidebar.setLoading true st))),
       calls).
Proof.
  intros Hc Hfail. unfold runScriptGeneration. rewrite Hc.
  destruct Hfail as [[m ->] | [m ->]]; [eauto|].
  destruct res1; eauto.
Qed.

End Steps.

(** C7.  [runConceptWriter] with a prompt that is empty once trimmed sends
    no request and leaves every step status as it is.  With a prompt, if
    the web-info request fails, or its answer has no choice to read, or
    the concept request fails, step 0 ends [Pending], the other steps
    keep their status, and the failure shows in the error and in the
    notice.  A status is one of [Pending], [Loading], [Done].
    [runScriptGeneration] with a concept selected ends with step 2
    [Pending] in the same way when one of its two requests fails. *)
Theorem failure_reverts_to_pending (ctx : Sidebar.context)
    (env : Sidebar.concept_answers) (res1 res2 : outcome Sidebar.script)
    (st : Sidebar.state) :
  (JS.trim (Sidebar.prompt ctx) = [] ->
     snd (Sidebar.runConceptWriter ctx env st) = []
     /\ Sidebar.stepStatus (fst (Sidebar.runConceptWriter ctx env st))
        = Sidebar.stepStatus st)
  /\ (JS.trim (Sidebar.prompt ctx) <> [] ->
      (exists m, Sidebar.webInfoResult env = Rejected m)
      \/ (exists w, Sidebar.webInfoResult env = Resolved w /\ Sidebar.choices w = [])
      \/ (exists w c l m, Sidebar.webInfoResult env = Resolved w
                          /\ Sidebar.choices w = c :: l
                          /\ Sidebar.conceptsResult env c = Rejected m) ->
      let st' := fst (Sidebar.runConceptWriter ctx env st) in
      Sidebar.stepStatus st' !! 0 = Some Sidebar.Pending
      /\ (forall n, n <> 0 -> Sidebar.stepStatus st' !! n = Sidebar.stepStatus st !! n)
      /\ is_Some (Sidebar.error st')
      /\ Sidebar.creditDeductionMessage st'
         = Some (Sidebar.RequestFailed "Concept Generation"))
  /\ (forall s : Sidebar.status,
        s = Sidebar.Pending \/ s = Sidebar.Loading \/ s = Sidebar.Done)
  /\ (forall c, Sidebar.selectedConcept st = Some c ->
      (exists m, res1 = Rejected m) \/ (exists m, res2 = Rejected m) ->
      let st' := fst (Sidebar.runScriptGeneration ctx res1 res2 st) in
      Sidebar.stepStatus st' !! 2 = Some Sidebar.Pending
      /\ (forall n, n <> 2 -> Sidebar.stepStatus st' !! n = Sidebar.stepStatus st !! n)
      /\ is_Some (Sidebar.error st')
      /\ Sidebar.creditDeductionMessage st'
         = Some (Sidebar.RequestFailed "Script Generation")).
Proof.
  split; [|split; [|split]].
  - intros Hp. unfold Sidebar.runConceptWriter. rewrite Hp. split; reflexivity.
  - intros Hp Hfail st'. subst st'.
    destruct (runConceptWriter_failure ctx env st Hp Hfail) as (m & calls & ->).
    cbn [fst]. destruct (concept_failed_status m
      (Sidebar.updateStepStatus 0 Sidebar.Loading
         (Sidebar.setError None (Sidebar.setLoading true st)))) as (Hs & He & Hn).
    rewrite Hs, He, Hn. cbn [Sidebar.updateStepStatus Sidebar.setStepStatus Sidebar.stepStatus
                             Sidebar.setError Sidebar.setLoading].
    split; [apply lookup_insert_eq|].
    split; [intros n Hn0; rewrite !lookup_insert_ne by congruence; reflexivity|].
    split; [eexists; reflexivity | reflexivity].
  - intros []; auto.
  - intros c Hc Hfail st'. subst st'.
    destruct (runScriptGeneration_failure ctx res1 res2 st c Hc Hfail) as (m & calls & ->).
    cbn [fst]. destruct (script_failed_status m
      (Sidebar.updateStepStatus 2 Sidebar.Loading
         (Sidebar.setError None (Sidebar.setLoading true st)))) as (Hs & He & Hn).
    rewrite Hs, He, Hn. cbn [Sidebar.updateStepStatus Sidebar.setStepStatus Sidebar.stepStatus
                             Sidebar.setError Sidebar.setLoading].
    split; [apply lookup_insert_eq|].
    split; [intros n Hn0; rewrite !lookup_insert_ne by congruence; reflexivity|].
    split; [eexists; reflexivity | reflexivity].
Qed.

Lemma failure_reverts_to_pending_witness :
  let ctx := {| Sidebar.prompt := JS.lit "a dog on a beach";
                Sidebar.selectedProject := Some {| Sidebar.project_id := JS.Num 7 |};
                Sidebar.selectedImageModel := Some "recraft-v3";
                Sidebar.selectedVideoModel := Some "kling-v2.1-master" |} in
  let blank := {| Sidebar.prompt := JS.lit "   ";
                  Sidebar.selectedProject := Some {| Sidebar.project_id := JS.Num 7 |};
                  Sidebar.selectedImageModel := Some "recraft-v3";
                  Sidebar.selectedVideoModel := Some "kling-v2.1-master" |} in
  let env := {| Sidebar.webInfoResult := Resolved {| Sidebar.choices := [JS.lit "beaches"] |};
                Sidebar.conceptsResult := fun _ => Rejected "Request failed with status code 500" |} in
  let chosen := Sidebar.handleConceptSelect {| Sidebar.concept_title := JS.lit "Surf" |}
                  Sidebar.initial in
  snd (Sidebar.runConceptWriter blank env Sidebar.initial) = []
  /\ Sidebar.stepStatus (fst (Sidebar.runConceptWriter ctx env Sidebar.initial)) !! 0
     = Some Sidebar.Pending
  /\ Sidebar.error (fst (Sidebar.runConceptWriter ctx env Sidebar.initial))
     = Some "Request failed with status code 500"
  /\ Sidebar.stepStatus
       (fst (Sidebar.runScriptGeneration ctx
               (Resolved {| Sidebar.segments := None; Sidebar.artStyle := None |})
               (Rejected "Network Error") chosen)) !! 2
     = Some Sidebar.Pending.
Proof.
  intros ctx blank env chosen.
  split.
  { destruct (failure_reverts_to_pending blank env (Rejected "") (Rejected "") Sidebar.initial)
      as (H & _). apply H. reflexivity. }
  destruct (failure_reverts_to_pending ctx env
              (Resolved {| Sidebar.segments := None; Sidebar.artStyle := None |})
              (Rejected "Network Error") Sidebar.initial) as (_ & H & _ & _).
  destruct H as (H0 & _ & _ & _).
  { discriminate. }
  { right; right. exists {| Sidebar.choices := [JS.lit "beaches"] |}, (JS.lit "beaches"), [],
      "Request failed with status code 500". repeat split. }
  split; [exact H0|]. split; [reflexivity|].
  destruct (failure_reverts_to_pending ctx env
              (Resolved {| Sidebar.segments := None; Sidebar.artStyle := None |})
              (Rejected "Network Error") chosen) as (_ & _ & _ & H).
  destruct (H {| Sidebar.concept_title := JS.lit "Surf" |}) as (H2 & _).
  - reflexivity.
  - right. eexists. reflexivity.
  - exact H2.
Defined.

Section Selection.

Import Sidebar.

(** What the effect writes under each step. *)
Lemma derive_status_lookup ctx st p :
  selectedProject ctx = Some p ->
  stepStatus (derive_status ctx st) !! 1
  = Some (done_if (bool_decide (is_Some (selectedConcept st))))
  /\ stepStatus (derive_status ctx st) !! 3
     = Some (done_if (has_segments (selectedScript st)))
  /\ selectedConcept (derive_status ctx st) = selectedConcept st
  /\ selectedScript (derive_status ctx st) = selectedScript st.
Proof.
  intros Hp. unfold derive_status. rewrite Hp.
  cbn [setStepStatus stepStatus selectedConcept selectedScript].
  split; [|split; [|split; reflexivity]].
  - do 4 (rewrite lookup_insert_ne by discriminate). apply lookup_insert_eq.
  - do 2 (rewrite lookup_insert_ne by discriminate). apply lookup_insert_eq.
Qed.

End Selection.

(** C8.  With a project selected, after the effect that derives the
    statuses has run: a selected concept makes step 1 [Done], and a
    selected script with a non-empty segment list makes step 3 [Done].
    Selecting a concept stores it, sets step 1 [Done] and moves to step
    2; selecting a script stores it, sets step 3 [Done] and moves to
    step 4. *)
Theorem selection_advances (ctx : Sidebar.context) (st : Sidebar.state) :
  (forall p, Sidebar.selectedProject ctx = Some p ->
     let st' := Sidebar.derive_status ctx st in
     (forall c, Sidebar.selectedConcept st' = Some c ->
        Sidebar.stepStatus st' !! 1 = Some Sidebar.Done)
     /\ (forall sc seg segs,
           Sidebar.selectedScript st' = Some sc ->
           Sidebar.segments sc = Some (seg :: segs) ->
           Sidebar.stepStatus st' !! 3 = Some Sidebar.Done))
  /\ (forall c,
        let st' := Sidebar.handleConceptSelect c st in
        Sidebar.selectedConcept st' = Some c
        /\ Sidebar.stepStatus st' !! 1 = Some Sidebar.Done
        /\ Sidebar.currentStep st' = 2)
  /\ (forall sc,
        let st' := Sidebar.handleScriptSelect sc st in
        Sidebar.selectedScript st' = Some sc
        /\ Sidebar.stepStatus st' !! 3 = Some Sidebar.Done
        /\ Sidebar.currentStep st' = 4).
Proof.
  split; [|split].
  - intros p Hp st'. subst st'.
    destruct (derive_status_lookup ctx st p Hp) as (H1 & H3 & Hc & Hs).
    split.
    + intros c Hsel. rewrite Hc in Hsel. rewrite H1, Hsel.
      rewrite bool_decide_true by (eexists; reflexivity). reflexivity.
    + intros sc seg segs Hsel Hsegs. rewrite Hs in Hsel. rewrite H3, Hsel.
      destruct sc as [l a]. cbn in Hsegs. subst l. reflexivity.
  - intros c st'. subst st'. cbn. split; [reflexivity|].
    split; [apply lookup_insert_eq | reflexivity].
  - intros sc st'. subst st'. cbn. split; [reflexivity|].
    split; [apply lookup_insert_eq | reflexivity].
Qed.

Lemma selection_advances_witness :
  let ctx := {| Sidebar.prompt := JS.lit "a dog on a beach";
                Sidebar.selectedProject := Some {| Sidebar.project_id := JS.Num 7 |};
                Sidebar.selectedImageModel := Some "recraft-v3";
                Sidebar.selectedVideoModel := Some "kling-v2.1-master" |} in
  let concept := {| Sidebar.concept_title := JS.lit "Surf" |} in
  let st := Sidebar.setSelectedConcept (Some concept) Sidebar.initial in
  Sidebar.stepStatus st !! 1 = Some Sidebar.Pending
  /\ Sidebar.stepStatus (Sidebar.derive_status ctx st) !! 1 = Some Sidebar.Done.
Proof.
  intros ctx concept st. split; [reflexivity|].
  destruct (selection_advances ctx st) as (H & _).
  destruct (H {| Sidebar.project_id := JS.Num 7 |} eq_refl) as (H1 & _).
  apply (H1 concept). reflexivity.
Defined.

(* ===================================================================== *)
(** * Properties of the batches                                           *)
(* ===================================================================== *)

Section Batches.

Import Sidebar.

(** What an event does, for both kinds of batch: it concerns a running
    task; it leaves the other tasks alone; and either the task does not
    end with a result and the collected map is untouched, or it ends with
    one and the result is filed under the key of its segment. *)
Lemma event_shape kind b ev b' :
  on_event kind b ev = Some b' ->
  exists pos seg,
    launched b !! event_task ev = Some (pos, seg)
    /\ launched b' = launched b
    /\ (tasks b !! event_task ev = Some AwaitGeneration
        \/ exists key, tasks b !! event_task ev = Some (AwaitDownload key))
    /\ ((exists t, tasks b' = <[event_task ev := t]> (tasks b)
                   /\ (forall r, t <> Settled (Some r))
                   /\ collected b' = collected b)
        \/ (exists url,
              tasks b' = <[event_task ev := Settled (Some {| tr_segmentId := id seg;
                                                              tr_url := url |})]> (tasks b)
              /\ collected b' = <[JS.to_string (id seg) := url]> (collected b))).
Proof.
  destruct kind, ev as [i r | i r]; cbn [on_event image_event video_event event_task];
    destruct (tasks b !! i) as [[| key | res]|] eqn:Et; try discriminate;
    destruct (launched b !! i) as [[pos seg]|] eqn:El; try discriminate;
    intros [= <-]; exists pos, seg;
    (split; [reflexivity|]);
    (destruct r as [a | m]; [try destruct (Flow.nonempty (Flow.s3_key a))|]);
    (split; [reflexivity|]); (split; [eauto|]);
    try (right; eexists; split; reflexivity);
    left; eexists; (split; [reflexivity|]); (split; [discriminate|reflexivity]).
Qed.

Lemma event_other kind b ev b' j :
  on_event kind b ev = Some b' -> j <> event_task ev -> tasks b' !! j = tasks b !! j.
Proof.
  intros H Hj. destruct (event_shape _ _ _ _ H) as (pos & seg & _ & _ & _ & Hcases).
  destruct Hcases as [(t & -> & _) | (url & -> & _)];
    apply list_lookup_insert_ne; congruence.
Qed.

Lemma event_keeps_settled kind b ev b' j r :
  on_event kind b ev = Some b' ->
  tasks b !! j = Some (Settled r) -> tasks b' !! j = Some (Settled r).
Proof.
  intros H Hj. rewrite (event_other _ _ _ _ j H); [exact Hj|].
  intros ->. destruct (event_shape _ _ _ _ H) as (pos & seg & _ & _ & Hrun & _).
  destruct Hrun as [E | [key E]]; congruence.
Qed.

Lemma event_recorded kind b ev b' :
  on_event kind b ev = Some b' -> recorded b -> recorded b'.
Proof.
  intros H Inv i r Hi.
  destruct (event_shape _ _ _ _ H) as (pos & seg & El & Elb & Hrun & Hcases).
  assert (Hlt : event_task ev < length (tasks b)).
  { destruct Hrun as [E | [key E]]; eapply lookup_lt_Some, E. }
  assert (Hnot : forall r0, tasks b !! event_task ev <> Some (Settled r0)).
  { intros r0. destruct Hrun as [E | [key E]]; congruence. }
  unfold succeeded, task_key in *. rewrite Elb.
  destruct Hcases as [(t & Et & Hne & Ec) | (url & Et & Ec)]; rewrite Et in *; rewrite Ec.
  - destruct (decide (i = event_task ev)) as [->|Hi0].
    { rewrite list_lookup_insert_eq in Hi by exact Hlt.
      injection Hi as ->. exfalso. eapply Hne. reflexivity. }
    rewrite list_lookup_insert_ne in Hi by congruence.
    destruct (Inv i r Hi) as (j & r' & k & Hj & Hkj & Hki & Hc).
    exists j, r', k. repeat split; try assumption.
    rewrite list_lookup_insert_ne; [exact Hj|].
    intros <-. exact (Hnot _ Hj).
  - destruct (decide (i = event_task ev)) as [->|Hi0].
    { exists (event_task ev), {| tr_segmentId := id seg; tr_url := url |},
        (JS.to_string (id seg)).
      rewrite list_lookup_insert_eq by exact Hlt. rewrite El. cbn.
      repeat split. apply lookup_insert_eq. }
    rewrite list_lookup_insert_ne in Hi by congruence.
    destruct (Inv i r Hi) as (j & r' & k & Hj & Hkj & Hki & Hc).
    destruct (decide (k = JS.to_string (id seg))) as [->|Hk].
    + exists (event_task ev), {| tr_segmentId := id seg; tr_url := url |},
        (JS.to_string (id seg)).
      rewrite list_lookup_insert_eq by exact Hlt. rewrite El. cbn.
      repeat split; [exact Hki | apply lookup_insert_eq].
    + exists j, r', k. repeat split; try assumption.
      * rewrite list_lookup_insert_ne; [exact Hj|]. intros <-. exact (Hnot _ Hj).
      * rewrite lookup_insert_ne by congruence. exact Hc.
Qed.

Lemma run_recorded kind evs : forall b b',
  run (on_event kind) b evs = Some b' -> recorded b -> recorded b'.
Proof.
  induction evs as [|ev evs IH]; intros b b'; cbn [run].
  - intros [= <-]. auto.
  - destruct (on_event kind b ev) as [b1|] eqn:E; [|discriminate].
    intros Hrun Inv. eapply IH; [exact Hrun|]. eapply event_recorded; eassumption.
Qed.

Lemma run_launched kind evs : forall b b',
  run (on_event kind) b evs = Some b' -> launched b' = launched b.
Proof.
  induction evs as [|ev evs IH]; intros b b'; cbn [run].
  - intros [= <-]. reflexivity.
  - destruct (on_event kind b ev) as [b1|] eqn:E; [|discriminate].
    intros Hrun. rewrite (IH _ _ Hrun).
    destruct (event_shape _ _ _ _ E) as (? & ? & _ & Elb & _). exact Elb.
Qed.

(** A task that has left its first state has seen an event. *)
Lemma run_touched kind evs : forall b b' i,
  run (on_event kind) b evs = Some b' ->
  tasks b !! i = Some AwaitGeneration ->
  tasks b' !! i <> Some AwaitGeneration ->
  exists ev, In ev evs /\ event_task ev = i.
Proof.
  induction evs as [|ev evs IH]; intros b b' i; cbn [run].
  - intros [= <-] H Hn. contradiction.
  - destruct (on_event kind b ev) as [b1|] eqn:E; [|discriminate].
    intros Hrun Hi Hn. destruct (decide (i = event_task ev)) as [->|Hne].
    + exists ev. split; [left; reflexivity | reflexivity].
    + destruct (IH b1 b' i Hrun) as (ev' & Hin & Hev); [|exact Hn|].
      * rewrite (event_other _ _ _ _ i E Hne). exact Hi.
      * exists ev'. split; [right; exact Hin | exact Hev].
Qed.

Lemma all_settled_lookup b i t :
  all_settled b = true -> tasks b !! i = Some t -> exists r, t = Settled r.
Proof.
  unfold all_settled. rewrite forallb_forall. intros Hall Hi.
  specialize (Hall t). destruct t; [| |eauto];
    (assert (false = true) as Hf; [apply Hall | discriminate]);
    apply list_elem_of_In, list_elem_of_lookup; eauto.
Qed.

(** The start of a batch: a task with a request waits for its first
    answer, a task without one is over, and nothing is collected. *)
Lemma start_tasks_frame kind request total l : forall b,
  launched (fold_left (start_task kind request total) l b) = launched b
  /\ collected (fold_left (start_task kind request total) l b) = collected b
  /\ tasks (fold_left (start_task kind request total) l b)
     = fold_left (fun ts t => match request (snd (snd t)) with
                              | Some _ => ts
                              | None => <[fst t := Settled None]> ts
                              end) l (tasks b).
Proof.
  induction l as [|t l IH]; intros b; cbn [fold_left]; [auto|].
  destruct (IH (start_task kind request total b t)) as (H1 & H2 & H3).
  rewrite H1, H2, H3. unfold start_task.
  destruct (request (snd (snd t))); cbn; auto.
Qed.

Lemma skipped_tasks (request : segment -> option call) items : forall pre,
  fold_left (fun ts (t : nat * (nat * segment)) =>
               match request (snd (snd t)) with
               | Some _ => ts
               | None => <[fst t := Settled None]> ts
               end)
            (imap (fun i => pair (length pre + i)) items)
            (pre ++ replicate (length items) AwaitGeneration)
  = pre ++ ((fun p => match request (snd p) with
                      | Some _ => AwaitGeneration
                      | None => Settled None
                      end) <$> items).
Proof.
  induction items as [|x xs IH]; intros pre; [reflexivity|].
  cbn [imap fold_left length replicate fmap list_fmap fst snd].
  set (y := match request (snd x) with Some _ => AwaitGeneration | None => Settled None end).
  assert (E : match request (snd x) with
              | Some _ => pre ++ AwaitGeneration :: replicate (length xs) AwaitGeneration
              | None => <[length pre + 0 := Settled None]>
                          (pre ++ AwaitGeneration :: replicate (length xs) AwaitGeneration)
              end = (pre ++ [y]) ++ replicate (length xs) AwaitGeneration).
  { subst y. rewrite <- app_assoc. destruct (request (snd x)); [reflexivity|].
    rewrite insert_app_r. reflexivity. }
  rewrite E.
  rewrite (imap_ext _ (fun i => pair (length (pre ++ [y]) + i)) xs).
  - rewrite IH, <- app_assoc. reflexivity.
  - intros i z _. cbn. rewrite length_app. cbn. f_equal. lia.
Qed.

Lemma start_all_shape kind request items st :
  launched (start_all kind request items st) = items
  /\ tasks (start_all kind request items st)
     = (fun p => match request (snd p) with
                 | Some _ => AwaitGeneration
                 | None => Settled None
                 end) <$> items
  /\ collected (start_all kind request items st) = ∅.
Proof.
  unfold start_all.
  match goal with
  | |- context [fold_left ?f ?l ?b] => destruct (start_tasks_frame kind request (length items) l b)
                                         as (H1 & H2 & H3)
  end.
  rewrite H1, H2, H3. cbn [launched collected tasks].
  split; [reflexivity|]. split; [|reflexivity].
  exact (skipped_tasks request items []).
Qed.

Lemma start_tasks_sent kind request total l : forall b,
  sent (fold_left (start_task kind request total) l b)
  = sent b ++ omap (fun t => request (snd (snd t))) l.
Proof.
  induction l as [|t l IH]; intros b; cbn [fold_left omap list_omap].
  - symmetry. apply app_nil_r.
  - rewrite IH. unfold start_task. destruct (request (snd (snd t))); cbn.
    + rewrite <- app_assoc. reflexivity.
    + reflexivity.
Qed.

Lemma omap_indexed (request : segment -> option call) items : forall g : nat -> nat,
  omap (fun t : nat * (nat * segment) => request (snd (snd t)))
       (imap (fun i => pair (g i)) items)
  = omap (fun p => request (snd p)) items.
Proof.
  induction items as [|x xs IH]; intros g; [reflexivity|].
  cbn [imap omap list_omap snd]. rewrite <- (IH (g ∘ S)). reflexivity.
Qed.

Lemma start_all_sent kind request items st :
  sent (start_all kind request items st) = omap (fun p => request (snd p)) items.
Proof.
  unfold start_all. rewrite start_tasks_sent. cbn [sent app].
  exact (omap_indexed request items (fun i => i)).
Qed.

(** One request has gone out for each task that waits. *)
Lemma start_all_calls kind request items st :
  length (sent (start_all kind request items st))
  = length (List.filter awaiting (tasks (start_all kind request items st))).
Proof.
  rewrite start_all_sent.
  destruct (start_all_shape kind request items st) as (_ & -> & _).
  induction items as [|x xs IH]; [reflexivity|].
  cbn [omap list_omap fmap list_fmap List.filter].
  destruct (request (snd x)); cbn [awaiting length]; rewrite IH; reflexivity.
Qed.

Lemma launch_start kind ctx st b0 :
  launch kind ctx st = inr b0 ->
  exists request items s, b0 = start_all kind request items s.
Proof.
  destruct kind; cbn [launch];
    unfold runImageGeneration_launch, runVideoGeneration_launch.
  - destruct (selectedScript st) as [sc|]; [|discriminate].
    destruct (segments sc) as [segs|]; [|discriminate].
    destruct (List.filter _ _) as [|p l]; [discriminate|].
    intros [= <-]. eauto.
  - destruct (bool_decide _); [discriminate|].
    destruct (selectedScript st) as [sc|]; [|discriminate].
    destruct (segments sc) as [segs|]; [|discriminate].
    intros [= <-]. eauto.
Qed.

Lemma launch_shape kind ctx st b0 :
  launch kind ctx st = inr b0 ->
  length (tasks b0) = length (launched b0)
  /\ (forall i t, tasks b0 !! i = Some t -> t = AwaitGeneration \/ t = Settled None)
  /\ collected b0 = ∅
  /\ length (sent b0) = length (List.filter awaiting (tasks b0)).
Proof.
  intros H. destruct (launch_start _ _ _ _ H) as (request & items & s & ->).
  split; [|split; [|split]].
  - destruct (start_all_shape kind request items s) as (H1 & H2 & H3).
    rewrite H1, H2. apply length_fmap.
  - destruct (start_all_shape kind request items s) as (H1 & H2 & H3).
    rewrite H2. intros i t Hi. rewrite list_lookup_fmap in Hi.
    destruct (items !! i) as [p|]; [|discriminate Hi]. cbn in Hi. injection Hi as <-.
    destruct (request (snd p)); auto.
  - apply start_all_shape.
  - apply start_all_calls.
Qed.

(** An image batch sends a request for every task. *)
Lemma launch_image_tasks ctx st b0 :
  launch image ctx st = inr b0 ->
  tasks b0 = replicate (length (launched b0)) AwaitGeneration.
Proof.
  cbn [launch]. unfold runImageGeneration_launch.
  destruct (selectedScript st) as [sc|]; [|discriminate].
  destruct (segments sc) as [segs|]; [|discriminate].
  destruct (List.filter _ _) as [|p l]; [discriminate|].
  intros [= <-].
  match goal with
  | |- context [start_all ?k ?r ?i ?s] =>
      destruct (start_all_shape k r i s) as (H1 & H2 & _)
  end.
  rewrite H1, H2. clear. induction (p :: l) as [|x xs IH]; [reflexivity|].
  cbn. rewrite IH. reflexivity.
Qed.

Lemma finish_shape kind ctx b st' :
  finish kind ctx b = Some st' ->
  all_settled b = true
  /\ generated kind st' = collected b
  /\ stepStatus st' !! step_of kind = Some Done.
Proof.
  destruct kind; cbn [finish];
    unfold runImageGeneration_finish, runVideoGeneration_finish;
    destruct (all_settled b); try discriminate; intros [= <-];
    (split; [reflexivity|]); (split; [reflexivity|]); cbn; apply lookup_insert_eq.
Qed.

(** The code after [Promise.allSettled] runs when, and only when, every
    task is over. *)
Lemma finish_runs kind ctx b :
  if all_settled b then is_Some (finish kind ctx b) else finish kind ctx b = None.
Proof.
  destruct kind; cbn [finish];
    unfold runImageGeneration_finish, runVideoGeneration_finish;
    destruct (all_settled b); try reflexivity; eexists; reflexivity.
Qed.

Lemma unsettled_task b :
  all_settled b = false ->
  exists i, tasks b !! i = Some AwaitGeneration
            \/ exists key, tasks b !! i = Some (AwaitDownload key).
Proof.
  unfold all_settled. induction (tasks b) as [|t ts IH]; cbn [forallb]; [discriminate|].
  destruct t as [|key|r]; cbn.
  - intros _. exists 0. left. reflexivity.
  - intros _. exists 0. right. exists key. reflexivity.
  - intros H. destruct (IH H) as (i & Hi). exists (S i). exact Hi.
Qed.

Lemma waiting_unsettled b i :
  tasks b !! i = Some AwaitGeneration \/ (exists key, tasks b !! i = Some (AwaitDownload key)) ->
  all_settled b = false.
Proof.
  intros H. destruct (all_settled b) eqn:E; [|reflexivity].
  destruct H as [H|[key H]]; destruct (all_settled_lookup _ _ _ E H) as [r Hr]; discriminate Hr.
Qed.

(** What one answer does to the tasks. *)
Lemma event_step kind b ev b' :
  on_event kind b ev = Some b' ->
  launched b' = launched b
  /\ exists pos seg,
       launched b !! event_task ev = Some (pos, seg)
       /\ match ev with
          | GenerationSettled i r =>
              tasks b !! i = Some AwaitGeneration
              /\ tasks b' = <[i := match r with
                                   | Resolved result =>
                                       if Flow.nonempty (Flow.s3_key result)
                                       then AwaitDownload (Flow.s3_key result)
                                       else Settled None
                                   | Rejected _ => Settled None
                                   end]> (tasks b)
          | DownloadSettled i r =>
              (exists key, tasks b !! i = Some (AwaitDownload key))
              /\ tasks b' = <[i := match r with
                                   | Resolved url =>
                                       Settled (Some {| tr_segmentId := id seg;
                                                        tr_url := url |})
                                   | Rejected _ => Settled None
                                   end]> (tasks b)
          end.
Proof.
  destruct kind, ev as [i r | i r]; cbn [on_event image_event video_event event_task];
    destruct (tasks b !! i) as [[| key | res]|] eqn:Et; try discriminate;
    destruct (launched b !! i) as [[pos seg]|] eqn:El; try discriminate;
    intros [= <-];
    (split; [destruct r as [a|m]; [try destruct (Flow.nonempty (Flow.s3_key a))|];
             reflexivity|]);
    exists pos, seg; (split; [reflexivity|]); (split; [eauto|]);
    (destruct r as [a|m]; [try destruct (Flow.nonempty (Flow.s3_key a))|]); reflexivity.
Qed.

(** The answer a task waits for is taken, whatever it is and whatever
    the other tasks have come to. *)
Lemma event_accepts kind b i t :
  tasks b !! i = Some t -> i < length (launched b) ->
  match t with
  | AwaitGeneration => forall r, is_Some (on_event kind b (GenerationSettled i r))
  | AwaitDownload _ => forall r, is_Some (on_event kind b (DownloadSettled i r))
  | Settled _ => True
  end.
Proof.
  intros Ht Hi. destruct (lookup_lt_is_Some_2 _ _ Hi) as [[pos seg] El].
  destruct t; [| |exact I]; intros r; destruct kind;
    cbn [on_event image_event video_event]; rewrite Ht, El; eexists; reflexivity.
Qed.

Lemma weight_insert (l : list task_state) : forall i t t',
  l !! i = Some t -> weight t' < weight t ->
  sum_list_with weight (<[i := t']> l) < sum_list_with weight l.
Proof.
  induction l as [|x xs IH]; intros i t t' Hi Hw; [discriminate Hi|].
  destruct i as [|i]; simpl in Hi |- *.
  - injection Hi as ->. apply Nat.add_lt_mono_r. exact Hw.
  - apply Nat.add_lt_mono_l. exact (IH i t t' Hi Hw).
Qed.

Lemma event_on_course kind env b0 b ev b' :
  on_course env b0 b -> answer_of env ev -> on_event kind b ev = Some b' ->
  on_course env b0 b' /\ pending b' < pending b.
Proof.
  intros (Hl & Hlen & Hinv) Hans Hev.
  destruct (event_step _ _ _ _ Hev) as (Hl' & pos & seg & El & Hcase).
  destruct ev as [i r | i r]; cbn [event_task answer_of] in *.
  - destruct Hcase as (Hi & Ht).
    pose proof (Hinv i _ Hi) as Hi0. cbn in Hi0.
    assert (Hlt : i < length (tasks b)) by (eapply lookup_lt_Some, Hi).
    split.
    + split; [congruence|]. split; [rewrite Ht, length_insert; exact Hlen|].
      intros j t Hj. rewrite Ht in Hj.
      destruct (decide (j = i)) as [->|Hne].
      * rewrite list_lookup_insert_eq in Hj by exact Hlt. injection Hj as <-.
        assert (Hout : forall a, generation env i = a ->
                  match a with
                  | Resolved result => Flow.nonempty (Flow.s3_key result) = false
                  | Rejected _ => True
                  end -> None = task_outcome env b0 i).
        { intros a Ha Hn. unfold task_outcome. rewrite Hi0, <- Hl, El, Ha.
          destruct a as [result|m]; [rewrite Hn|]; reflexivity. }
        destruct r as [result|m].
        -- destruct (Flow.nonempty (Flow.s3_key result)) eqn:En.
           ++ split; [exact Hi0|]. exists result. auto.
           ++ apply (Hout (Resolved result)); [congruence | exact En].
        -- apply (Hout (Rejected m)); [congruence | exact I].
      * rewrite list_lookup_insert_ne in Hj by congruence. exact (Hinv j t Hj).
    + unfold pending. rewrite Ht. eapply weight_insert; [exact Hi|].
      destruct r as [result|m]; [destruct (Flow.nonempty _)|]; cbn; lia.
  - destruct Hcase as ((key & Hi) & Ht).
    pose proof (Hinv i _ Hi) as Hi0. cbn in Hi0.
    destruct Hi0 as (Hi0 & result & Hgen & Hkey & Hne).
    assert (Hlt : i < length (tasks b)) by (eapply lookup_lt_Some, Hi).
    split.
    + split; [congruence|]. split; [rewrite Ht, length_insert; exact Hlen|].
      intros j t Hj. rewrite Ht in Hj.
      destruct (decide (j = i)) as [->|Hne'].
      * rewrite list_lookup_insert_eq in Hj by exact Hlt. injection Hj as <-.
        unfold task_outcome. rewrite Hi0, <- Hl, El, Hgen, Hkey, Hne, <- Hans.
        destruct r; reflexivity.
      * rewrite list_lookup_insert_ne in Hj by congruence. exact (Hinv j t Hj).
    + unfold pending. rewrite Ht. eapply weight_insert; [exact Hi|].
      destruct r; cbn; lia.
Qed.

Lemma run_on_course kind env b0 evs : forall b b',
  on_course env b0 b -> Forall (answer_of env) evs ->
  run (on_event kind) b evs = Some b' -> on_course env b0 b'.
Proof.
  induction evs as [|ev evs IH]; intros b b' Hc Hans; cbn [run].
  - intros [= <-]. exact Hc.
  - destruct (on_event kind b ev) as [b1|] eqn:E; [|discriminate].
    inversion Hans; subst. intros Hrun. eapply IH; [|eassumption|exact Hrun].
    eapply event_on_course; eassumption.
Qed.

Lemma on_course_start env b0 :
  length (tasks b0) = length (launched b0) ->
  (forall i t, tasks b0 !! i = Some t -> t = AwaitGeneration \/ t = Settled None) ->
  on_course env b0 b0.
Proof.
  intros Hlen Hts. split; [reflexivity|]. split; [exact Hlen|].
  intros i t Hi. destruct (Hts i t Hi) as [-> | ->]; [exact Hi|].
  unfold task_outcome. rewrite Hi. reflexivity.
Qed.

(** Whatever the answers, they can all be delivered, and then every
    task is over. *)
Lemma completes kind env b0 : forall n b,
  pending b <= n -> on_course env b0 b ->
  exists evs b',
    Forall (answer_of env) evs
    /\ run (on_event kind) b evs = Some b' /\ all_settled b' = true.
Proof.
  induction n as [|n IH]; intros b Hn Hc.
  - destruct (all_settled b) eqn:E.
    + exists [], b. split; [constructor|]. split; [reflexivity | exact E].
    + exfalso. destruct (unsettled_task _ E) as (i & Hi).
      assert (Hw : exists t, tasks b !! i = Some t /\ 0 < weight t).
      { destruct Hi as [Hi|[key Hi]]; eexists; (split; [exact Hi|]); cbn; lia. }
      destruct Hw as (t & Hi' & Hw). unfold pending in Hn.
      pose proof (weight_insert (tasks b) i t (Settled None) Hi' Hw). lia.
  - destruct (all_settled b) eqn:E.
    + exists [], b. split; [constructor|]. split; [reflexivity | exact E].
    + destruct (unsettled_task _ E) as (i & Hi).
      destruct Hc as (Hl & Hlen & Hinv).
      assert (Hlt : i < length (launched b)).
      { rewrite Hl, <- Hlen. destruct Hi as [Hi|[key Hi]]; eapply lookup_lt_Some, Hi. }
      assert (Hstep : exists ev b1, answer_of env ev /\ on_event kind b ev = Some b1).
      { destruct Hi as [Hi|[key Hi]].
        - destruct (event_accepts kind b i _ Hi Hlt (generation env i)) as [b1 E1].
          exists (GenerationSettled i (generation env i)), b1. split; [reflexivity|exact E1].
        - destruct (event_accepts kind b i _ Hi Hlt (download env i)) as [b1 E1].
          exists (DownloadSettled i (download env i)), b1. split; [reflexivity|exact E1]. }
      destruct Hstep as (ev & b1 & Hans & E1).
      destruct (event_on_course kind env b0 b ev b1) as (Hc1 & Hp); auto.
      { split; [exact Hl|]. split; [exact Hlen | exact Hinv]. }
      destruct (IH b1) as (evs & b' & Hevs & Hrun & Hall); [lia | exact Hc1 |].
      exists (ev :: evs), b'. split; [constructor; assumption|].
      split; [cbn [run]; rewrite E1; exact Hrun | exact Hall].
Qed.

Lemma settled_outcome env b0 b i :
  on_course env b0 b -> all_settled b = true -> i < length (launched b0) ->
  tasks b !! i = Some (Settled (task_outcome env b0 i)).
Proof.
  intros (Hl & Hlen & Hinv) Hall Hi.
  destruct (lookup_lt_is_Some_2 (tasks b) i) as [t Ht]; [lia|].
  destruct (all_settled_lookup _ _ _ Hall Ht) as [r ->].
  rewrite Ht. f_equal. f_equal. exact (Hinv i _ Ht).
Qed.

Lemma outcome_launched env b0 i r :
  task_outcome env b0 i = Some r -> i < length (launched b0).
Proof.
  unfold task_outcome. destruct (tasks b0 !! i) as [[| |]|]; try discriminate.
  destruct (launched b0 !! i) eqn:E; [|discriminate].
  intros _. eapply lookup_lt_Some, E.
Qed.

End Batches.

Section BatchRuns.

Import Sidebar.

Lemma run_length kind evs : forall b b',
  run (on_event kind) b evs = Some b' -> length (tasks b') = length (tasks b).
Proof.
  induction evs as [|ev evs IH]; intros b b'; cbn [run].
  - intros [= <-]. reflexivity.
  - destruct (on_event kind b ev) as [b1|] eqn:E; [|discriminate].
    intros Hrun. rewrite (IH _ _ Hrun).
    destruct (event_shape _ _ _ _ E) as (? & ? & _ & _ & _ & Hcases).
    destruct Hcases as [(t & -> & _) | (url & -> & _)]; apply length_insert.
Qed.

Lemma recorded_at_start b :
  (forall i t, tasks b !! i = Some t -> t = AwaitGeneration \/ t = Settled None) ->
  recorded b.
Proof.
  intros Ht i r Hi. unfold succeeded in Hi.
  destruct (Ht i _ Hi); discriminate.
Qed.

End BatchRuns.

(** C4.  For [runImageGeneration] and [runVideoGeneration] alike, and
    whatever the environment answers to the requests of each task.  A
    batch that has started has sent one request for each task that
    waits.  All the answers can be delivered, after which the code after
    [Promise.allSettled] runs.  In every run that delivers answers of
    the environment, in any order: the answer a task waits for is taken,
    whatever the other tasks have come to; the code after
    [Promise.allSettled] does not run while a task waits; and when it
    has run, every task has ended with the value that its own answers
    give it (the URL of its download, or [null] when its generation
    failed or brought no key, its download failed, or it had sent
    nothing), every task that had sent a request has had an answer,
    every result is in the generated map under the key of its segment
    (or a result of another task with the same key is), it is that very
    result when the keys of the tasks differ, and the status of the step
    is [Done], with or without a result. *)
Theorem batch_settles_all (kind : Sidebar.task_kind) (ctx : Sidebar.context)
    (st : Sidebar.state) (b0 : Sidebar.batch) (env : Sidebar.answers) :
  Sidebar.launch kind ctx st = inr b0 ->
  length (Sidebar.sent b0) = length (List.filter Sidebar.awaiting (Sidebar.tasks b0))
  /\ (exists evs b st',
        Forall (Sidebar.answer_of env) evs
        /\ Sidebar.run (Sidebar.on_event kind) b0 evs = Some b
        /\ Sidebar.finish kind ctx b = Some st')
  /\ forall evs b,
       Forall (Sidebar.answer_of env) evs ->
       Sidebar.run (Sidebar.on_event kind) b0 evs = Some b ->
       (forall i, Sidebar.tasks b !! i = Some Sidebar.AwaitGeneration ->
          is_Some (Sidebar.on_event kind b
                     (Sidebar.GenerationSettled i (Sidebar.generation env i))))
       /\ (forall i key, Sidebar.tasks b !! i = Some (Sidebar.AwaitDownload key) ->
             is_Some (Sidebar.on_event kind b
                        (Sidebar.DownloadSettled i (Sidebar.download env i))))
       /\ (forall i, Sidebar.tasks b !! i = Some Sidebar.AwaitGeneration
                     \/ (exists key, Sidebar.tasks b !! i = Some (Sidebar.AwaitDownload key)) ->
             Sidebar.finish kind ctx b = None)
       /\ forall st', Sidebar.finish kind ctx b = Some st' ->
            (forall i, i < length (Sidebar.launched b0) ->
               Sidebar.tasks b !! i = Some (Sidebar.Settled (Sidebar.task_outcome env b0 i)))
            /\ (forall i, Sidebar.tasks b0 !! i = Some Sidebar.AwaitGeneration ->
                  exists ev, In ev evs /\ Sidebar.event_task ev = i)
            /\ (forall i r, Sidebar.task_outcome env b0 i = Some r ->
                  exists j r' k,
                    Sidebar.task_outcome env b0 j = Some r'
                    /\ Sidebar.task_key b0 j = Some k /\ Sidebar.task_key b0 i = Some k
                    /\ Sidebar.generated kind st' !! k = Some (Sidebar.tr_url r'))
            /\ (NoDup (Sidebar.task_keys b0) ->
                forall i r k,
                  Sidebar.task_outcome env b0 i = Some r ->
                  Sidebar.task_key b0 i = Some k ->
                  Sidebar.generated kind st' !! k = Some (Sidebar.tr_url r))
            /\ Sidebar.stepStatus st' !! Sidebar.step_of kind = Some Sidebar.Done.
Proof.
  intros Hlaunch.
  destruct (launch_shape _ _ _ _ Hlaunch) as (Hlen0 & Hts0 & Hc0 & Hcalls).
  pose proof (on_course_start env b0 Hlen0 Hts0) as Hstart.
  split; [exact Hcalls|]. split.
  - destruct (completes kind env b0 (Sidebar.pending b0) b0 (le_n _) Hstart)
      as (evs & b & Hevs & Hrun & Hall).
    pose proof (finish_runs kind ctx b) as Hf. rewrite Hall in Hf.
    destruct Hf as [st' Hf]. exists evs, b, st'. auto.
  - intros evs b Hevs Hrun.
    pose proof (run_on_course kind env b0 evs b0 b Hstart Hevs Hrun) as Hc.
    assert (Hlt : forall i, is_Some (Sidebar.tasks b !! i) ->
                    i < length (Sidebar.launched b)).
    { intros i [t Hi]. destruct Hc as (Hl & Hlen & _). rewrite Hl, <- Hlen.
      eapply lookup_lt_Some, Hi. }
    split; [|split; [|split]].
    + intros i Hi. exact (event_accepts kind b i _ Hi (Hlt i (mk_is_Some _ _ Hi)) _).
    + intros i key Hi. exact (event_accepts kind b i _ Hi (Hlt i (mk_is_Some _ _ Hi)) _).
    + intros i Hi. pose proof (finish_runs kind ctx b) as Hf.
      rewrite (waiting_unsettled b i Hi) in Hf. exact Hf.
    + intros st' Hfinish.
      destruct (finish_shape _ _ _ _ Hfinish) as (Hall & Hgen & Hdone).
      pose proof (run_recorded _ _ _ _ Hrun (recorded_at_start _ Hts0)) as Hrec.
      pose proof (run_launched _ _ _ _ Hrun) as Hl.
      assert (Hout : forall i r, Sidebar.task_outcome env b0 i = Some r ->
                       Sidebar.succeeded b i r).
      { intros i r Hi. unfold Sidebar.succeeded.
        rewrite (settled_outcome env b0 b i Hc Hall (outcome_launched _ _ _ _ Hi)), Hi.
        reflexivity. }
      assert (Hback : forall j r, Sidebar.succeeded b j r ->
                        Sidebar.task_outcome env b0 j = Some r).
      { intros j r Hj. unfold Sidebar.succeeded in Hj.
        assert (Hjl : j < length (Sidebar.launched b0)).
        { rewrite <- Hl. apply Hlt. eexists. exact Hj. }
        rewrite (settled_outcome env b0 b j Hc Hall Hjl) in Hj. congruence. }
      assert (Hkey : forall i, Sidebar.task_key b i = Sidebar.task_key b0 i).
      { intros i. unfold Sidebar.task_key. rewrite Hl. reflexivity. }
      split; [|split; [|split; [|split]]].
      * intros i Hi. exact (settled_outcome env b0 b i Hc Hall Hi).
      * intros i Hi. eapply run_touched; [exact Hrun | exact Hi |].
        intros Hi'. destruct (all_settled_lookup _ _ _ Hall Hi') as [r Hr]. discriminate Hr.
      * intros i r Hi. rewrite Hgen.
        destruct (Hrec i r (Hout i r Hi)) as (j & r' & k & Hj & Hkj & Hki & Hcol).
        exists j, r', k. rewrite <- !Hkey. auto.
      * intros Hnd i r k Hi Hk. rewrite Hgen.
        destruct (Hrec i r (Hout i r Hi)) as (j & r' & k' & Hj & Hkj & Hki & Hcol).
        rewrite Hkey in Hkj, Hki.
        assert (k' = k) by congruence. subst k'.
        assert (j = i).
        { apply (NoDup_lookup (Sidebar.task_keys b0) j i k Hnd);
            unfold Sidebar.task_keys; rewrite list_lookup_fmap; assumption. }
        subst j. apply Hback in Hj. congruence.
      * exact Hdone.
Qed.

Lemma batch_settles_all_witness :
  let ctx := {| Sidebar.prompt := JS.lit "a dog on a beach";
                Sidebar.selectedProject := Some {| Sidebar.project_id := JS.Num 7 |};
                Sidebar.selectedImageModel := Some "recraft-v3";
                Sidebar.selectedVideoModel := Some "kling-v2.1-master" |} in
  let seg (n : Z) (text : string) :=
    {| Sidebar.id := JS.Num n; Sidebar.segmentId := JS.Undefined;
       Sidebar.uuid := JS.Undefined;
       Sidebar.visual := Some (JS.lit text); Sidebar.animation := None;
       Sidebar.narration := None; Sidebar.s3Key := None;
       Sidebar.image_s3_key := None; Sidebar.imageS3Key := None;
       Sidebar.videoUrl := None; Sidebar.video_url := None |} in
  let script := {| Sidebar.segments :=
                     Some [seg 0%Z "a cat"; seg 1%Z "a dog"; seg 2%Z "  "; seg 3%Z "a beach"];
                   Sidebar.artStyle := None |} in
  let env := {| Sidebar.generation := fun i =>
                  match i with
                  | 1 => Rejected "Request failed with status code 500"
                  | _ => Resolved {| Flow.s3_key := "media/3" |}
                  end;
                Sidebar.download := fun _ => Resolved "blob:3" |} in
  let evs := [ Sidebar.GenerationSettled 2 (Resolved {| Flow.s3_key := "media/3" |});
               Sidebar.GenerationSettled 1 (Rejected "Request failed with status code 500");
               Sidebar.DownloadSettled 2 (Resolved "blob:3") ] in
  let late := [ Sidebar.GenerationSettled 0 (Resolved {| Flow.s3_key := "media/3" |});
                Sidebar.DownloadSettled 0 (Resolved "blob:3") ] in
  let st4 := Sidebar.handleScriptSelect script Sidebar.initial in
  let st5 := Sidebar.setGeneratedImages
               {[ "0" := Flow.CDN +:+ "images/0.png"; "seg-1" := "blob:1";
                  "3" := Flow.CDN +:+ "images/3.png" ]} st4 in
  (exists b0 b st',
     Sidebar.launch Sidebar.video ctx st5 = inr b0
     /\ Sidebar.run (Sidebar.on_event Sidebar.video) b0 evs = Some b
     /\ Sidebar.finish Sidebar.video ctx b = Some st'
     /\ Sidebar.tasks b0 = [Sidebar.Settled None; Sidebar.AwaitGeneration;
                            Sidebar.AwaitGeneration]
     /\ length (Sidebar.sent b0) = 2
     /\ Sidebar.tasks b !! 0 = Some (Sidebar.Settled None)
     /\ Sidebar.tasks b !! 1 = Some (Sidebar.Settled None)
     /\ Sidebar.tasks b !! 2
        = Some (Sidebar.Settled (Some {| Sidebar.tr_segmentId := JS.Num 3;
                                         Sidebar.tr_url := "blob:3" |}))
     /\ Sidebar.generatedVideos st' !! "3" = Some "blob:3"
     /\ Sidebar.stepStatus st' !! 5 = Some Sidebar.Done)
  /\ (exists b0 b1 b st',
        Sidebar.launch Sidebar.image ctx st4 = inr b0
        /\ length (Sidebar.sent b0) = 3
        /\ Sidebar.run (Sidebar.on_event Sidebar.image) b0 evs = Some b1
        /\ Sidebar.finish Sidebar.image ctx b1 = None
        /\ Sidebar.run (Sidebar.on_event Sidebar.image) b0 (evs ++ late) = Some b
        /\ Sidebar.finish Sidebar.image ctx b = Some st'
        /\ Sidebar.tasks b !! 1 = Some (Sidebar.Settled None)
        /\ Sidebar.generatedImages st' !! "3" = Some "blob:3"
        /\ Sidebar.stepStatus st' !! 4 = Some Sidebar.Done).
Proof.
  intros ctx seg script env evs late st4 st5.
  assert (Hevs : Forall (Sidebar.answer_of env) evs) by (repeat constructor).
  assert (Hlate : Forall (Sidebar.answer_of env) (evs ++ late)) by (repeat constructor).
  split.
  - destruct (Sidebar.launch Sidebar.video ctx st5) as [|b0] eqn:E0;
      [vm_compute in E0; discriminate E0|].
    destruct (Sidebar.run (Sidebar.on_event Sidebar.video) b0 evs) as [b|] eqn:E1;
      [|vm_compute in E0; injection E0 as <-; vm_compute in E1; discriminate E1].
    destruct (Sidebar.finish Sidebar.video ctx b) as [st'|] eqn:E2;
      [|vm_compute in E0; injection E0 as <-; vm_compute in E1; injection E1 as <-;
        vm_compute in E2; discriminate E2].
    exists b0, b, st'.
    destruct (batch_settles_all Sidebar.video ctx st5 b0 env E0) as (Hcalls & _ & Hruns).
    destruct (Hruns evs b Hevs E1) as (_ & _ & _ & Hend).
    destruct (Hend st' E2) as (Hout & _ & _ & Hdistinct & Hdone).
    assert (Hb0 : Sidebar.launched b0
                  = [(0, seg 0%Z "a cat"); (1, seg 1%Z "a dog"); (3, seg 3%Z "a beach")]
                  /\ Sidebar.tasks b0 = [Sidebar.Settled None; Sidebar.AwaitGeneration;
                                         Sidebar.AwaitGeneration]).
    { vm_compute in E0. injection E0 as <-. split; reflexivity. }
    destruct Hb0 as (Hl0 & Ht0).
    assert (Ho : Sidebar.task_outcome env b0 0 = None
                 /\ Sidebar.task_outcome env b0 1 = None
                 /\ Sidebar.task_outcome env b0 2
                    = Some {| Sidebar.tr_segmentId := JS.Num 3;
                              Sidebar.tr_url := "blob:3" |}).
    { unfold Sidebar.task_outcome. rewrite Hl0, Ht0. repeat split. }
    destruct Ho as (Ho0 & Ho1 & Ho2).
    split; [reflexivity|]. split; [exact E1|]. split; [exact E2|].
    split; [exact Ht0|].
    split; [rewrite Hcalls, Ht0; reflexivity|].
    split; [rewrite <- Ho0; apply Hout; rewrite Hl0; cbn; lia|].
    split; [rewrite <- Ho1; apply Hout; rewrite Hl0; cbn; lia|].
    split; [rewrite <- Ho2; apply Hout; rewrite Hl0; cbn; lia|].
    split; [|exact Hdone].
    apply Hdistinct with (i := 2)
      (r := {| Sidebar.tr_segmentId := JS.Num 3; Sidebar.tr_url := "blob:3" |}).
    + unfold Sidebar.task_keys. rewrite Hl0.
      apply (bool_decide_unpack _). vm_compute. exact I.
    + exact Ho2.
    + unfold Sidebar.task_key. rewrite Hl0. reflexivity.
  - destruct (Sidebar.launch Sidebar.image ctx st4) as [|b0] eqn:E0;
      [vm_compute in E0; discriminate E0|].
    destruct (Sidebar.run (Sidebar.on_event Sidebar.image) b0 evs) as [b1|] eqn:E1;
      [|vm_compute in E0; injection E0 as <-; vm_compute in E1; discriminate E1].
    destruct (Sidebar.run (Sidebar.on_event Sidebar.image) b0 (evs ++ late)) as [b|] eqn:E3;
      [|vm_compute in E0; injection E0 as <-; vm_compute in E3; discriminate E3].
    destruct (Sidebar.finish Sidebar.image ctx b) as [st'|] eqn:E2;
      [|vm_compute in E0; injection E0 as <-; vm_compute in E3; injection E3 as <-;
        vm_compute in E2; discriminate E2].
    exists b0, b1, b, st'.
    destruct (batch_settles_all Sidebar.image ctx st4 b0 env E0) as (Hcalls & _ & Hruns).
    destruct (Hruns evs b1 Hevs E1) as (_ & _ & Hwait & _).
    destruct (Hruns (evs ++ late) b Hlate E3) as (_ & _ & _ & Hend).
    destruct (Hend st' E2) as (Hout & _ & _ & Hdistinct & Hdone).
    assert (Hb0 : Sidebar.launched b0
                  = [(0, seg 0%Z "a cat"); (1, seg 1%Z "a dog"); (3, seg 3%Z "a beach")]
                  /\ Sidebar.tasks b0 = [Sidebar.AwaitGeneration; Sidebar.AwaitGeneration;
                                         Sidebar.AwaitGeneration]).
    { vm_compute in E0. injection E0 as <-. split; reflexivity. }
    destruct Hb0 as (Hl0 & Ht0).
    assert (Hb1 : Sidebar.tasks b1 !! 0 = Some Sidebar.AwaitGeneration).
    { vm_compute in E0. injection E0 as <-. vm_compute in E1. injection E1 as <-.
      reflexivity. }
    assert (Ho : Sidebar.task_outcome env b0 1 = None
                 /\ Sidebar.task_outcome env b0 2
                    = Some {| Sidebar.tr_segmentId := JS.Num 3;
                              Sidebar.tr_url := "blob:3" |}).
    { unfold Sidebar.task_outcome. rewrite Hl0, Ht0. repeat split. }
    destruct Ho as (Ho1 & Ho2).
    split; [reflexivity|].
    split; [rewrite Hcalls, Ht0; reflexivity|].
    split; [exact E1|].
    split; [apply (Hwait 0); left; exact Hb1|].
    split; [exact E3|]. split; [exact E2|].
    split; [rewrite <- Ho1; apply Hout; rewrite Hl0; cbn; lia|].
    split; [|exact Hdone].
    apply Hdistinct with (i := 2)
      (r := {| Sidebar.tr_segmentId := JS.Num 3; Sidebar.tr_url := "blob:3" |}).
    + unfold Sidebar.task_keys. rewrite Hl0.
      apply (bool_decide_unpack _). vm_compute. exact I.
    + exact Ho2.
    + unfold Sidebar.task_key. rewrite Hl0. reflexivity.
Defined.

(** A run of the video batch: two segments have an image, the request of
    the second fails, and the video of the first is recorded and step 5
    is [Done]. *)
Example video_batch_partial_failure :
  let ctx := {| Sidebar.prompt := JS.lit "a dog on a beach";
                Sidebar.selectedProject := Some {| Sidebar.project_id := JS.Num 7 |};
                Sidebar.selectedImageModel := Some "recraft-v3";
                Sidebar.selectedVideoModel := Some "kling-v2.1-master" |} in
  let seg (n : Z) (text : string) :=
    {| Sidebar.id := JS.Num n; Sidebar.segmentId := JS.Undefined;
       Sidebar.uuid := JS.Undefined;
       Sidebar.visual := Some (JS.lit text); Sidebar.animation := None;
       Sidebar.narration := None; Sidebar.s3Key := None;
       Sidebar.image_s3_key := None; Sidebar.imageS3Key := None;
       Sidebar.videoUrl := None; Sidebar.video_url := None |} in
  let script := {| Sidebar.segments := Some [seg 1%Z "a dog"; seg 2%Z "  "; seg 3%Z "a beach"];
                   Sidebar.artStyle := None |} in
  let st := Sidebar.setGeneratedImages
              {[ "3" := Flow.CDN +:+ "images/3.png"; "seg-1" := "blob:1" ]}
              (Sidebar.handleScriptSelect script Sidebar.initial) in
  let evs := [ Sidebar.GenerationSettled 0 (Resolved {| Flow.s3_key := "videos/1.mp4" |});
               Sidebar.GenerationSettled 1 (Rejected "Request failed with status code 500");
               Sidebar.DownloadSettled 0 (Resolved "blob:v1") ] in
  match Sidebar.runVideoGeneration_launch ctx st with
  | inr b0 =>
      match Sidebar.run Sidebar.video_event b0 evs with
      | Some b =>
          match Sidebar.runVideoGeneration_finish ctx b with
          | Some st' =>
              map_to_list (Sidebar.generatedVideos st') = [("1", "blob:v1")]
              /\ Sidebar.stepStatus st' !! 5 = Some Sidebar.Done
              /\ Sidebar.loading st' = false
          | None => False
          end
      | None => False
      end
  | inl _ => False
  end.
Proof. vm_compute. repeat split. Qed.

(* ===================================================================== *)
(** * Further properties of the reconciled view                           *)
(* ===================================================================== *)

Section ReconciledView.

Import Flow.

Lemma allImagesBySegment_lookup_all k imgs :
  allImagesBySegment imgs !! k
  = match arrival k imgs with [] => None | l => Some l end.
Proof.
  unfold allImagesBySegment. rewrite push_images_lookup, lookup_empty.
  destruct (arrival k imgs); reflexivity.
Qed.

Lemma primary_entry_shape l u d :
  primary_entry l = Some (u, d) ->
  Permutation (idt_allImages d) l
  /\ exists p rest,
       idt_allImages d = p :: rest /\ u = img_url p
       /\ idt_id d = img_id p /\ idt_s3Key d = img_s3Key p.
Proof.
  unfold primary_entry. pose proof (array_sort_primary l) as Hs.
  pose proof (filter_split_perm img_isPrimary l) as Hp.
  fold secondary in Hp. rewrite <- Hs in Hp.
  destruct (array_sort compare_primary l) as [|p rest]; [discriminate|].
  intros [= <- <-]. cbn. split; [exact Hp|]. exists p, rest. auto.
Qed.

Lemma primary_entry_some l : l <> [] -> is_Some (primary_entry l).
Proof.
  intros Hl. unfold primary_entry.
  pose proof (array_sort_primary l) as Hs.
  pose proof (filter_split_perm img_isPrimary l) as Hp.
  fold secondary in Hp. rewrite <- Hs in Hp.
  destruct (array_sort compare_primary l); [|eexists; reflexivity].
  apply Permutation_nil in Hp. contradiction.
Qed.

Lemma arrival_url k imgs p :
  In p (arrival k imgs) -> img_url p = CDN +:+ img_s3Key p.
Proof.
  unfold arrival. intros Hp. apply list_elem_of_In, list_elem_of_fmap in Hp.
  destruct Hp as (raw & -> & _). reflexivity.
Qed.

Lemma cdn_url_nonempty key : nonempty (CDN +:+ key) = true.
Proof. reflexivity. Qed.

End ReconciledView.

(** X1.  In the reconciled view [images] and [imageDetails] have the same
    keys, those of the segments with a usable image.  Under such a key
    [allImages] is a rearrangement of the usable images of the segment,
    and the [images] entry is the CDN address of the first of them, which
    is never empty: the test [flowData.images[segment.id] &&] of
    [createFlowElements] lets through whatever has image details. *)
Theorem images_and_details_agree (data : Flow.project_data)
    (temporaryVideos : gmap string string) (sid : string) :
  let fd := Flow.flowData data temporaryVideos in
  Flow.images_shown fd sid = Flow.fd_imageDetails fd !! sid
  /\ (is_Some (Flow.fd_images fd !! sid) <-> Flow.arrival sid (Flow.pd_images data) <> [])
  /\ (is_Some (Flow.fd_imageDetails fd !! sid)
      <-> Flow.arrival sid (Flow.pd_images data) <> [])
  /\ (forall d, Flow.fd_imageDetails fd !! sid = Some d ->
        Permutation (Flow.idt_allImages d) (Flow.arrival sid (Flow.pd_images data))
        /\ exists p rest,
             Flow.idt_allImages d = p :: rest
             /\ Flow.idt_id d = Flow.img_id p
             /\ Flow.fd_images fd !! sid = Some (Flow.CDN +:+ Flow.img_s3Key p)).
Proof.
  cbn zeta. unfold Flow.images_shown, Flow.truthy_at.
  cbn [Flow.flowData Flow.fd_images Flow.fd_imageDetails].
  unfold Flow.images_of, Flow.imageDetails_of. rewrite !lookup_omap.
  rewrite allImagesBySegment_lookup_all.
  destruct (Flow.arrival sid (Flow.pd_images data)) as [|i0 l0] eqn:Ea.
  { cbn. split; [reflexivity|].
    split; [split; [intros [? [=]] | intros H; contradiction]|].
    split; [split; [intros [? [=]] | intros H; contradiction]|].
    intros d [=]. }
  cbn [option_bind mbind].
  destruct (primary_entry_some (i0 :: l0)) as [[u d] He]; [discriminate|].
  destruct (primary_entry_shape _ _ _ He) as (Hperm & p & rest & Hall & Hu & Hid & Hk).
  rewrite He. cbn.
  assert (Hurl : u = Flow.CDN +:+ Flow.img_s3Key p).
  { rewrite Hu. apply (arrival_url sid (Flow.pd_images data)). rewrite Ea.
    eapply Permutation_in; [exact Hperm|]. rewrite Hall. left. reflexivity. }
  rewrite Hurl, cdn_url_nonempty.
  split; [reflexivity|].
  split; [split; [discriminate | eexists; reflexivity]|].
  split; [split; [discriminate | eexists; reflexivity]|].
  intros d' [= <-]. split; [exact Hperm|]. exists p, rest. auto.
Qed.

Lemma images_and_details_agree_witness :
  let data :=
    {| Flow.pd_segments := [];
       Flow.pd_images :=
         [ {| Flow.ri_id := JS.Num 11; Flow.ri_success := true;
              Flow.ri_s3Key := "images/b.png"; Flow.ri_uuid := "seg-1-1712345678901";
              Flow.ri_visualPrompt := None; Flow.ri_artStyle := None;
              Flow.ri_isPrimary := None |};
           {| Flow.ri_id := JS.Num 10; Flow.ri_success := true;
              Flow.ri_s3Key := "images/a.png"; Flow.ri_uuid := "seg-1";
              Flow.ri_visualPrompt := None; Flow.ri_artStyle := None;
              Flow.ri_isPrimary := Some true |} ];
       Flow.pd_videos := [] |} in
  Flow.fd_images (Flow.flowData data ∅) !! "1" = Some (Flow.CDN +:+ "images/a.png").
Proof.
  intros data.
  destruct (images_and_details_agree data ∅ "1") as (_ & _ & Hsome & Hd).
  destruct Hsome as [_ Hsome]. destruct Hsome as [d Ed]; [discriminate|].
  destruct (Hd d Ed) as (_ & p & rest & Hall & _ & Hurl).
  rewrite Hurl. vm_compute in Ed. injection Ed as <-.
  injection Hall as <- _. reflexivity.
Defined.

Section CanonicalVideos.

Import Flow.



Lemma videos_for_cons k v vs :
  videos_for k (v :: vs)
  = if video_usable v && String.eqb (video_segment_key (rv_uuid v)) k
    then v :: videos_for k vs else videos_for k vs.
Proof. reflexivity. Qed.

(** What the loop over the videos leaves under a key: the last usable
    video of that key, or what was there. *)
Lemma put_videos_lookup k vs : forall acc,
  fst (fold_left put_video vs acc) !! k
  = match last (videos_for k vs) with
    | Some v => Some (CDN +:+ first_file_key v)
    | None => fst acc !! k
    end
  /\ snd (fold_left put_video vs acc) !! k
     = match last (videos_for k vs) with
       | Some v => Some (detail_of v)
       | None => snd acc !! k
       end.
Proof.
  induction vs as [|v vs IH]; intros acc; [split; reflexivity|].
  cbn [fold_left]. destruct (IH (put_video acc v)) as [IH1 IH2].
  rewrite IH1, IH2, videos_for_cons. clear IH IH1 IH2.
  unfold put_video. destruct (video_usable v); cbn [andb]; [|split; reflexivity].
  destruct (String.eqb_spec (video_segment_key (rv_uuid v)) k) as [->|Hne].
  - rewrite last_cons. destruct (last (videos_for _ vs)); [split; reflexivity|].
    cbn [fst snd]. rewrite !lookup_insert_eq. split; reflexivity.
  - destruct (last (videos_for k vs)); [split; reflexivity|].
    cbn [fst snd]. rewrite !lookup_insert_ne by exact Hne. split; reflexivity.
Qed.

End CanonicalVideos.

(** X2.  Of the usable video records that share a key the last one in the
    list is the one shown: the canonical video and its details come from
    that record.  The merged map shows a preview in its place when there
    is one; a preview never has details of its own. *)
Theorem last_video_wins (data : Flow.project_data)
    (temporaryVideos : gmap string string) (k : string) :
  let fd := Flow.flowData data temporaryVideos in
  let shown := last (Flow.videos_for k (Flow.pd_videos data)) in
  Flow.fd_videoDetails fd !! k = Flow.detail_of <$> shown
  /\ Flow.fd_videos fd !! k
     = match temporaryVideos !! k with
       | Some preview => Some preview
       | None => (fun v => Flow.CDN +:+ Flow.first_file_key v) <$> shown
       end
  /\ (Flow.videos_for k (Flow.pd_videos data) = [] ->
      Flow.fd_videoDetails fd !! k = None
      /\ Flow.fd_videos fd !! k = temporaryVideos !! k).
Proof.
  cbn zeta. cbn [Flow.flowData Flow.fd_videos Flow.fd_videoDetails].
  rewrite add_temporary_lookup. unfold Flow.canonical_videos.
  destruct (put_videos_lookup k (Flow.pd_videos data) (∅, ∅)) as [H1 H2].
  rewrite H1, H2. cbn [fst snd]. rewrite !lookup_empty.
  split; [destruct (last _); reflexivity|].
  split; [destruct (temporaryVideos !! k), (last _); reflexivity|].
  intros ->. cbn. split; [reflexivity|].
  destruct (temporaryVideos !! k); reflexivity.
Qed.

Lemma last_video_wins_witness :
  let video (n : Z) (key : string) :=
    {| Flow.rv_id := JS.Num n; Flow.rv_success := true; Flow.rv_uuid := "seg-2";
       Flow.rv_videoFiles := [ {| Flow.vf_s3Key := key |} ];
       Flow.rv_artStyle := None; Flow.rv_imageS3Key := None |} in
  let data := {| Flow.pd_segments := []; Flow.pd_images := [];
                 Flow.pd_videos := [video 1%Z "videos/old.mp4"; video 2%Z "videos/new.mp4"] |} in
  Flow.fd_videos (Flow.flowData data ∅) !! "2" = Some (Flow.CDN +:+ "videos/new.mp4")
  /\ Flow.fd_videoDetails (Flow.flowData data ∅) !! "3" = None.
Proof.
  intros video data. split.
  - destruct (last_video_wins data ∅ "2") as (_ & H & _). rewrite H. reflexivity.
  - destruct (last_video_wins data ∅ "3") as (_ & _ & H). apply H. reflexivity.
Defined.

Section Previews.

Import Flow.

Lemma add_temporary_empty (videos : gmap string string) :
  add_temporary ∅ videos = videos.
Proof.
  apply map_eq. intros k. rewrite add_temporary_lookup, lookup_empty. reflexivity.
Qed.

(** The fetch leaves the previews and the four in-flight sets alone. *)
Lemma refresh_frame ctx f st :
  temporaryVideos (refreshProjectData ctx f st) = temporaryVideos st
  /\ regeneratingImages (refreshProjectData ctx f st) = regeneratingImages st
  /\ regeneratingVideos (refreshProjectData ctx f st) = regeneratingVideos st
  /\ creatingImages (refreshProjectData ctx f st) = creatingImages st
  /\ creatingVideos (refreshProjectData ctx f st) = creatingVideos st.
Proof.
  unfold refreshProjectData.
  destruct (negb (isAuthenticated ctx)); [auto|].
  destruct (negb (JS.truthy (storedProjectId ctx))); [cbn; auto|].
  destruct (f_segmentations f), (f_images f), (f_videos f); cbn; auto.
Qed.

End Previews.

(** X3.  When [handleCreateNewVideo] comes back with a key, the view
    shows the new video for that segment and image: the row of the image
    ends in a video node that carries the preview address.  No other key
    of the video map changes, and "Clear Previews" gives back the
    fetched videos alone. *)
Theorem preview_shows_in_row (segmentId imageId : JS.val)
    (r : Flow.gen_response) (st : Flow.state)
    (segment : Flow.segment) (image : Flow.image)
    (y : Z) (imageDetail : Flow.image_detail) (imageIndex : nat) :
  Flow.nonempty (Flow.s3_key r) = true ->
  Flow.seg_id segment = segmentId ->
  Flow.img_id image = imageId ->
  let st' := Flow.handleCreateNewVideo_settled segmentId imageId (Resolved r) st in
  let preview := Flow.CDN +:+ Flow.s3_key r in
  Flow.fd_videos (Flow.view st') !! Flow.videoKey segmentId imageId = Some preview
  /\ (exists image_n video_n,
        fst (Flow.image_row (Flow.view st') segment y imageDetail imageIndex image)
        = [image_n; video_n]
        /\ Flow.node_kind video_n = Flow.videoNode
        /\ exists videoId segmentData,
             Flow.node_payload video_n
             = Flow.VideoNodeData segmentId imageId preview videoId segmentData)
  /\ (forall k, k <> Flow.videoKey segmentId imageId ->
        Flow.fd_videos (Flow.view st') !! k = Flow.fd_videos (Flow.view st) !! k)
  /\ Flow.fd_videos (Flow.view (Flow.clearPreviews st'))
     = fst (Flow.canonical_videos (Flow.pd_videos (Flow.allProjectData st)))
  /\ imageId ∉ Flow.creatingVideos st'.
Proof.
  intros Hkey Hseg Himg st' preview.
  assert (Hview : forall k,
            Flow.fd_videos (Flow.view st') !! k
            = match <[Flow.videoKey segmentId imageId := preview]>
                      (Flow.temporaryVideos st) !! k with
              | Some p => Some p
              | None => fst (Flow.canonical_videos
                               (Flow.pd_videos (Flow.allProjectData st))) !! k
              end).
  { intros k. subst st'. unfold Flow.view, Flow.handleCreateNewVideo_settled.
    rewrite Hkey. cbn. apply add_temporary_lookup. }
  assert (Hshown : Flow.fd_videos (Flow.view st') !! Flow.videoKey segmentId imageId
                   = Some preview).
  { rewrite Hview, lookup_insert_eq. reflexivity. }
  split; [exact Hshown|]. split; [|split; [|split]].
  - unfold Flow.image_row, Flow.imageVideoUrl, Flow.truthy_at.
    rewrite Hseg, Himg. fold (Flow.videoKey segmentId imageId).
    rewrite Hshown. unfold preview at 1. rewrite cdn_url_nonempty.
    do 2 eexists. split; [reflexivity|]. split; [reflexivity|].
    do 2 eexists. reflexivity.
  - intros k Hk. rewrite Hview, lookup_insert_ne by congruence.
    unfold Flow.view. cbn. rewrite add_temporary_lookup. reflexivity.
  - subst st'. unfold Flow.view, Flow.clearPreviews, Flow.handleCreateNewVideo_settled.
    rewrite Hkey. cbn. apply add_temporary_empty.
  - subst st'. unfold Flow.handleCreateNewVideo_settled. rewrite Hkey. cbn.
    intros H. apply elem_of_difference in H as [_ H].
    apply H, elem_of_singleton. reflexivity.
Qed.

Lemma preview_shows_in_row_witness :
  let r := {| Flow.s3_key := "videos/preview.mp4" |} in
  let st' := Flow.handleCreateNewVideo_settled (JS.Num 1) (JS.Num 10) (Resolved r)
               Flow.initial in
  Flow.fd_videos (Flow.view st') !! "1-10" = Some (Flow.CDN +:+ "videos/preview.mp4")
  /\ Flow.fd_videos (Flow.view (Flow.clearPreviews st')) = ∅.
Proof.
  intros r st'.
  destruct (preview_shows_in_row (JS.Num 1) (JS.Num 10) r Flow.initial
              {| Flow.seg_id := JS.Num 1; Flow.seg_segmentId := JS.Undefined;
                 Flow.seg_visual := []; Flow.seg_narration := [];
                 Flow.seg_animation := [] |}
              {| Flow.img_id := JS.Num 10; Flow.img_url := Flow.CDN +:+ "images/a.png";
                 Flow.img_visualPrompt := None; Flow.img_artStyle := None;
                 Flow.img_s3Key := "images/a.png"; Flow.img_uuid := "seg-1";
                 Flow.img_isPrimary := true |}
              0%Z
              {| Flow.idt_id := JS.Num 10; Flow.idt_visualPrompt := None;
                 Flow.idt_artStyle := None; Flow.idt_s3Key := "images/a.png";
                 Flow.idt_allImages := [] |}
              0 eq_refl eq_refl eq_refl) as (H1 & _ & _ & H4 & _).
  split; [exact H1 | exact H4].
Defined.

(* ===================================================================== *)
(** * Further properties of the graph projection                          *)
(* ===================================================================== *)

Section GraphSize.

Import Flow.

Lemma concat_lengths_shifted {A B} (shift : nat) (l : list (list A * list B)) :
  Forall (fun r => length (fst r) = shift + length (snd r)) l ->
  length (concat (fst <$> l)) = shift * length l + length (concat (snd <$> l)).
Proof.
  induction 1 as [|r l Hr _ IH]; [cbn; lia|].
  cbn [fmap list_fmap concat length]. rewrite !length_app, IH, Hr. lia.
Qed.

Lemma concat_at_least_one {A B} (l : list (list A * list B)) :
  Forall (fun r => 1 <= length (snd r)) l ->
  length l <= length (concat (snd <$> l)).
Proof.
  induction 1 as [|r l Hr _ IH]; [cbn; lia|].
  cbn [fmap list_fmap concat length]. rewrite length_app. lia.
Qed.

Lemma image_row_lengths fd segment y imageDetail imageIndex image :
  length (fst (image_row fd segment y imageDetail imageIndex image)) = 2
  /\ length (snd (image_row fd segment y imageDetail imageIndex image)) = 2.
Proof.
  destruct (image_row_shape fd segment y imageDetail imageIndex image)
    as (n1 & n2 & e1 & e2 & -> & _). split; reflexivity.
Qed.

Lemma segment_rows_balanced fd segment y :
  Forall (fun r => length (fst r) = 0 + length (snd r)) (segment_rows fd segment y).
Proof.
  apply List.Forall_forall. intros r Hr. apply list_elem_of_In in Hr.
  unfold segment_rows in Hr.
  destruct (images_shown fd _) as [imageDetail|]; [|inversion Hr].
  apply elem_of_lookup_imap in Hr as (j & image & -> & _).
  destruct (image_row_lengths fd segment y imageDetail j image) as [-> ->].
  reflexivity.
Qed.

Lemma segment_block_lengths fd segIndex segment :
  length (fst (segment_block fd segIndex segment))
  = 1 + length (snd (segment_block fd segIndex segment)).
Proof.
  unfold segment_block. cbn [fst snd length].
  rewrite (concat_lengths_shifted 0 _ (segment_rows_balanced fd segment _)). lia.
Qed.

End GraphSize.

(** X4.  The graph of [createFlowElements] has as many nodes as it has
    edges and segments together, and at least two nodes and one edge for
    every segment: each segment contributes its node, its add-image node
    and the edge between them, and each image row two nodes and two
    edges. *)
Theorem graph_size (fd : Flow.flow_data) :
  let nodes := fst (Flow.createFlowElements fd) in
  let edges := snd (Flow.createFlowElements fd) in
  length nodes = length edges + length (Flow.fd_segments fd)
  /\ length (Flow.fd_segments fd) <= length edges.
Proof.
  cbn zeta. unfold Flow.createFlowElements. cbn [fst snd].
  assert (H : length (concat (fst <$> imap (Flow.segment_block fd) (Flow.fd_segments fd)))
              = 1 * length (imap (Flow.segment_block fd) (Flow.fd_segments fd))
                + length (concat (snd <$> imap (Flow.segment_block fd)
                                                (Flow.fd_segments fd)))).
  { apply concat_lengths_shifted. apply List.Forall_forall. intros b Hb.
    apply list_elem_of_In, elem_of_lookup_imap in Hb as (i & s & -> & _).
    apply segment_block_lengths. }
  rewrite length_imap in H.
  assert (Hedges : length (Flow.fd_segments fd)
                   <= length (concat (snd <$> imap (Flow.segment_block fd)
                                                    (Flow.fd_segments fd)))).
  { rewrite <- (length_imap (Flow.segment_block fd) (Flow.fd_segments fd)).
    apply concat_at_least_one. apply List.Forall_forall. intros b Hb.
    apply list_elem_of_In, elem_of_lookup_imap in Hb as (i & s & -> & _).
    unfold Flow.segment_block. cbn [snd length]. lia. }
  split; [lia | exact Hedges].
Qed.

Section Layout.

Import Flow.

(** Where a row is drawn: the image node in the third column and the
    node to its right in the fourth, at the height of the segment plus
    300 for every image above. *)
Lemma row_positions_at fd segment segIndex imageDetail imageIndex image :
  row_positions (image_row fd segment (segment_y segIndex) imageDetail imageIndex image)
  = [ {| pos_x := 490; pos_y := 50 + 600 * Z.of_nat segIndex + 300 * Z.of_nat imageIndex |};
      {| pos_x := 710; pos_y := 50 + 600 * Z.of_nat segIndex + 300 * Z.of_nat imageIndex |} ].
Proof.
  unfold row_positions, image_row, segment_y, startX, startY, nodeSpacing,
    rowSpacing, segmentSpacing.
  assert (Hx : (50 + 220 + 220 = 490)%Z) by reflexivity.
  assert (Hx' : (490 + 220 = 710)%Z) by reflexivity.
  assert (Hy : (50 + Z.of_nat segIndex * 600 + Z.of_nat imageIndex * 300
                = 50 + 600 * Z.of_nat segIndex + 300 * Z.of_nat imageIndex)%Z) by lia.
  destruct (imageVideoUrl fd _ _); cbn [fst fmap list_fmap node_position];
    rewrite Hx, Hx', Hy; reflexivity.
Qed.

End Layout.

(** X5.  Two image rows are drawn at the same place exactly when twice
    the index of the segment plus the index of the image agree.  So the
    third image of a segment lies on the first image of the next
    segment, the fourth on the second, and so on: the 600 between two
    segments leave room for two rows of 300. *)
Theorem rows_overlap (fd : Flow.flow_data)
    (segment segment' : Flow.segment) (segIndex segIndex' : nat)
    (imageDetail imageDetail' : Flow.image_detail)
    (imageIndex imageIndex' : nat) (image image' : Flow.image) :
  (Flow.row_positions
     (Flow.image_row fd segment (Flow.segment_y segIndex) imageDetail imageIndex image)
   = Flow.row_positions
       (Flow.image_row fd segment' (Flow.segment_y segIndex') imageDetail'
          imageIndex' image')
   <-> 2 * segIndex + imageIndex = 2 * segIndex' + imageIndex')
  /\ Flow.row_positions
       (Flow.image_row fd segment (Flow.segment_y segIndex) imageDetail
          (imageIndex + 2) image)
     = Flow.row_positions
         (Flow.image_row fd segment' (Flow.segment_y (S segIndex)) imageDetail'
            imageIndex image').
Proof.
  rewrite !row_positions_at. split; [split|].
  - intros [= H]. lia.
  - intros H.
    replace (300 * Z.of_nat imageIndex)%Z
      with (600 * Z.of_nat segIndex' + 300 * Z.of_nat imageIndex'
            - 600 * Z.of_nat segIndex)%Z by lia.
    replace (50 + 600 * Z.of_nat segIndex
             + (600 * Z.of_nat segIndex' + 300 * Z.of_nat imageIndex'
                - 600 * Z.of_nat segIndex))%Z
      with (50 + 600 * Z.of_nat segIndex' + 300 * Z.of_nat imageIndex')%Z by lia.
    reflexivity.
  - replace (50 + 600 * Z.of_nat (S segIndex) + 300 * Z.of_nat imageIndex)%Z
      with (50 + 600 * Z.of_nat segIndex + 300 * Z.of_nat (imageIndex + 2))%Z by lia.
    reflexivity.
Qed.

(* ===================================================================== *)
(** * Further properties of the per-entity handlers                       *)
(* ===================================================================== *)

Section HandlerFrames.

Import Flow.

Lemma add_then_remove (S : gset JS.val) (k : JS.val) :
  k ∉ S -> (S ∪ {[k]}) ∖ {[k]} = S.
Proof.
  intros Hk. apply set_eq. intros x.
  rewrite elem_of_difference, elem_of_union, elem_of_singleton. split.
  - intros [[H | H] Hne]; [exact H | contradiction].
  - intros H. split; [left; exact H | intros ->; contradiction].
Qed.

Lemma remove_absent (S : gset JS.val) (k : JS.val) : k ∉ S -> S ∖ {[k]} = S.
Proof.
  intros Hk. apply set_eq. intros x.
  rewrite elem_of_difference, elem_of_singleton. split.
  - intros [H _]. exact H.
  - intros H. split; [exact H | intros ->; contradiction].
Qed.

(** Settling takes the key out of the set of the operation and leaves
    the other sets alone. *)
Lemma settle_sets ctx op gen f st :
  in_flight_sets (settle ctx op gen f st)
  = with_key op (fun S => S ∖ {[entityKey op]}) st.
Proof.
  destruct op as [k sd | k sd | k sd | s k sd]; cbn [settle entityKey with_key];
    unfold handleRegenerateImage_settled, handleRegenerateVideo_settled,
      handleCreateNewImage_settled, handleCreateNewVideo_settled, in_flight_sets.
  - destruct (truthy_key (sd_s3Key sd)); [|destruct gen]; cbn;
      try reflexivity;
      destruct (refresh_frame ctx f st) as (_ & -> & -> & -> & ->); reflexivity.
  - destruct gen; cbn; try reflexivity;
      destruct (refresh_frame ctx f st) as (_ & -> & -> & -> & ->); reflexivity.
  - destruct gen; cbn; try reflexivity;
      destruct (refresh_frame ctx f st) as (_ & -> & -> & -> & ->); reflexivity.
  - destruct gen as [r|m]; [destruct (nonempty (s3_key r))|]; reflexivity.
Qed.

(** Invoking an operation whose key is not in flight either leaves the
    sets as they are or puts the key into the set of the operation. *)
Lemma invoke_sets ctx op st :
  entityKey op ∉ in_flight op st ->
  in_flight_sets (fst (invoke ctx op st)) = in_flight_sets st
  \/ in_flight_sets (fst (invoke ctx op st))
     = with_key op (fun S => S ∪ {[entityKey op]}) st.
Proof.
  intros Hk.
  destruct op as [k sd | k sd | k sd | s k sd]; cbn [invoke entityKey with_key in_flight] in *;
    unfold handleRegenerateImage, handleRegenerateVideo, handleCreateNewImage,
      handleCreateNewVideo;
    destruct (negb (isAuthenticated ctx)); cbn [orb]; auto;
    try rewrite (bool_decide_false _ Hk);
    destruct (negb (JS.truthy (storedProjectId ctx))); auto.
  - destruct (truthy_key (sd_s3Key sd)); right; reflexivity.
  - destruct (targetImage st s k); [right; reflexivity|].
    left. unfold in_flight_sets. cbn. rewrite add_then_remove by exact Hk. reflexivity.
Qed.

Lemma invoke_previews ctx op st :
  temporaryVideos (fst (invoke ctx op st)) = temporaryVideos st.
Proof.
  destruct op as [k sd | k sd | k sd | s k sd]; cbn [invoke];
    unfold handleRegenerateImage, handleRegenerateVideo, handleCreateNewImage,
      handleCreateNewVideo;
    repeat case_match; reflexivity.
Qed.

Lemma settle_previews ctx op gen f st k :
  (forall s i sd, op = CreateNewVideo s i sd -> k <> videoKey s i) ->
  temporaryVideos (settle ctx op gen f st) !! k = temporaryVideos st !! k.
Proof.
  intros Hk.
  destruct op as [e sd | e sd | e sd | s e sd]; cbn [settle];
    unfold handleRegenerateImage_settled, handleRegenerateVideo_settled,
      handleCreateNewImage_settled, handleCreateNewVideo_settled.
  - destruct (truthy_key (sd_s3Key sd)); [|destruct gen]; cbn; try reflexivity;
      destruct (refresh_frame ctx f st) as (-> & _); reflexivity.
  - destruct gen; cbn; try reflexivity;
      destruct (refresh_frame ctx f st) as (-> & _); reflexivity.
  - destruct gen; cbn; try reflexivity;
      destruct (refresh_frame ctx f st) as (-> & _); reflexivity.
  - destruct gen as [r|m]; [destruct (nonempty (s3_key r))|]; cbn; try reflexivity.
    apply lookup_insert_ne. intros E. exact (Hk s e sd eq_refl (eq_sym E)).
Qed.

End HandlerFrames.

(** X6.  An operation invoked while its key is not in flight and then
    settled, whatever its request and the refresh answer, leaves the
    four in-flight sets exactly as they were before the invocation, and
    keeps every preview video; only a new preview of the same segment
    and image can take the place of one. *)
Theorem invoke_settle_round_trip (ctx : Flow.context) (op : Flow.operation)
    (gen : outcome Flow.gen_response) (f : Flow.fetches) (st : Flow.state) :
  Flow.entityKey op ∉ Flow.in_flight op st ->
  let st' := Flow.settle ctx op gen f (fst (Flow.invoke ctx op st)) in
  Flow.in_flight_sets st' = Flow.in_flight_sets st
  /\ (forall k, (forall s i sd, op = Flow.CreateNewVideo s i sd -> k <> Flow.videoKey s i) ->
        Flow.temporaryVideos st' !! k = Flow.temporaryVideos st !! k).
Proof.
  intros Hk st'. subst st'. split.
  - rewrite settle_sets.
    pose proof (invoke_sets ctx op st Hk) as H.
    set (st1 := fst (Flow.invoke ctx op st)) in *. clearbody st1.
    destruct H as [H | H];
      unfold Flow.in_flight_sets in H;
      destruct op as [k sd | k sd | k sd | s k sd];
      cbn [Flow.with_key Flow.entityKey Flow.in_flight] in *;
      injection H as -> -> -> ->; unfold Flow.in_flight_sets;
      rewrite ?add_then_remove, ?remove_absent by exact Hk; reflexivity.
  - intros k Hne. rewrite settle_previews by exact Hne.
    rewrite invoke_previews. reflexivity.
Qed.

Lemma invoke_settle_round_trip_witness :
  let ctx := {| Flow.isAuthenticated := true; Flow.storedProjectId := JS.Num 7;
                Flow.selectedImageModel := Some "recraft-v3";
                Flow.selectedVideoModel := Some "kling-v2.1-master";
                Flow.now := 1712345678901 |} in
  let op := Flow.RegenerateVideo (JS.Num 9)
              {| Flow.sd_id := JS.Num 1; Flow.sd_visual := None;
                 Flow.sd_animation := Some (JS.lit "the dog runs");
                 Flow.sd_artStyle := None; Flow.sd_imageS3Key := Some "images/a.png";
                 Flow.sd_s3Key := None |} in
  let f := {| Flow.f_segmentations := Rejected "Network Error";
              Flow.f_images := Rejected "Network Error";
              Flow.f_videos := Rejected "Network Error" |} in
  JS.Num 9 ∈ Flow.regeneratingVideos (fst (Flow.invoke ctx op Flow.initial))
  /\ Flow.in_flight_sets
       (Flow.settle ctx op (Resolved {| Flow.s3_key := "videos/9.mp4" |}) f
          (fst (Flow.invoke ctx op Flow.initial)))
     = Flow.in_flight_sets Flow.initial.
Proof.
  intros ctx op f. split.
  - apply (bool_decide_unpack _). vm_compute. exact I.
  - apply (invoke_settle_round_trip ctx op). cbn. apply not_elem_of_empty.
Defined.

Section MakePrimary.

Import Flow.

Lemma find_image_some (imageId : JS.val) (allImages : list image) img :
  In img allImages -> img_id img = imageId ->
  is_Some (List.find (fun i => bool_decide (img_id i = imageId)) allImages).
Proof.
  intros Hin Hid. induction allImages as [|a l IH]; [destruct Hin|].
  cbn [List.find]. destruct (decide (img_id a = imageId)) as [Ha|Ha].
  - rewrite bool_decide_true by exact Ha. eexists. reflexivity.
  - rewrite bool_decide_false by exact Ha.
    destruct Hin as [->|Hin]; [contradiction | apply IH, Hin].
Qed.

(** With one flagged image in a list, the sort puts it first. *)
Lemma sorted_head_flagged l x :
  In x l -> img_isPrimary x = true ->
  (forall y, In y l -> img_isPrimary y = true -> y = x) ->
  exists rest, array_sort compare_primary l = x :: rest.
Proof.
  intros Hin Hx Hone. rewrite array_sort_primary.
  assert (Hf : In x (List.filter img_isPrimary l)).
  { apply List.filter_In. split; assumption. }
  destruct (List.filter img_isPrimary l) as [|h t] eqn:E; [destruct Hf|].
  assert (Hh : In h (List.filter img_isPrimary l)) by (rewrite E; left; reflexivity).
  apply List.filter_In in Hh as [Hhl Hhp].
  rewrite (Hone h Hhl Hhp). eexists. reflexivity.
Qed.

End MakePrimary.

(** X7.  Making an image primary, from the click to the view.  With a
    session, a stored project and the image among those of the node,
    [handleMakePrimary] sends one request, for that project and that
    image, and changes nothing by itself.  When the request succeeds and
    the refresh brings the images back with that image as the only
    flagged one of its segment, the view shows it as the image of the
    segment and lists it first. *)
Theorem make_primary_end_to_end (ctx : Flow.context) (imageId segmentId : JS.val)
    (allImages : list Flow.image) (st : Flow.state) (f : Flow.fetches)
    (segs : option (Flow.response Flow.segmentation))
    (imgs : Flow.response Flow.raw_image)
    (vids : option (Flow.response Flow.raw_video))
    (fetched : list Flow.raw_image) (raw : Flow.raw_image) (k : string) :
  Flow.isAuthenticated ctx = true ->
  JS.truthy (Flow.storedProjectId ctx) = true ->
  (exists img, In img allImages /\ Flow.img_id img = imageId) ->
  Flow.f_segmentations f = Resolved segs ->
  Flow.f_images f = Resolved (Some imgs) ->
  Flow.f_videos f = Resolved vids ->
  Flow.resp_data imgs = Some fetched ->
  In raw fetched ->
  Flow.image_usable raw = true ->
  Flow.image_segment_key (Flow.ri_uuid raw) = k ->
  Flow.ri_isPrimary raw = Some true ->
  (forall other, In other (Flow.arrival k fetched) ->
     Flow.img_isPrimary other = true -> other = Flow.image_of raw) ->
  Flow.handleMakePrimary ctx imageId segmentId allImages st
  = (st, [Flow.SetPrimaryImage (Flow.storedProjectId ctx) imageId])
  /\ let st' := Flow.handleMakePrimary_settled ctx segmentId (Resolved tt) f st in
     Flow.fd_images (Flow.view st') !! k = Some (Flow.CDN +:+ Flow.ri_s3Key raw)
     /\ exists d rest,
          Flow.fd_imageDetails (Flow.view st') !! k = Some d
          /\ Flow.idt_allImages d = Flow.image_of raw :: rest
          /\ Flow.idt_id d = Flow.ri_id raw.
Proof.
  intros Ha Hp (img & Hin & Hid) Es Ei Ev Ed Hraw Hu Hk Hflag Hone.
  split.
  - unfold Flow.handleMakePrimary. rewrite Ha, Hp. cbn [negb].
    destruct (find_image_some imageId allImages img Hin Hid) as [x ->]. reflexivity.
  - cbn zeta. unfold Flow.handleMakePrimary_settled, Flow.view.
    rewrite (refresh_resolved ctx f st segs (Some imgs) vids Ha Hp Es Ei Ev).
    cbn [Flow.addFlowMessage Flow.setLoading Flow.setAllProjectData Flow.allProjectData
         Flow.temporaryVideos Flow.flowData Flow.fd_images Flow.fd_imageDetails
         Flow.pd_images].
    unfold Flow.data_or_empty. cbn [mbind option_bind]. rewrite Ed. cbn [default]. unfold id.
    assert (Harr : In (Flow.image_of raw) (Flow.arrival k fetched)).
    { unfold Flow.arrival. apply list_elem_of_In, list_elem_of_fmap.
      exists raw. split; [reflexivity|]. apply list_elem_of_In, List.filter_In.
      split; [exact Hraw|]. rewrite Hu, Hk, String.eqb_refl. reflexivity. }
    assert (Hprim : Flow.img_isPrimary (Flow.image_of raw) = true).
    { cbn. unfold Flow.primary_flag. rewrite Hflag. reflexivity. }
    destruct (sorted_head_flagged _ _ Harr Hprim Hone) as [rest Hsort].
    unfold Flow.images_of, Flow.imageDetails_of. rewrite !lookup_omap.
    rewrite allImagesBySegment_lookup_all.
    destruct (Flow.arrival k fetched) as [|a l] eqn:Ea; [destruct Harr|].
    cbn [mbind option_bind]. unfold Flow.primary_entry. rewrite Hsort. cbn.
    split; [reflexivity|]. do 2 eexists. repeat split.
Qed.

Lemma make_primary_end_to_end_witness :
  let ctx := {| Flow.isAuthenticated := true; Flow.storedProjectId := JS.Num 7;
                Flow.selectedImageModel := Some "recraft-v3";
                Flow.selectedVideoModel := Some "kling-v2.1-master";
                Flow.now := 1712345678901 |} in
  let raw (n : Z) (uuid key : string) (flag : bool) :=
    {| Flow.ri_id := JS.Num n; Flow.ri_success := true;
       Flow.ri_s3Key := key; Flow.ri_uuid := uuid;
       Flow.ri_visualPrompt := None; Flow.ri_artStyle := None;
       Flow.ri_isPrimary := Some flag |} in
  let fetched := [raw 10%Z "seg-1" "images/a.png" false;
                  raw 11%Z "seg-1-1712345678901" "images/b.png" true] in
  let f := {| Flow.f_segmentations := Resolved None;
              Flow.f_images := Resolved (Some {| Flow.resp_success := true;
                                                 Flow.resp_data := Some fetched |});
              Flow.f_videos := Resolved None |} in
  Flow.fd_images
    (Flow.view (Flow.handleMakePrimary_settled ctx (JS.Num 1) (Resolved tt) f Flow.initial))
    !! "1" = Some (Flow.CDN +:+ "images/b.png").
Proof.
  intros ctx raw fetched f.
  refine (proj1 (proj2 (make_primary_end_to_end ctx (JS.Num 11) (JS.Num 1)
            [Flow.image_of (raw 11%Z "seg-1-1712345678901" "images/b.png" true)]
            Flow.initial f None
            {| Flow.resp_success := true; Flow.resp_data := Some fetched |} None
            fetched (raw 11%Z "seg-1-1712345678901" "images/b.png" true) "1"
            eq_refl eq_refl _ eq_refl eq_refl eq_refl eq_refl _ eq_refl eq_refl eq_refl _))).
  - eexists. split; [left; reflexivity | reflexivity].
  - right; left. reflexivity.
  - intros other [<- | [<- | []]]; [discriminate | reflexivity].
Defined.

(* ===================================================================== *)
(** * The text preview of the sidebar                                     *)
(* ===================================================================== *)

Section Markdown.

Import JS Chat Sidebar.

Lemma strip_markup_filter s :
  strip_markup s = List.filter (fun c => negb (is_markup c)) s.
Proof.
  remember (length s) as n eqn:Hn.
  revert s Hn. induction n as [n IH] using lt_wf_ind. intros s Hn.
  destruct s as [|c [|c' s'']].
  - reflexivity.
  - cbn. destruct (is_markup c); reflexivity.
  - assert (H1 : strip_markup (c' :: s'')
                 = List.filter (fun c => negb (is_markup c)) (c' :: s'')).
    { apply (IH (length (c' :: s''))); [subst n; cbn; lia | reflexivity]. }
    assert (H2 : strip_markup s'' = List.filter (fun c => negb (is_markup c)) s'').
    { apply (IH (length s'')); [subst n; cbn; lia | reflexivity]. }
    change (strip_markup (c :: c' :: s''))
      with (if (c =? 42)%N && (c' =? 42)%N then strip_markup s''
            else if (c =? 95)%N && (c' =? 95)%N then strip_markup s''
            else if is_markup c then strip_markup (c' :: s'')
            else c :: strip_markup (c' :: s'')).
    rewrite H1, H2. clear H1 H2 IH Hn.
    set (keep := fun c => negb (is_markup c)).
    change (List.filter keep (c :: c' :: s''))
      with (if keep c then c :: List.filter keep (c' :: s'')
            else List.filter keep (c' :: s'')).
    destruct (N.eqb_spec c 42) as [->|Hc].
    + destruct (N.eqb_spec c' 42) as [->|Hc']; reflexivity.
    + cbn [andb].
      destruct (N.eqb_spec c 95) as [->|Hc2].
      * destruct (N.eqb_spec c' 95) as [->|Hc']; reflexivity.
      * cbn [andb]. unfold keep. destruct (is_markup c); reflexivity.
Qed.

Lemma filter_clean (f : N -> bool) s :
  Forall (fun c => f c = true) s -> List.filter f s = s.
Proof.
  induction 1 as [|c s Hc _ IH]; cbn; [reflexivity|]. rewrite Hc, IH. reflexivity.
Qed.

Lemma Forall_filter_keeps (f : N -> bool) s :
  Forall (fun c => f c = true) (List.filter f s).
Proof.
  induction s as [|c s IH]; cbn; [constructor|].
  destruct (f c) eqn:E; [constructor; assumption | assumption].
Qed.

Lemma trim_start_clean s : starts_clean s -> trim_start s = s.
Proof.
  destruct s as [|c s]; [reflexivity|]. intros H. cbn.
  rewrite (H c eq_refl). reflexivity.
Qed.

Lemma trim_end_clean s : ends_clean s -> trim_end s = s.
Proof.
  induction s as [|c s IH]; [reflexivity|]. intros H.
  cbn [trim_end]. destruct s as [|c' s].
  - cbn. rewrite (H c eq_refl). reflexivity.
  - rewrite IH; [reflexivity|].
    intros d E. apply H. rewrite last_cons, E. reflexivity.
Qed.

Lemma trim_idempotent s : trim (trim s) = trim s.
Proof.
  unfold trim.
  rewrite (trim_start_clean (trim_end (trim_start s))).
  - apply trim_end_clean, ends_clean_trim_end.
  - apply starts_clean_trim_end, starts_clean_trim_start.
Qed.

Lemma trim_length s : (length (trim s) <= length s)%nat.
Proof.
  unfold trim.
  assert (He : forall t, (length (trim_end t) <= length t)%nat).
  { induction t as [|c t IH]; cbn [trim_end]; [reflexivity|].
    destruct (trim_end t); [destruct (is_space c)|]; cbn in *; lia. }
  assert (Hs : forall t, (length (trim_start t) <= length t)%nat).
  { induction t as [|c t IH]; cbn [trim_start]; [reflexivity|].
    destruct (is_space c); cbn in *; lia. }
  etransitivity; [apply He | apply Hs].
Qed.

End Markdown.

(** X8.  The preview text [stripMarkdown] gives holds none of the
    characters [*], [_], backquote and [#]; it neither begins nor ends
    with white space; it is never longer than the text it was given;
    every other character of the text is kept, in its order, up to the
    white space cut at the two ends; and cleaning a cleaned text changes
    nothing. *)
Theorem stripMarkdown_clean (s : JS.str) :
  let txt := Sidebar.stripMarkdown s in
  Forall (fun c => Sidebar.is_markup c = false) txt
  /\ Chat.starts_clean txt /\ Chat.ends_clean txt
  /\ (length txt <= length s)%nat
  /\ txt = JS.trim (List.filter (fun c => negb (Sidebar.is_markup c)) s)
  /\ Sidebar.stripMarkdown txt = txt.
Proof.
  cbn zeta. unfold Sidebar.stripMarkdown.
  rewrite strip_markup_filter.
  set (keep := fun c => negb (Sidebar.is_markup c)).
  assert (Hk : Forall (fun c => keep c = true) (JS.trim (List.filter keep s))).
  { unfold JS.trim. apply Forall_trim_end, Forall_trim_start, Forall_filter_keeps. }
  split; [|split; [|split; [|split; [|split]]]].
  - eapply Forall_impl; [exact Hk|]. intros c Hc. unfold keep in Hc.
    destruct (Sidebar.is_markup c); [discriminate | reflexivity].
  - apply starts_clean_trim_end, starts_clean_trim_start.
  - apply ends_clean_trim_end.
  - etransitivity; [apply trim_length|]. apply List.filter_length_le.
  - reflexivity.
  - rewrite strip_markup_filter. fold keep.
    rewrite (filter_clean keep _ Hk). apply trim_idempotent.
Qed.

(* ===================================================================== *)
(** * The models on offer and their prices                                *)
(* ===================================================================== *)

Section Models.

Import Sidebar.

Lemma finish_notice kind ctx b st' :
  finish kind ctx b = Some st' ->
  (0 < length (launched b))%nat ->
  creditDeductionMessage st'
  = Some (Deducted match kind with
                   | image => "Image Generation"
                   | video => "Video Generation"
                   end (model_of kind ctx) (length (launched b))).
Proof.
  intros H Hn.
  destruct kind; cbn [finish] in H;
    unfold runImageGeneration_finish, runVideoGeneration_finish in H;
    destruct (all_settled b); try discriminate; injection H as <-.
  - reflexivity.
  - destruct (Nat.ltb_spec 0 (length (launched b))); [reflexivity | lia].
Qed.

End Models.

(** X9.  The model a service call falls back to is the model the
    selector offers first.  For a generation type written in ASCII
    letters of any case, [getDefaultModel] is the first key of
    [getAvailableModels]; it exists exactly for the types image and
    video; and a request built without a model carries the default model
    of its own generation type. *)
Theorem default_model_offered (genType : string)
    (a : Chat.image_args) (v : Chat.video_args) :
  JS.ascii_text genType = true ->
  Chat.getDefaultModel genType = fst <$> head (Chat.getAvailableModels genType)
  /\ (is_Some (Chat.getDefaultModel genType)
      <-> JS.toUpperCase genType = "IMAGE" \/ JS.toUpperCase genType = "VIDEO")
  /\ (Chat.ia_model a = None ->
      Chat.getDefaultModel (Chat.ip_gen_type (Chat.generateImage_payload a))
      = Some (Chat.ip_model (Chat.generateImage_payload a)))
  /\ (Chat.va_model v = None ->
      Chat.getDefaultModel (Chat.vp_gen_type (Chat.generateVideo_payload v))
      = Some (Chat.vp_model (Chat.generateVideo_payload v))).
Proof.
  intros _. unfold Chat.getDefaultModel, Chat.getAvailableModels.
  split; [|split; [|split]].
  - destruct (JS.entry Chat.AVAILABLE_MODELS (JS.toUpperCase genType)); reflexivity.
  - unfold Chat.AVAILABLE_MODELS. cbn [JS.entry].
    destruct (String.eqb_spec "IMAGE" (JS.toUpperCase genType)) as [E|E].
    + cbn. split; [auto | eauto].
    + destruct (String.eqb_spec "VIDEO" (JS.toUpperCase genType)) as [E'|E'].
      * cbn. split; [auto | eauto].
      * split.
        -- intros [x Hx]. discriminate.
        -- intros [H|H]; congruence.
  - intros Ha. cbn. rewrite Ha. reflexivity.
  - intros Hv. cbn. rewrite Hv. reflexivity.
Qed.

Lemma default_model_offered_witness :
  JS.ascii_text "Video" = true
  /\ Chat.getDefaultModel "Video" = Some "kling-v2.1-master"
  /\ is_Some (Chat.getDefaultModel "Video").
Proof.
  split; [reflexivity|].
  destruct (default_model_offered "Video"
              {| Chat.ia_visual_prompt := None; Chat.ia_art_style := None;
                 Chat.ia_uuid := JS.Num 1; Chat.ia_project_id := JS.Undefined;
                 Chat.ia_model := None |}
              {| Chat.va_animation_prompt := None; Chat.va_art_style := None;
                 Chat.va_image_s3_key := None;
                 Chat.va_uuid := JS.Num 1; Chat.va_project_id := JS.Undefined;
                 Chat.va_model := None |} eq_refl) as (Hd & Hiff & _).
  split.
  - rewrite Hd. reflexivity.
  - apply Hiff. right. reflexivity.
Defined.

(** X10.  The amount of the notice at the end of a batch.  When a batch
    of [n] tasks ([n] at least one) ends and the model it ran with is one
    the service offers for its kind, the notice shows [n] credits for
    [recraft-v3], [2 n] for [imagen] and [12.5 n] for [gen4_turbo]; for
    [kling-v2.1-master], the video model chosen by default, it shows
    zero credits, because the price table has no entry under that
    name. *)
Theorem batch_notice_amounts (kind : Sidebar.task_kind) (ctx : Sidebar.context)
    (b : Sidebar.batch) (st' : Sidebar.state) (m : string) :
  Sidebar.finish kind ctx b = Some st' ->
  (0 < length (Sidebar.launched b))%nat ->
  Sidebar.model_of kind ctx = Some m ->
  In m (fst <$> Chat.getAvailableModels match kind with
                                        | Sidebar.image => "image"
                                        | Sidebar.video => "video"
                                        end) ->
  exists c,
    Sidebar.creditDeductionMessage st' ≫= Pricing.notice_credits = Some c
    /\ let n := QArith_base.inject_Z (Z.of_nat (length (Sidebar.launched b))) in
       (m = "recraft-v3" /\ QArith_base.Qeq c n)
       \/ (m = "imagen" /\ QArith_base.Qeq c (QArith_base.Qmult (QArith_base.inject_Z 2) n))
       \/ (m = "gen4_turbo"
           /\ QArith_base.Qeq c (QArith_base.Qmult (QArith_base.Qmake 25 2) n))
       \/ (m = "kling-v2.1-master" /\ QArith_base.Qeq c (QArith_base.inject_Z 0)).
Proof.
  intros Hfinish Hn Hm Hin.
  rewrite (finish_notice _ _ _ _ Hfinish Hn), Hm.
  cbn [mbind option_bind Pricing.notice_credits].
  destruct kind; cbn in Hin.
  - destruct Hin as [<-|[<-|[]]].
    + eexists. split; [reflexivity|]. left. split; [reflexivity|].
      change (Pricing.getImageCreditCost _ false) with (QArith_base.Qmake 4 4).
      unfold QArith_base.Qeq. cbn. lia.
    + eexists. split; [reflexivity|]. right. left. split; [reflexivity|].
      change (Pricing.getImageCreditCost _ false) with (QArith_base.Qmake 8 4).
      unfold QArith_base.Qeq. cbn. lia.
  - destruct Hin as [<-|[<-|[]]].
    + eexists. split; [reflexivity|]. right. right. right. split; [reflexivity|].
      change (Pricing.getVideoCreditCost _ 5 false)
        with (QArith_base.Qmult (QArith_base.Qmake 0 4) (QArith_base.inject_Z 5)).
      unfold QArith_base.Qeq. cbn. lia.
    + eexists. split; [reflexivity|]. right. right. left. split; [reflexivity|].
      change (Pricing.getVideoCreditCost _ 5 false)
        with (QArith_base.Qmult (QArith_base.Qmake 10 4) (QArith_base.inject_Z 5)).
      unfold QArith_base.Qeq. cbn. lia.
Qed.

Lemma batch_notice_amounts_witness :
  let ctx := {| Sidebar.prompt := JS.lit "a dog on a beach";
                Sidebar.selectedProject := Some {| Sidebar.project_id := JS.Num 7 |};
                Sidebar.selectedImageModel := Chat.getDefaultModel "IMAGE";
                Sidebar.selectedVideoModel := Chat.getDefaultModel "VIDEO" |} in
  let seg (n : Z) (text : string) :=
    {| Sidebar.id := JS.Num n; Sidebar.segmentId := JS.Undefined;
       Sidebar.uuid := JS.Undefined;
       Sidebar.visual := Some (JS.lit text); Sidebar.animation := None;
       Sidebar.narration := None; Sidebar.s3Key := None;
       Sidebar.image_s3_key := None; Sidebar.imageS3Key := None;
       Sidebar.videoUrl := None; Sidebar.video_url := None |} in
  let script := {| Sidebar.segments := Some [seg 1%Z "a dog"; seg 2%Z "a beach"];
                   Sidebar.artStyle := None |} in
  let st := Sidebar.setGeneratedImages
              {[ "1" := "https://d.cloudfront.net/images/1.png" ]}
              (Sidebar.handleScriptSelect script Sidebar.initial) in
  let evs := [ Sidebar.GenerationSettled 0 (Resolved {| Flow.s3_key := "videos/1.mp4" |});
               Sidebar.DownloadSettled 0 (Resolved "blob:v1") ] in
  exists b0 b st' c,
    Sidebar.launch Sidebar.video ctx st = inr b0
    /\ Sidebar.run (Sidebar.on_event Sidebar.video) b0 evs = Some b
    /\ Sidebar.finish Sidebar.video ctx b = Some st'
    /\ length (Sidebar.launched b) = 1
    /\ Sidebar.creditDeductionMessage st' ≫= Pricing.notice_credits = Some c
    /\ QArith_base.Qeq c (QArith_base.inject_Z 0).
Proof.
  intros ctx seg script st evs.
  destruct (Sidebar.launch Sidebar.video ctx st) as [|b0] eqn:E0;
    [vm_compute in E0; discriminate E0|].
  destruct (Sidebar.run (Sidebar.on_event Sidebar.video) b0 evs) as [b|] eqn:E1;
    [|vm_compute in E0; injection E0 as <-; vm_compute in E1; discriminate E1].
  destruct (Sidebar.finish Sidebar.video ctx b) as [st'|] eqn:E2;
    [|vm_compute in E0; injection E0 as <-; vm_compute in E1; injection E1 as <-;
      vm_compute in E2; discriminate E2].
  assert (Hb : Sidebar.launched b = [(0, seg 1%Z "a dog")]).
  { rewrite (run_launched _ _ _ _ E1). vm_compute in E0. injection E0 as <-.
    reflexivity. }
  destruct (batch_notice_amounts Sidebar.video ctx b st' "kling-v2.1-master" E2)
    as (c & Hc & Hcases).
  - rewrite Hb. cbn. lia.
  - reflexivity.
  - cbn. left. reflexivity.
  - exists b0, b, st', c.
    split; [reflexivity|]. split; [exact E1|]. split; [exact E2|].
    split; [rewrite Hb; reflexivity|]. split; [exact Hc|].
    destruct Hcases as [[H _]|[[H _]|[[H _]|[_ H]]]]; try discriminate H.
    exact H.
Defined.

(* ===================================================================== *)
(** * The steps of the sidebar                                            *)
(* ===================================================================== *)

Section StepGuards.

Import Sidebar.

Lemma derive_status_steps ctx st p :
  selectedProject ctx = Some p ->
  let st' := derive_status ctx st in
  stepStatus st' !! 0
  = Some (done_if match concepts st with Some (_ :: _) => true | _ => false end)
  /\ stepStatus st' !! 1 = Some (done_if (bool_decide (is_Some (selectedConcept st))))
  /\ stepStatus st' !! 2 = Some (done_if (has_segments (selectedScript st)))
  /\ stepStatus st' !! 3 = Some (done_if (has_segments (selectedScript st)))
  /\ stepStatus st' !! 4 = Some (done_if (hasImages st))
  /\ stepStatus st' !! 5 = Some (done_if (hasVideos st)).
Proof.
  intros Hp. unfold derive_status. rewrite Hp.
  cbn [setStepStatus stepStatus].
  repeat split;
    repeat (rewrite lookup_insert_ne by discriminate); apply lookup_insert_eq.
Qed.

Lemma derive_status_disabled ctx st i :
  isStepDisabled i (derive_status ctx st) = isStepDisabled i st.
Proof.
  unfold derive_status. destruct (selectedProject ctx); reflexivity.
Qed.

Lemma done_if_Done b : done_if b = Done -> b = true.
Proof. destruct b; [reflexivity | discriminate]. Qed.

Lemma has_segments_enabled st :
  loading st = false -> has_segments (selectedScript st) = true ->
  isStepDisabled 3 st = false /\ isStepDisabled 4 st = false.
Proof.
  intros Hl H. unfold isStepDisabled. rewrite Hl.
  destruct (selectedScript st) as [[[l|] a]|]; try discriminate H.
  split; reflexivity.
Qed.

End StepGuards.

(** X11.  A finished step unlocks the next one, but for the last.  With
    a project selected and nothing loading, whenever the status derived
    from the data shows one of the steps 0 to 3 as done, the step after
    it is enabled.  Step 5 is enabled exactly when [generatedImages] is
    not empty; so step 4 is shown as done while step 5 stays disabled
    exactly when no image was generated in the sidebar and a segment of
    the script carries the key of a stored image. *)
Theorem done_step_unlocks_next (ctx : Sidebar.context) (st : Sidebar.state)
    (p : Sidebar.project) :
  Sidebar.selectedProject ctx = Some p ->
  Sidebar.loading st = false ->
  let st' := Sidebar.derive_status ctx st in
  (forall i, (i <= 3)%nat -> Sidebar.stepStatus st' !! i = Some Sidebar.Done ->
     Sidebar.isStepDisabled (S i) st' = false)
  /\ (Sidebar.isStepDisabled 5 st' = false <-> Sidebar.generatedImages st <> ∅)
  /\ (Sidebar.stepStatus st' !! 4 = Some Sidebar.Done
      /\ Sidebar.isStepDisabled 5 st' = true
      <-> Sidebar.generatedImages st = ∅
          /\ Sidebar.some_segment
               (fun seg => Sidebar.is_set (Sidebar.s3Key seg)
                           || Sidebar.is_set (Sidebar.image_s3_key seg)
                           || Sidebar.is_set (Sidebar.imageS3Key seg))
               (Sidebar.selectedScript st) = true).
Proof.
  intros Hp Hl st'. subst st'.
  destruct (derive_status_steps ctx st p Hp) as (H0 & H1 & H2 & H3 & H4 & _).
  split; [|split].
  - intros i Hi Hdone. rewrite derive_status_disabled.
    destruct i as [|[|[|[|i]]]]; [| | | |lia].
    + rewrite H0 in Hdone. injection Hdone as Hd. apply done_if_Done in Hd.
      unfold Sidebar.isStepDisabled. rewrite Hl.
      destruct (Sidebar.concepts st) as [l|]; [|discriminate Hd].
      rewrite bool_decide_true by (eexists; reflexivity). reflexivity.
    + rewrite H1 in Hdone. injection Hdone as Hd. apply done_if_Done in Hd.
      unfold Sidebar.isStepDisabled. rewrite Hl, Hd. reflexivity.
    + rewrite H2 in Hdone. injection Hdone as Hd. apply done_if_Done in Hd.
      apply (has_segments_enabled st Hl Hd).
    + rewrite H3 in Hdone. injection Hdone as Hd. apply done_if_Done in Hd.
      apply (has_segments_enabled st Hl Hd).
  - rewrite derive_status_disabled. unfold Sidebar.isStepDisabled. rewrite Hl.
    split.
    + intros H E. rewrite bool_decide_true in H by exact E. discriminate H.
    + intros H. apply bool_decide_false, H.
  - rewrite derive_status_disabled, H4. unfold Sidebar.isStepDisabled. rewrite Hl.
    unfold Sidebar.hasImages.
    split.
    + intros [Hd He]. apply bool_decide_eq_true in He.
      split; [exact He|].
      injection Hd as Hd. apply done_if_Done in Hd.
      rewrite bool_decide_true in Hd by exact He. exact Hd.
    + intros [He Hs]. rewrite bool_decide_true by exact He.
      rewrite Hs. split; reflexivity.
Qed.

Lemma done_step_unlocks_next_witness :
  let ctx := {| Sidebar.prompt := JS.lit "a dog on a beach";
                Sidebar.selectedProject := Some {| Sidebar.project_id := JS.Num 7 |};
                Sidebar.selectedImageModel := Some "recraft-v3";
                Sidebar.selectedVideoModel := Some "kling-v2.1-master" |} in
  let seg :=
    {| Sidebar.id := JS.Num 1; Sidebar.segmentId := JS.Undefined;
       Sidebar.uuid := JS.Undefined;
       Sidebar.visual := Some (JS.lit "a dog"); Sidebar.animation := None;
       Sidebar.narration := None; Sidebar.s3Key := Some "images/1.png";
       Sidebar.image_s3_key := None; Sidebar.imageS3Key := None;
       Sidebar.videoUrl := None; Sidebar.video_url := None |} in
  let st := Sidebar.handleScriptSelect
              {| Sidebar.segments := Some [seg]; Sidebar.artStyle := None |}
              Sidebar.initial in
  Sidebar.loading st = false
  /\ Sidebar.stepStatus (Sidebar.derive_status ctx st) !! 4 = Some Sidebar.Done
  /\ Sidebar.isStepDisabled 5 (Sidebar.derive_status ctx st) = true
  /\ Sidebar.isStepDisabled 4 (Sidebar.derive_status ctx st) = false.
Proof.
  intros ctx seg st.
  destruct (done_step_unlocks_next ctx st {| Sidebar.project_id := JS.Num 7 |}
              eq_refl eq_refl) as (Hnext & _ & Hlast).
  split; [reflexivity|].
  destruct Hlast as [_ Hlast].
  destruct Hlast as [H4 H5]; [split; reflexivity|].
  split; [exact H4|]. split; [exact H5|].
  apply (Hnext 3); [lia|].
  unfold Sidebar.derive_status. cbn [Sidebar.selectedProject ctx].
  cbn [Sidebar.setStepStatus Sidebar.stepStatus].
  do 2 (rewrite lookup_insert_ne by discriminate). apply lookup_insert_eq.
Defined.

(* ===================================================================== *)
(** * The launch of a batch                                               *)
(* ===================================================================== *)

Section Launch.

Import Sidebar.

(** The requests of a launch leave the state it shows as it is, but for
    the progress entries. *)
Lemma start_tasks_ui kind request total l : forall b,
  let b' := fold_left (start_task kind request total) l b in
  loading (ui b') = loading (ui b) /\ error (ui b') = error (ui b)
  /\ stepStatus (ui b') = stepStatus (ui b)
  /\ currentStep (ui b') = currentStep (ui b)
  /\ selectedScript (ui b') = selectedScript (ui b)
  /\ generatedImages (ui b') = generatedImages (ui b)
  /\ generatedVideos (ui b') = generatedVideos (ui b).
Proof.
  induction l as [|t l IH]; intros b; cbn [fold_left]; [cbn; auto 10|].
  destruct (IH (start_task kind request total b t)) as (H1 & H2 & H3 & H4 & H5 & H6 & H7).
  cbn zeta. rewrite H1, H2, H3, H4, H5, H6, H7. unfold start_task.
  destruct (request (snd (snd t))); cbn; auto 10.
Qed.

End Launch.

(** X12.  What a launch sends.  A batch starts only from a script with a
    list of segments, and a video batch only when [generatedImages] is
    not empty.  Its tasks are the segments that qualify (a visual prompt
    that is not blank for images, an entry of [generatedImages] under
    one of the forms of the segment's id for videos), in the order of
    the script.  Every image task sends one generation request.  A video
    task sends one when the id that [find] gave back for its segment is
    truthy; when that id is falsy ([0], the empty text) the task is over
    at once, with [null] and without a request, although it counts
    among the tasks.  The requests go out in the order of the tasks, a
    task that has sent one waits for the answer, and the state shown
    meanwhile is loading, without error, with the step marked as
    loading.  An image batch has at least one task. *)
Theorem launch_requests (kind : Sidebar.task_kind) (ctx : Sidebar.context)
    (st : Sidebar.state) (b : Sidebar.batch) :
  Sidebar.launch kind ctx st = inr b ->
  exists sc segs,
    Sidebar.selectedScript st = Some sc /\ Sidebar.segments sc = Some segs
    /\ Sidebar.isStepDisabled (Sidebar.step_of kind) (Sidebar.setLoading false st) = false
    /\ Sidebar.launched b
       = List.filter
           (fun p => match kind with
                     | Sidebar.image => Sidebar.has_visual (snd p)
                     | Sidebar.video =>
                         bool_decide (is_Some (Sidebar.matchingImageKey
                                                 (Sidebar.generatedImages st) (snd p)))
                     end)
           (imap pair segs)
    /\ (let request (p : nat * Sidebar.segment) :=
          match kind with
          | Sidebar.image => Some (Sidebar.image_request ctx sc (snd p))
          | Sidebar.video =>
              match Sidebar.matchingImageKey (Sidebar.generatedImages st) (snd p) with
              | Some key =>
                  if JS.truthy key
                  then Some (Sidebar.video_request ctx sc (Sidebar.generatedImages st) (snd p))
                  else None
              | None => None
              end
          end in
        Sidebar.sent b = omap request (Sidebar.launched b)
        /\ Sidebar.tasks b
           = (fun p => match request p with
                       | Some _ => Sidebar.AwaitGeneration
                       | None => Sidebar.Settled None
                       end) <$> Sidebar.launched b)
    /\ Sidebar.loading (Sidebar.ui b) = true
    /\ Sidebar.error (Sidebar.ui b) = None
    /\ Sidebar.stepStatus (Sidebar.ui b) !! Sidebar.step_of kind = Some Sidebar.Loading
    /\ (kind = Sidebar.image -> Sidebar.launched b <> []).
Proof.
  destruct kind; cbn [Sidebar.launch Sidebar.step_of];
    unfold Sidebar.runImageGeneration_launch, Sidebar.runVideoGeneration_launch.
  - destruct (Sidebar.selectedScript st) as [sc|] eqn:Hsc; [|discriminate].
    destruct (Sidebar.segments sc) as [segs|] eqn:Hsegs; [|discriminate].
    destruct (List.filter _ _) as [|p l] eqn:Hf; [discriminate|].
    intros [= <-]. exists sc, segs.
    split; [reflexivity|]. split; [exact Hsegs|].
    split.
    { unfold Sidebar.isStepDisabled. cbn. rewrite Hsc.
      destruct sc as [ss a]. cbn in Hsegs. subst ss. reflexivity. }
    match goal with
    | |- context [Sidebar.start_all ?k ?r ?i ?s] =>
        destruct (start_all_shape k r i s) as (H1 & H3 & _);
        pose proof (start_all_sent k r i s) as H2;
        pose proof (start_tasks_ui k r (length i) (imap pair i)
                      {| Sidebar.ui := s; Sidebar.launched := i;
                         Sidebar.tasks := replicate (length i) Sidebar.AwaitGeneration;
                         Sidebar.collected := ∅; Sidebar.sent := [] |})
          as (U1 & U2 & U3 & _);
        fold (Sidebar.start_all k r i s) in U1, U2, U3
    end.
    rewrite H1, H2, H3.
    split; [symmetry; exact Hf|]. split; [split; reflexivity|].
    split; [exact U1|]. split; [exact U2|].
    split; [rewrite U3; cbn; apply lookup_insert_eq|].
    intros _. discriminate.
  - destruct (bool_decide (Sidebar.generatedImages st = ∅)) eqn:He; [discriminate|].
    destruct (Sidebar.selectedScript st) as [sc|] eqn:Hsc; [|discriminate].
    destruct (Sidebar.segments sc) as [segs|] eqn:Hsegs; [|discriminate].
    intros [= <-]. exists sc, segs.
    split; [reflexivity|]. split; [exact Hsegs|].
    split.
    { unfold Sidebar.isStepDisabled. cbn. exact He. }
    match goal with
    | |- context [Sidebar.start_all ?k ?r ?i ?s] =>
        destruct (start_all_shape k r i s) as (H1 & H3 & _);
        pose proof (start_all_sent k r i s) as H2;
        pose proof (start_tasks_ui k r (length i) (imap pair i)
                      {| Sidebar.ui := s; Sidebar.launched := i;
                         Sidebar.tasks := replicate (length i) Sidebar.AwaitGeneration;
                         Sidebar.collected := ∅; Sidebar.sent := [] |})
          as (U1 & U2 & U3 & _);
        fold (Sidebar.start_all k r i s) in U1, U2, U3
    end.
    rewrite H1, H2, H3.
    split; [reflexivity|]. split; [split; reflexivity|].
    split; [exact U1|]. split; [exact U2|].
    split; [rewrite U3; cbn; apply lookup_insert_eq|].
    intros H. discriminate H.
Qed.

Lemma launch_requests_witness :
  let ctx := {| Sidebar.prompt := JS.lit "a dog on a beach";
                Sidebar.selectedProject := Some {| Sidebar.project_id := JS.Num 7 |};
                Sidebar.selectedImageModel := Some "imagen";
                Sidebar.selectedVideoModel := Some "gen4_turbo" |} in
  let seg (n : Z) (text : string) :=
    {| Sidebar.id := JS.Num n; Sidebar.segmentId := JS.Undefined;
       Sidebar.uuid := JS.Undefined;
       Sidebar.visual := Some (JS.lit text); Sidebar.animation := None;
       Sidebar.narration := None; Sidebar.s3Key := None;
       Sidebar.image_s3_key := None; Sidebar.imageS3Key := None;
       Sidebar.videoUrl := None; Sidebar.video_url := None |} in
  let script := {| Sidebar.segments :=
                     Some [seg 0%Z "a cat"; seg 1%Z "a dog"; seg 2%Z "  "; seg 3%Z "a beach"];
                   Sidebar.artStyle := None |} in
  let st4 := Sidebar.handleScriptSelect script Sidebar.initial in
  let images : gmap string string :=
    {[ "0" := Flow.CDN +:+ "images/0.png"; "seg-1" := "blob:1";
       "3" := Flow.CDN +:+ "images/3.png" ]} in
  let st5 := Sidebar.setGeneratedImages images st4 in
  (exists b,
     Sidebar.launch Sidebar.image ctx st4 = inr b
     /\ Sidebar.sent b = [Sidebar.image_request ctx script (seg 0%Z "a cat");
                          Sidebar.image_request ctx script (seg 1%Z "a dog");
                          Sidebar.image_request ctx script (seg 3%Z "a beach")]
     /\ Sidebar.tasks b = [Sidebar.AwaitGeneration; Sidebar.AwaitGeneration;
                           Sidebar.AwaitGeneration])
  /\ (exists b,
        Sidebar.launch Sidebar.video ctx st5 = inr b
        /\ Sidebar.launched b
           = [(0, seg 0%Z "a cat"); (1, seg 1%Z "a dog"); (3, seg 3%Z "a beach")]
        /\ Sidebar.sent b = [Sidebar.video_request ctx script images (seg 1%Z "a dog");
                             Sidebar.video_request ctx script images (seg 3%Z "a beach")]
        /\ Sidebar.tasks b = [Sidebar.Settled None; Sidebar.AwaitGeneration;
                              Sidebar.AwaitGeneration]).
Proof.
  intros ctx seg script st4 images st5. split.
  - destruct (Sidebar.launch Sidebar.image ctx st4) as [|b] eqn:E0;
      [vm_compute in E0; discriminate E0|].
    exists b. split; [reflexivity|].
    destruct (launch_requests Sidebar.image ctx st4 b E0)
      as (sc & segs & Hsc & Hsegs & _ & Hl & (Hsent & Htasks) & _).
    injection Hsc as <-. injection Hsegs as <-.
    rewrite Hsent, Htasks, Hl. split; reflexivity.
  - destruct (Sidebar.launch Sidebar.video ctx st5) as [|b] eqn:E0;
      [vm_compute in E0; discriminate E0|].
    exists b. split; [reflexivity|].
    destruct (launch_requests Sidebar.video ctx st5 b E0)
      as (sc & segs & Hsc & Hsegs & _ & Hl & (Hsent & Htasks) & _).
    injection Hsc as <-. injection Hsegs as <-.
    assert (Hl' : Sidebar.launched b
                  = [(0, seg 0%Z "a cat"); (1, seg 1%Z "a dog"); (3, seg 3%Z "a beach")]).
    { rewrite Hl. vm_compute. reflexivity. }
    rewrite Hsent, Htasks, Hl'. split; [reflexivity|]. split; vm_compute; reflexivity.
Defined.

(** X13.  A launch that starts no batch.  Either a precondition was
    missing (no script for images, no generated image for videos) and
    only the error message changes; or the launch had begun, and then
    nothing is loading any more, the step is back to pending while the
    status of every other step is as it was, an error message is shown,
    and the maps of generated images and videos are untouched. *)
Theorem launch_failure_reverts (kind : Sidebar.task_kind) (ctx : Sidebar.context)
    (st st' : Sidebar.state) :
  Sidebar.launch kind ctx st = inl st' ->
  (exists message, st' = Sidebar.setError (Some message) st
     /\ Sidebar.isStepDisabled (Sidebar.step_of kind) st = true)
  \/ (Sidebar.loading st' = false
      /\ Sidebar.stepStatus st' !! Sidebar.step_of kind = Some Sidebar.Pending
      /\ (forall n, n <> Sidebar.step_of kind ->
            Sidebar.stepStatus st' !! n = Sidebar.stepStatus st !! n)
      /\ is_Some (Sidebar.error st')
      /\ Sidebar.generatedImages st' = Sidebar.generatedImages st
      /\ Sidebar.generatedVideos st' = Sidebar.generatedVideos st
      /\ Sidebar.selectedScript st' = Sidebar.selectedScript st).
Proof.
  destruct kind; cbn [Sidebar.launch Sidebar.step_of];
    unfold Sidebar.runImageGeneration_launch, Sidebar.runVideoGeneration_launch.
  - destruct (Sidebar.selectedScript st) as [sc|] eqn:Hsc.
    + destruct (Sidebar.segments sc) as [segs|] eqn:Hsegs.
      * destruct (List.filter _ _) as [|p l]; [|discriminate].
        intros [= <-]. right. cbn.
        split; [reflexivity|]. split; [apply lookup_insert_eq|].
        split; [intros n Hn; rewrite !lookup_insert_ne by congruence; reflexivity|].
        split; [eexists; reflexivity|]. auto.
      * intros [= <-]. right. cbn.
        split; [reflexivity|]. split; [apply lookup_insert_eq|].
        split; [intros n Hn; rewrite !lookup_insert_ne by congruence; reflexivity|].
        split; [eexists; reflexivity|]. auto.
    + intros [= <-]. left. eexists. split; [reflexivity|].
      unfold Sidebar.isStepDisabled. rewrite Hsc. destruct (Sidebar.loading st); reflexivity.
  - destruct (bool_decide (Sidebar.generatedImages st = ∅)) eqn:He.
    + intros [= <-]. left. eexists. split; [reflexivity|].
      unfold Sidebar.isStepDisabled. rewrite He. destruct (Sidebar.loading st); reflexivity.
    + assert (Hfail : forall m,
        let st1 := Sidebar.video_failed m
                     (Sidebar.setGenerationProgress (fun _ => ∅)
                        (Sidebar.updateStepStatus 5 Sidebar.Loading
                           (Sidebar.setError None (Sidebar.setLoading true st)))) in
        Sidebar.loading st1 = false
        /\ Sidebar.stepStatus st1 !! 5 = Some Sidebar.Pending
        /\ (forall n, n <> 5 -> Sidebar.stepStatus st1 !! n = Sidebar.stepStatus st !! n)
        /\ is_Some (Sidebar.error st1)
        /\ Sidebar.generatedImages st1 = Sidebar.generatedImages st
        /\ Sidebar.generatedVideos st1 = Sidebar.generatedVideos st
        /\ Sidebar.selectedScript st1 = Sidebar.selectedScript st).
      { intros m. cbn.
        split; [reflexivity|]. split; [apply lookup_insert_eq|].
        split; [intros n Hn; rewrite !lookup_insert_ne by congruence; reflexivity|].
        split; [eexists; reflexivity|]. auto. }
      destruct (Sidebar.selectedScript st) as [sc|] eqn:Hsc.
      * destruct (Sidebar.segments sc) as [segs|] eqn:Hsegs; [discriminate|].
        intros [= <-]. right. apply Hfail.
      * intros [= <-]. right. apply Hfail.
Qed.

Lemma launch_failure_reverts_witness :
  let ctx := {| Sidebar.prompt := JS.lit "a dog on a beach";
                Sidebar.selectedProject := Some {| Sidebar.project_id := JS.Num 7 |};
                Sidebar.selectedImageModel := Some "imagen";
                Sidebar.selectedVideoModel := Some "gen4_turbo" |} in
  let st := Sidebar.setGeneratedImages {[ "1" := "blob:1" ]} Sidebar.initial in
  exists st',
    Sidebar.launch Sidebar.video ctx st = inl st'
    /\ Sidebar.stepStatus st' !! 5 = Some Sidebar.Pending
    /\ Sidebar.loading st' = false.
Proof.
  intros ctx st.
  destruct (Sidebar.launch Sidebar.video ctx st) as [st'|b] eqn:E0;
    [|vm_compute in E0; discriminate E0].
  exists st'. split; [reflexivity|].
  destruct (launch_failure_reverts Sidebar.video ctx st st' E0)
    as [(m & _ & Hdis)|(Hl & H5 & _)].
  - vm_compute in Hdis. discriminate Hdis.
  - split; [exact H5 | exact Hl].
Defined.

(* ===================================================================== *)
(** * Running a step again                                                *)
(* ===================================================================== *)

Section Redo.

Import Sidebar.

Lemma launch_sent kind ctx st b :
  launch kind ctx st = inr b ->
  exists sc,
    sent b = omap (fun p => match kind with
                            | image => Some (image_request ctx sc (snd p))
                            | video => video_task ctx sc (generatedImages st) (snd p)
                            end) (launched b).
Proof.
  destruct kind; cbn [launch];
    unfold runImageGeneration_launch, runVideoGeneration_launch.
  - destruct (selectedScript st) as [sc|]; [|discriminate].
    destruct (segments sc) as [segs|]; [|discriminate].
    destruct (List.filter _ _) as [|p l]; [discriminate|].
    intros [= <-]. exists sc.
    match goal with
    | |- context [start_all ?k ?r ?i ?s] =>
        destruct (start_all_shape k r i s) as (H1 & _ & _);
        rewrite H1, (start_all_sent k r i s)
    end.
    reflexivity.
  - destruct (bool_decide _); [discriminate|].
    destruct (selectedScript st) as [sc|]; [|discriminate].
    destruct (segments sc) as [segs|]; [|discriminate].
    intros [= <-]. exists sc.
    match goal with
    | |- context [start_all ?k ?r ?i ?s] =>
        destruct (start_all_shape k r i s) as (H1 & _ & _);
        rewrite H1, (start_all_sent k r i s)
    end.
    reflexivity.
Qed.

(** The request of a video task, when it sends one. *)
Lemma video_task_request ctx sc generatedImages seg c :
  video_task ctx sc generatedImages seg = Some c ->
  c = video_request ctx sc generatedImages seg
  /\ exists key, matchingImageKey generatedImages seg = Some key /\ JS.truthy key = true.
Proof.
  unfold video_task. destruct (matchingImageKey generatedImages seg) as [key|]; [|discriminate].
  destruct (JS.truthy key) eqn:E; [|discriminate].
  intros [= <-]. split; [reflexivity|]. exists key. auto.
Qed.

End Redo.

(** X14.  Running a batch again from the dialogue.  [handleRedoStep] on
    step 4 or 5 sends nothing and opens the dialogue with the models in
    use.  When the dialogue is then confirmed with whatever models it
    holds and a batch starts, the model picked in the dialogue becomes
    the selected model of the following renders, but every request of
    the batch carries the model that was selected before: the batch is
    launched by the render that showed the dialogue. *)
Theorem redo_runs_previous_model (kind : Sidebar.task_kind) (ctx ctx' : Sidebar.context)
    (env : Sidebar.concept_answers) (res1 res2 : outcome Sidebar.script)
    (rd0 rd rd' : Sidebar.redo) (st : Sidebar.state) (b : Sidebar.batch)
    (imageModel videoModel : option string) :
  Sidebar.loading st = false ->
  rd = Sidebar.setRedoVideoModel videoModel
         (Sidebar.setRedoImageModel imageModel
            (fst (Sidebar.handleRedoStep ctx env res1 res2 (Sidebar.step_of kind) rd0 st))) ->
  Sidebar.handleRedoWithModel ctx rd st = Some (ctx', rd', inr b) ->
  snd (Sidebar.handleRedoStep ctx env res1 res2 (Sidebar.step_of kind) rd0 st) = (st, [])
  /\ Sidebar.model_of kind ctx'
     = match kind with Sidebar.image => imageModel | Sidebar.video => videoModel end
  /\ Sidebar.showRedoModal rd' = false
  /\ Sidebar.launch kind ctx (Sidebar.setCurrentStep (Sidebar.step_of kind) st) = inr b
  /\ Forall (fun c => Sidebar.request_model c
                      = Some (default match kind with
                                      | Sidebar.image => "recraft-v3"
                                      | Sidebar.video => "kling-v2.1-master"
                                      end (Sidebar.model_of kind ctx)))
            (Sidebar.sent b)
  /\ (let opened := fst (Sidebar.handleRedoStep ctx env res1 res2
                           (Sidebar.step_of kind) rd0 st) in
      Sidebar.showRedoModal opened = true
      /\ Sidebar.redoStepId opened = Some (Sidebar.step_of kind)
      /\ Sidebar.redoImageModel opened = Sidebar.selectedImageModel ctx
      /\ Sidebar.redoVideoModel opened = Sidebar.selectedVideoModel ctx).
Proof.
  intros Hl -> H.
  unfold Sidebar.handleRedoStep in *. rewrite Hl in *.
  assert (Hstep : ((Sidebar.step_of kind =? 4)%nat || (Sidebar.step_of kind =? 5)%nat) = true)
    by (destruct kind; reflexivity).
  rewrite Hstep in *. cbn [fst snd] in *.
  unfold Sidebar.handleRedoWithModel in H. rewrite Hl in H.
  assert (Hlaunch : Sidebar.launch kind ctx
                      (Sidebar.setCurrentStep (Sidebar.step_of kind) st) = inr b
                    /\ Sidebar.model_of kind ctx'
                       = match kind with
                         | Sidebar.image => imageModel
                         | Sidebar.video => videoModel
                         end
                    /\ Sidebar.showRedoModal rd' = false).
  { destruct kind; cbn in H |- *.
    - destruct (Sidebar.runImageGeneration_launch ctx _) as [|b'] eqn:E;
        inversion H; subst; auto.
    - destruct (Sidebar.runVideoGeneration_launch ctx _) as [|b'] eqn:E;
        inversion H; subst; auto. }
  destruct Hlaunch as (Hlaunch & Hmodel & Hmodal).
  split; [reflexivity|]. split; [exact Hmodel|]. split; [exact Hmodal|].
  split; [exact Hlaunch|].
  split; [|cbn; auto].
  destruct (launch_sent kind ctx _ b Hlaunch) as (sc & Hsent).
  rewrite Hsent. apply Forall_forall. intros c Hc.
  apply list_elem_of_omap in Hc. destruct Hc as (p & _ & Hp).
  destruct kind.
  - injection Hp as <-. reflexivity.
  - apply video_task_request in Hp. destruct Hp as (-> & _). reflexivity.
Qed.

Lemma redo_runs_previous_model_witness :
  let ctx := {| Sidebar.prompt := JS.lit "a dog on a beach";
                Sidebar.selectedProject := Some {| Sidebar.project_id := JS.Num 7 |};
                Sidebar.selectedImageModel := Some "recraft-v3";
                Sidebar.selectedVideoModel := Some "kling-v2.1-master" |} in
  let env := {| Sidebar.webInfoResult := Rejected "offline";
                Sidebar.conceptsResult := fun _ => Rejected "offline" |} in
  let seg :=
    {| Sidebar.id := JS.Num 1; Sidebar.segmentId := JS.Undefined;
       Sidebar.uuid := JS.Undefined;
       Sidebar.visual := Some (JS.lit "a dog"); Sidebar.animation := None;
       Sidebar.narration := None; Sidebar.s3Key := None;
       Sidebar.image_s3_key := None; Sidebar.imageS3Key := None;
       Sidebar.videoUrl := None; Sidebar.video_url := None |} in
  let st := Sidebar.handleScriptSelect
              {| Sidebar.segments := Some [seg]; Sidebar.artStyle := None |}
              Sidebar.initial in
  let rd0 := {| Sidebar.showRedoModal := false; Sidebar.redoStepId := None;
                Sidebar.redoImageModel := Some "recraft-v3";
                Sidebar.redoVideoModel := Some "kling-v2.1-master" |} in
  let rd := Sidebar.setRedoVideoModel (Some "kling-v2.1-master")
              (Sidebar.setRedoImageModel (Some "imagen")
                 (fst (Sidebar.handleRedoStep ctx env (Rejected "offline")
                         (Rejected "offline") 4 rd0 st))) in
  exists ctx' rd' b,
    Sidebar.loading st = false
    /\ Sidebar.handleRedoWithModel ctx rd st = Some (ctx', rd', inr b)
    /\ Sidebar.selectedImageModel ctx' = Some "imagen"
    /\ Sidebar.request_model <$> Sidebar.sent b = [Some "recraft-v3"].
Proof.
  intros ctx env seg st rd0 rd.
  destruct (Sidebar.handleRedoWithModel ctx rd st) as [[[ctx' rd'] [|b]]|] eqn:E;
    [vm_compute in E; discriminate E| |vm_compute in E; discriminate E].
  exists ctx', rd', b.
  destruct (redo_runs_previous_model Sidebar.image ctx ctx' env
              (Rejected "offline") (Rejected "offline") rd0 rd rd' st b
              (Some "imagen") (Some "kling-v2.1-master") eq_refl eq_refl E)
    as (_ & Hmodel & _ & _ & Hsent & _).
  split; [reflexivity|]. split; [reflexivity|]. split; [exact Hmodel|].
  assert (Hlen : length (Sidebar.sent b) = 1).
  { vm_compute in E. injection E as _ _ <-. reflexivity. }
  destruct (Sidebar.sent b) as [|c [|c' l]]; try discriminate Hlen.
  apply Forall_cons in Hsent. destruct Hsent as [Hc _].
  cbn. rewrite Hc. reflexivity.
Defined.

(* ===================================================================== *)
(** * Clicking a step                                                     *)
(* ===================================================================== *)

Section StepClick.

Import Sidebar.

Lemma reset_disabled ctx st i :
  i <> 0 -> isStepDisabled i (snd (resetFlow ctx st)) = true.
Proof.
  intros Hi. unfold isStepDisabled, resetFlow. cbn.
  destruct (loading st); [reflexivity|].
  destruct i as [|[|[|[|[|[|i]]]]]]; try reflexivity. congruence.
Qed.

End StepClick.

(** X15.  What a click on a step can do.  A click on a disabled step
    changes nothing and sends nothing.  A click on a step that is done
    only makes it the current step.  Requests leave only from step 0
    and step 2, and from step 2 they are the two segmentation requests
    for the selected concept, so the click never meets the missing
    concept that [runScriptGeneration] checks for.  After [resetFlow]
    every step but the first is disabled, the status of every step is
    pending, the two models are the defaults of the service, and neither
    batch can be launched. *)
Theorem step_click_requests (ctx : Sidebar.context) (env : Sidebar.concept_answers)
    (res1 res2 : outcome Sidebar.script) (stepId : nat) (st : Sidebar.state) :
  let r := Sidebar.handleStepClick ctx env res1 res2 stepId st in
  (Sidebar.isStepDisabled stepId st = true -> r = (st, []))
  /\ (Sidebar.stepStatus st !! stepId = Some Sidebar.Done ->
      snd r = [] /\ (fst r = st \/ fst r = Sidebar.setCurrentStep stepId st))
  /\ (snd r <> [] ->
      Sidebar.isStepDisabled stepId st = false
      /\ (stepId = 0
          \/ stepId = 2
             /\ exists c, Sidebar.selectedConcept st = Some c
                  /\ snd r = [Sidebar.GetSegmentation (Sidebar.prompt ctx)
                                (Sidebar.concept_title c) (Sidebar.projectId ctx);
                              Sidebar.GetSegmentation (Sidebar.prompt ctx)
                                (Sidebar.concept_title c) (Sidebar.projectId ctx)]))
  /\ (let ctx' := fst (Sidebar.resetFlow ctx st) in
      let st' := snd (Sidebar.resetFlow ctx st) in
      (forall i, i <> 0 ->
         Sidebar.handleStepClick ctx' env res1 res2 i st' = (st', []))
      /\ (forall i, (i <= 5)%nat -> Sidebar.stepStatus st' !! i = Some Sidebar.Pending)
      /\ Sidebar.selectedImageModel ctx' = Some "recraft-v3"
      /\ Sidebar.selectedVideoModel ctx' = Some "kling-v2.1-master"
      /\ (forall kind, exists e, Sidebar.launch kind ctx' st' = inl e)).
Proof.
  cbn zeta. unfold Sidebar.handleStepClick.
  split; [|split; [|split]].
  - intros ->. reflexivity.
  - intros Hdone.
    destruct (Sidebar.isStepDisabled stepId st || Sidebar.loading st);
      [split; [reflexivity | left; reflexivity]|].
    rewrite bool_decide_true by exact Hdone.
    split; [reflexivity | right; reflexivity].
  - destruct (Sidebar.isStepDisabled stepId st) eqn:Hdis; [intros H; contradiction H; reflexivity|].
    cbn [orb].
    destruct (Sidebar.loading st) eqn:Hl; [intros H; contradiction H; reflexivity|].
    destruct (bool_decide _); [intros H; contradiction H; reflexivity|].
    intros Hsent. split; [reflexivity|].
    destruct stepId as [|[|[|n]]]; [left; reflexivity | contradiction Hsent; reflexivity | |
                                      contradiction Hsent; reflexivity].
    right. split; [reflexivity|].
    unfold Sidebar.isStepDisabled in Hdis. rewrite Hl in Hdis.
    revert Hsent. unfold Sidebar.runScriptGeneration.
    cbn [Sidebar.setCurrentStep Sidebar.selectedConcept].
    destruct (Sidebar.selectedConcept st) as [c|]; [|discriminate Hdis].
    intros _. exists c. split; [reflexivity|].
    destruct res1, res2; reflexivity.
  - split; [|split; [|split; [|split]]].
    + intros i Hi. rewrite (reset_disabled ctx st i Hi). reflexivity.
    + intros i Hi. cbn.
      destruct i as [|[|[|[|[|[|i]]]]]]; try reflexivity. lia.
    + reflexivity.
    + reflexivity.
    + intros [|]; cbn; eexists; reflexivity.
Qed.

(* ===================================================================== *)
(** * Where the results of a batch come from                              *)
(* ===================================================================== *)

Section BatchSources.

Import Sidebar.






End BatchSources.



(* ===================================================================== *)
(** * From the image batch to the video batch                             *)
(* ===================================================================== *)

Section Pipeline.

Import Sidebar.

Lemma keyed_with_s3Key key seg seg' : keyed seg seg' -> keyed seg (with_s3Key key seg').
Proof.
  intros [->|[key' ->]]; right; exists key; [reflexivity|].
  destruct seg; reflexivity.
Qed.

Lemma keyed_id seg seg' :
  keyed seg seg' ->
  id seg' = id seg /\ segmentIdVariants seg' = segmentIdVariants seg
  /\ animation_or_visual seg' = animation_or_visual seg.
Proof. intros [->|[key ->]]; auto. Qed.

(** An event changes the script shown only by assigning a key to the
    segment of its task. *)
Lemma event_script kind b ev b' :
  on_event kind b ev = Some b' ->
  selectedScript (ui b') = selectedScript (ui b)
  \/ exists pos seg key,
       launched b !! event_task ev = Some (pos, seg)
       /\ selectedScript (ui b') = assign_s3Key pos key (selectedScript (ui b)).
Proof.
  destruct kind, ev as [i a | i a]; cbn [on_event image_event video_event event_task];
    destruct (tasks b !! i) as [[| key | res]|] eqn:Et; try discriminate;
    destruct (launched b !! i) as [[pos seg]|] eqn:El; try discriminate;
    intros [= <-];
    (destruct a as [a | m]; [try destruct (Flow.nonempty (Flow.s3_key a))|]);
    try (left; reflexivity).
  right. exists pos, seg, key. split; reflexivity.
Qed.

Lemma event_aligned kind b ev b' :
  on_event kind b ev = Some b' -> aligned b -> aligned b'.
Proof.
  intros H (sc & segs & Hsc & Hsegs & Hall).
  destruct (event_shape _ _ _ _ H) as (pos0 & seg0 & El & Elb & _).
  destruct (event_script _ _ _ _ H) as [E | (pos & seg & key & _ & E)].
  - exists sc, segs. rewrite E, Elb. auto.
  - rewrite Hsc in E. destruct sc as [ss a]. cbn in Hsegs. subst ss.
    cbn [assign_s3Key] in E.
    eexists; exists (alter (with_s3Key key) pos segs).
    split; [exact E|]. split; [reflexivity|].
    intros i p s Hi. rewrite Elb in Hi.
    destruct (Hall i p s Hi) as (s' & Hs' & Hk).
    destruct (decide (p = pos)) as [->|Hne].
    + exists (with_s3Key key s'). split.
      * rewrite list_lookup_alter_eq, Hs'. reflexivity.
      * apply keyed_with_s3Key, Hk.
    + exists s'. split; [|exact Hk].
      rewrite list_lookup_alter_ne by congruence. exact Hs'.
Qed.

Lemma run_aligned kind evs : forall b b',
  run (on_event kind) b evs = Some b' -> aligned b -> aligned b'.
Proof.
  induction evs as [|ev evs IH]; intros b b'; cbn [run].
  - intros [= <-]. auto.
  - destruct (on_event kind b ev) as [b1|] eqn:E; [|discriminate].
    intros Hrun Inv. eapply IH; [exact Hrun|]. eapply event_aligned; eassumption.
Qed.

Lemma In_filter_imap (f : nat * segment -> bool) (segs : list segment) i pos seg :
  List.filter f (imap pair segs) !! i = Some (pos, seg) ->
  segs !! pos = Some seg /\ f (pos, seg) = true.
Proof.
  intros Hi. apply list_elem_of_lookup_2, list_elem_of_In, filter_In in Hi.
  destruct Hi as [Hin Hf]. split; [|exact Hf].
  apply list_elem_of_In, elem_of_lookup_imap in Hin.
  destruct Hin as (j & y & E & Hy). injection E as <- <-. exact Hy.
Qed.

Lemma launch_aligned ctx st b0 :
  launch image ctx st = inr b0 -> aligned b0.
Proof.
  cbn [launch]. unfold runImageGeneration_launch.
  destruct (selectedScript st) as [sc|] eqn:Hsc; [|discriminate].
  destruct (segments sc) as [segs|] eqn:Hsegs; [|discriminate].
  destruct (List.filter _ _) as [|p l] eqn:Hf; [discriminate|].
  intros [= <-].
  match goal with
  | |- aligned (start_all ?k ?r ?i ?s) =>
      destruct (start_all_shape k r i s) as (H1 & _ & _);
      pose proof (start_tasks_ui k r (length i) (imap pair i)
                    {| ui := s; launched := i;
                       tasks := replicate (length i) AwaitGeneration;
                       collected := ∅; sent := [] |})
        as (_ & _ & _ & _ & U & _);
      fold (start_all k r i s) in U
  end.
  exists sc, segs. rewrite U, H1.
  split; [exact Hsc|]. split; [exact Hsegs|].
  intros i pos seg Hi. rewrite <- Hf in Hi.
  apply In_filter_imap in Hi. exists seg. split; [apply Hi | left; reflexivity].
Qed.

(** [find] stops at the id itself when the map has an image under it. *)
Lemma matching_first generatedImages seg :
  Flow.has_at generatedImages (JS.to_string (id seg)) = true ->
  matchingImageKey generatedImages seg = Some (id seg).
Proof.
  intros H. unfold matchingImageKey, segmentIdVariants. cbn [List.find].
  rewrite H. reflexivity.
Qed.

End Pipeline.

(** X17.  From a generated image to its video request.  After an image
    batch has run to its end, take any of its tasks whose segment has a
    URL that is not empty in [generatedImages].  The video batch
    launched from the resulting state starts, and the segment is one of
    its tasks.  When the id of the segment is truthy the task sends a
    request and waits for the answer: with the segment's id as [uuid],
    its animation prompt (or else its visual prompt), the art style of
    the script, and as image key the part of that URL after
    [cloudfront.net/], if the URL has one.  When the id is falsy (the
    number [0], the empty text) the task is over at once with [null],
    and no request of the batch carries that id: the image of such a
    segment never gets a video. *)
Theorem images_feed_videos (ctx : Sidebar.context) (st st' : Sidebar.state)
    (b0 b : Sidebar.batch) (evs : list Sidebar.event)
    (i pos : nat) (seg : Sidebar.segment) (u : string) :
  Sidebar.launch Sidebar.image ctx st = inr b0 ->
  Sidebar.run (Sidebar.on_event Sidebar.image) b0 evs = Some b ->
  Sidebar.finish Sidebar.image ctx b = Some st' ->
  Sidebar.launched b0 !! i = Some (pos, seg) ->
  Sidebar.generatedImages st' !! JS.to_string (Sidebar.id seg) = Some u ->
  Flow.nonempty u = true ->
  exists bv j sc',
    Sidebar.launch Sidebar.video ctx st' = inr bv
    /\ Sidebar.selectedScript st' = Some sc'
    /\ fst <$> Sidebar.launched bv !! j = Some pos
    /\ if JS.truthy (Sidebar.id seg)
       then Sidebar.tasks bv !! j = Some Sidebar.AwaitGeneration
            /\ In (Sidebar.GenerateVideo
                     (Chat.generateVideo_payload
                        {| Chat.va_animation_prompt := Sidebar.animation_or_visual seg;
                           Chat.va_art_style := Sidebar.script_style sc';
                           Chat.va_image_s3_key := Sidebar.imageS3Key_of u;
                           Chat.va_uuid := Sidebar.id seg;
                           Chat.va_project_id := Sidebar.projectId ctx;
                           Chat.va_model := Sidebar.selectedVideoModel ctx |}))
                  (Sidebar.sent bv)
       else Sidebar.tasks bv !! j = Some (Sidebar.Settled None)
            /\ forall p, In (Sidebar.GenerateVideo p) (Sidebar.sent bv) ->
                  Chat.vp_uuid p <> Sidebar.id seg.
Proof.
  intros Hlaunch Hrun Hfinish Hi Hu Hne.
  destruct (run_aligned _ _ _ _ Hrun (launch_aligned _ _ _ Hlaunch))
    as (sc & segs & Hsc & Hsegs & Hall).
  rewrite (run_launched _ _ _ _ Hrun) in Hall.
  destruct (Hall i pos seg Hi) as (seg' & Hpos & Hk).
  destruct (keyed_id _ _ Hk) as (Hid & Hvar & Hanim).
  set (sc' := {| Sidebar.segments := Some segs; Sidebar.artStyle := Sidebar.artStyle sc |}).
  assert (Hst' : Sidebar.generatedImages st' = Sidebar.collected b
                 /\ Sidebar.selectedScript st' = Some sc').
  { cbn [Sidebar.finish] in Hfinish. unfold Sidebar.runImageGeneration_finish in Hfinish.
    destruct (Sidebar.all_settled b); [|discriminate Hfinish].
    injection Hfinish as <-. split; [reflexivity|].
    cbn. rewrite Hsc. cbn. rewrite Hsegs. reflexivity. }
  destruct Hst' as (HG & HS). clear Hfinish.
  set (G := Sidebar.generatedImages st') in *.
  assert (Hhas : Flow.has_at G (JS.to_string (Sidebar.id seg)) = true).
  { unfold Flow.has_at, Flow.truthy_at. rewrite Hu, Hne. reflexivity. }
  assert (Hmatch : Sidebar.matchingImageKey G seg' = Some (Sidebar.id seg)).
  { rewrite <- Hid. apply matching_first. rewrite Hid. exact Hhas. }
  cbn [Sidebar.launch]. unfold Sidebar.runVideoGeneration_launch.
  fold G. rewrite HS.
  rewrite bool_decide_false
    by (intros E; rewrite E, lookup_empty in Hu; discriminate Hu).
  cbn [Sidebar.segments sc'].
  match goal with
  | |- context [Sidebar.start_all ?k ?r ?l ?s] =>
      destruct (start_all_shape k r l s) as (H1 & H3 & _);
      pose proof (start_all_sent k r l s) as H2;
      set (bv := Sidebar.start_all k r l s) in *;
      set (valid := l) in *
  end.
  assert (Hin : In (pos, seg') valid).
  { apply filter_In. split.
    - apply list_elem_of_In, elem_of_lookup_imap. exists pos, seg'. auto.
    - cbn [snd]. rewrite Hmatch. apply bool_decide_true. eexists; reflexivity. }
  pose proof Hin as Hin'.
  apply list_elem_of_In, list_elem_of_lookup in Hin. destruct Hin as [j Hj].
  exists bv, j, sc'.
  split; [reflexivity|]. split; [reflexivity|].
  rewrite H1, H2, H3, list_lookup_fmap, Hj.
  split; [reflexivity|].
  assert (Htask : Sidebar.video_task ctx sc' G seg'
                  = if JS.truthy (Sidebar.id seg)
                    then Some (Sidebar.video_request ctx sc' G seg')
                    else None).
  { unfold Sidebar.video_task. rewrite Hmatch. reflexivity. }
  cbn [fmap option_fmap option_map snd]. rewrite Htask.
  destruct (JS.truthy (Sidebar.id seg)) eqn:Etruthy.
  - split; [reflexivity|].
    apply list_elem_of_In, list_elem_of_omap. exists (pos, seg').
    split; [apply list_elem_of_In; exact Hin'|].
    cbn [snd]. rewrite Htask. unfold Sidebar.video_request.
    rewrite Hmatch, Hanim, Hid. cbn [mbind option_bind]. rewrite Hu.
    reflexivity.
  - split; [reflexivity|].
    intros p Hp Huuid.
    apply list_elem_of_In, list_elem_of_omap in Hp. destruct Hp as (q & _ & Hq).
    apply video_task_request in Hq. destruct Hq as (Hreq & key & Hkey & Htrue).
    unfold Sidebar.video_request in Hreq. injection Hreq as ->.
    cbn [Chat.generateVideo_payload Chat.vp_uuid Chat.va_uuid] in Huuid.
    rewrite (matching_first G (snd q)) in Hkey by (rewrite Huuid; exact Hhas).
    injection Hkey as <-. congruence.
Qed.

Lemma images_feed_videos_witness :
  let ctx := {| Sidebar.prompt := JS.lit "a dog on a beach";
                Sidebar.selectedProject := Some {| Sidebar.project_id := JS.Num 7 |};
                Sidebar.selectedImageModel := Some "recraft-v3";
                Sidebar.selectedVideoModel := Some "gen4_turbo" |} in
  let seg (n : Z) (text : string) :=
    {| Sidebar.id := JS.Num n; Sidebar.segmentId := JS.Undefined;
       Sidebar.uuid := JS.Undefined;
       Sidebar.visual := Some (JS.lit text); Sidebar.animation := None;
       Sidebar.narration := None; Sidebar.s3Key := None;
       Sidebar.image_s3_key := None; Sidebar.imageS3Key := None;
       Sidebar.videoUrl := None; Sidebar.video_url := None |} in
  let script := {| Sidebar.segments := Some [seg 0%Z "a dog"; seg 2%Z "a beach"];
                   Sidebar.artStyle := None |} in
  let st := Sidebar.handleScriptSelect script Sidebar.initial in
  let evs := [ Sidebar.GenerationSettled 1 (Resolved {| Flow.s3_key := "images/2.png" |});
               Sidebar.GenerationSettled 0 (Resolved {| Flow.s3_key := "images/0.png" |});
               Sidebar.DownloadSettled 0 (Resolved "https://d.cloudfront.net/images/0.png");
               Sidebar.DownloadSettled 1 (Resolved "https://d.cloudfront.net/images/2.png") ] in
  exists b0 b st' bv,
    Sidebar.launch Sidebar.image ctx st = inr b0
    /\ Sidebar.run (Sidebar.on_event Sidebar.image) b0 evs = Some b
    /\ Sidebar.finish Sidebar.image ctx b = Some st'
    /\ Sidebar.generatedImages st' !! "0" = Some "https://d.cloudfront.net/images/0.png"
    /\ Sidebar.launch Sidebar.video ctx st' = inr bv
    /\ Sidebar.tasks bv !! 0 = Some (Sidebar.Settled None)
    /\ Sidebar.tasks bv !! 1 = Some Sidebar.AwaitGeneration
    /\ (exists p, In (Sidebar.GenerateVideo p) (Sidebar.sent bv)
                  /\ Chat.vp_uuid p = JS.Num 2
                  /\ Chat.vp_image_s3_key p = Some "images/2.png")
    /\ (forall p, In (Sidebar.GenerateVideo p) (Sidebar.sent bv) ->
          Chat.vp_uuid p <> JS.Num 0).
Proof.
  intros ctx seg script st evs.
  destruct (Sidebar.launch Sidebar.image ctx st) as [|b0] eqn:E0;
    [vm_compute in E0; discriminate E0|].
  destruct (Sidebar.run (Sidebar.on_event Sidebar.image) b0 evs) as [b|] eqn:E1;
    [|vm_compute in E0; injection E0 as <-; vm_compute in E1; discriminate E1].
  destruct (Sidebar.finish Sidebar.image ctx b) as [st'|] eqn:E2;
    [|vm_compute in E0; injection E0 as <-; vm_compute in E1; injection E1 as <-;
      vm_compute in E2; discriminate E2].
  assert (Hb0 : Sidebar.launched b0 !! 0 = Some (0, seg 0%Z "a dog")
                /\ Sidebar.launched b0 !! 1 = Some (1, seg 2%Z "a beach")).
  { vm_compute in E0. injection E0 as <-. split; reflexivity. }
  destruct Hb0 as (Hb00 & Hb01).
  assert (Hu : Sidebar.generatedImages st' !! JS.to_string (Sidebar.id (seg 0%Z "a dog"))
               = Some "https://d.cloudfront.net/images/0.png"
               /\ Sidebar.generatedImages st' !! JS.to_string (Sidebar.id (seg 2%Z "a beach"))
                  = Some "https://d.cloudfront.net/images/2.png").
  { vm_compute in E0. injection E0 as <-. vm_compute in E1. injection E1 as <-.
    vm_compute in E2. injection E2 as <-. split; reflexivity. }
  destruct Hu as (Hu0 & Hu2).
  destruct (images_feed_videos ctx st st' b0 b evs 0 0 (seg 0%Z "a dog") _
              E0 E1 E2 Hb00 Hu0 eq_refl) as (bv & j0 & sc0 & Hv & _ & Hj0 & Hskip).
  destruct (images_feed_videos ctx st st' b0 b evs 1 1 (seg 2%Z "a beach") _
              E0 E1 E2 Hb01 Hu2 eq_refl) as (bv' & j1 & sc1 & Hv' & Hsc1 & Hj1 & Hsent).
  assert (bv' = bv) by congruence. subst bv'.
  exists b0, b, st', bv.
  split; [reflexivity|]. split; [exact E1|]. split; [exact E2|].
  split; [exact Hu0|]. split; [exact Hv|].
  assert (Hlen : fst <$> Sidebar.launched bv = [0; 1]).
  { vm_compute in E0. injection E0 as <-. vm_compute in E1. injection E1 as <-.
    vm_compute in E2. injection E2 as <-. vm_compute in Hv. injection Hv as <-.
    reflexivity. }
  assert (Hj : j0 = 0 /\ j1 = 1).
  { rewrite <- list_lookup_fmap, Hlen in Hj0, Hj1.
    destruct j0 as [|[|j0]]; try discriminate Hj0.
    destruct j1 as [|[|j1]]; try discriminate Hj1. auto. }
  destruct Hj as (-> & ->).
  cbn [JS.truthy Sidebar.id seg Z.eqb negb] in Hskip, Hsent.
  destruct Hskip as (Ht0 & Hnone). destruct Hsent as (Ht1 & Hin).
  split; [exact Ht0|]. split; [exact Ht1|]. split; [|exact Hnone].
  eexists. split; [exact Hin|]. split; reflexivity.
Defined.

(* ===================================================================== *)
(** * Loading a project into the sidebar                                  *)
(* ===================================================================== *)

Section LoadProject.

Import Sidebar.

Lemma has_segments_load_script r :
  has_segments (load_script r) = true
  <-> exists first rest s l,
        answered r = Some (first :: rest) /\ sn_segments first = Some (s :: l).
Proof.
  unfold load_script. split.
  - destruct (answered r) as [[|first rest]|]; try discriminate.
    destruct (sn_segments first) as [[|s l]|] eqn:E; try discriminate.
    intros _. exists first, rest, s, l. auto.
  - intros (first & rest & s & l & -> & ->). reflexivity.
Qed.

Lemma assign_key_length p key segs : length (assign_key p key segs) = length segs.
Proof.
  induction segs as [|seg rest IH]; cbn; [reflexivity|].
  destruct (p seg); cbn; [reflexivity | rewrite IH; reflexivity].
Qed.

Lemma load_images_length eq imgs : forall acc,
  length (snd (fold_left (load_image eq) imgs acc)) = length (snd acc).
Proof.
  induction imgs as [|img imgs IH]; intros acc; cbn [fold_left]; [reflexivity|].
  rewrite IH. unfold load_image.
  destruct (negb _); [reflexivity|].
  destruct (image_url img) as [u|]; [|reflexivity].
  destruct (Flow.nonempty u); [|reflexivity].
  cbn [snd]. apply assign_key_length.
Qed.

Lemma has_segments_with_segments segs s :
  length segs = length (default [] (s ≫= segments)) ->
  has_segments (with_segments segs s) = has_segments s.
Proof.
  destruct s as [[[l|] a]|]; cbn; [| |reflexivity].
  - destruct segs, l; cbn; intros H; try reflexivity; discriminate H.
  - destruct segs; cbn; intros H; [reflexivity | discriminate H].
Qed.

End LoadProject.

(** X18.  What loading a project leaves behind.  Without a selected
    project nothing happens.  When one of the requests fails, the data
    shown stays as it was: only the error message is set and the
    loading flag cleared.  When they all succeed, no concept and no
    pair of scripts is selected any more, [generatedVideos] and the
    stored map of videos hold the same entries, and the loaded script
    has segments exactly when the first stored segmentation has some.
    The status derived from the loaded data then shows step 1 as
    pending and keeps step 2 disabled, even when the loaded script
    makes steps 2 and 3 show as done and enables step 4. *)
Theorem load_project_outcome (loosely_equal : JS.val -> JS.val -> bool)
    (ctx : Sidebar.context) (answers : outcome Sidebar.project_answers)
    (st : Sidebar.state) (stored : gmap string string) :
  let r := Sidebar.loadProjectData loosely_equal ctx answers st stored in
  (Sidebar.selectedProject ctx = None -> r = (st, stored))
  /\ (forall p m, Sidebar.selectedProject ctx = Some p -> answers = Rejected m ->
        snd r = stored
        /\ fst r = Sidebar.setLoading false
                     (Sidebar.setError
                        (Some "Failed to load project data. Please try again.") st))
  /\ (forall p a, Sidebar.selectedProject ctx = Some p -> answers = Resolved a ->
        Sidebar.loading (fst r) = false /\ Sidebar.error (fst r) = None
        /\ Sidebar.selectedConcept (fst r) = None /\ Sidebar.scripts (fst r) = None
        /\ Sidebar.generatedVideos (fst r) = snd r
        /\ Sidebar.currentStep (fst r) = Sidebar.currentStep st
        /\ (Sidebar.has_segments (Sidebar.selectedScript (fst r)) = true
            <-> exists first rest s l,
                  Sidebar.answered (Sidebar.projectSegmentations a) = Some (first :: rest)
                  /\ Sidebar.sn_segments first = Some (s :: l))
        /\ let shown := Sidebar.derive_status ctx (fst r) in
           Sidebar.stepStatus shown !! 1 = Some Sidebar.Pending
           /\ Sidebar.isStepDisabled 2 shown = true
           /\ (Sidebar.has_segments (Sidebar.selectedScript (fst r)) = true ->
               Sidebar.stepStatus shown !! 2 = Some Sidebar.Done
               /\ Sidebar.stepStatus shown !! 3 = Some Sidebar.Done
               /\ Sidebar.isStepDisabled 4 shown = false)).
Proof.
  cbn zeta. unfold Sidebar.loadProjectData.
  split; [|split].
  - intros ->. reflexivity.
  - intros p m -> ->. split; reflexivity.
  - intros p a Hp ->. rewrite Hp. cbn [fst snd].
    match goal with
    | |- context [Sidebar.setLoading false ?s] => set (st' := Sidebar.setLoading false s)
    end.
    assert (Hscript : Sidebar.has_segments (Sidebar.selectedScript st')
                      = Sidebar.has_segments (Sidebar.load_script
                                                (Sidebar.projectSegmentations a))).
    { subst st'. cbn. apply has_segments_with_segments.
      rewrite load_images_length. reflexivity. }
    split; [reflexivity|]. split; [reflexivity|]. split; [reflexivity|].
    split; [reflexivity|]. split; [reflexivity|]. split; [reflexivity|].
    split; [rewrite Hscript; apply has_segments_load_script|].
    destruct (derive_status_steps ctx st' p Hp) as (_ & H1 & H2 & H3 & _).
    rewrite !derive_status_disabled.
    split; [rewrite H1; reflexivity|].
    split; [reflexivity|].
    intros Hs. rewrite H2, H3, Hs.
    split; [reflexivity|]. split; [reflexivity|].
    apply (has_segments_enabled st' eq_refl Hs).
Qed.

Section LoadedMaps.

Import Sidebar.

Lemma load_images_lookup eq k imgs : forall acc,
  fst (fold_left (load_image eq) imgs acc) !! k
  = match last (List.filter
                  (fun img => JS.truthy (image_segment img) && is_set (image_url img)
                              && String.eqb (JS.to_string (image_segment img)) k)
                  imgs) with
    | Some img => image_url img
    | None => fst acc !! k
    end.
Proof.
  induction imgs as [|img imgs IH] using rev_ind; intros acc; [reflexivity|].
  rewrite fold_left_app, List.filter_app. cbn [fold_left List.filter].
  unfold load_image at 1.
  destruct (JS.truthy (image_segment img)) eqn:Ht; cbn [negb andb];
    [|rewrite app_nil_r; apply IH].
  unfold is_set at 2.
  destruct (image_url img) as [u|] eqn:Eu; cbn [andb];
    [|rewrite app_nil_r; apply IH].
  destruct (Flow.nonempty u) eqn:En; cbn [andb]; [|rewrite app_nil_r; apply IH].
  cbn [fst].
  destruct (String.eqb_spec (JS.to_string (image_segment img)) k) as [->|Hne].
  - rewrite last_snoc, Eu. apply lookup_insert_eq.
  - rewrite app_nil_r, lookup_insert_ne by exact Hne. apply IH.
Qed.

Lemma load_videos_lookup k vs : forall acc,
  fold_left load_video vs acc !! k
  = match last (List.filter
                  (fun v => JS.truthy (video_segment v) && is_set (stored_video_url v)
                            && String.eqb (JS.to_string (video_segment v)) k)
                  vs) with
    | Some v => stored_video_url v
    | None => acc !! k
    end.
Proof.
  induction vs as [|v vs IH] using rev_ind; intros acc; [reflexivity|].
  rewrite fold_left_app, List.filter_app. cbn [fold_left List.filter].
  unfold load_video at 1.
  destruct (JS.truthy (video_segment v)) eqn:Ht; cbn [negb andb];
    [|rewrite app_nil_r; apply IH].
  destruct (is_set (stored_video_url v)) eqn:Es; cbn [andb];
    [|rewrite app_nil_r; apply IH].
  destruct (stored_video_url v) as [u|] eqn:Eu; [|discriminate Es].
  destruct (String.eqb_spec (JS.to_string (video_segment v)) k) as [->|Hne].
  - rewrite last_snoc, Eu. apply lookup_insert_eq.
  - rewrite app_nil_r, lookup_insert_ne by exact Hne. apply IH.
Qed.

(** The key of a URL built on the address of the store is the key it
    was built from, when the key does not hold the marker itself. *)
Lemma imageS3Key_of_CDN key :
  cut "cloudfront.net/" key = None ->
  imageS3Key_of (Flow.CDN +:+ key) = Some key.
Proof.
  intros H. unfold imageS3Key_of, Flow.CDN.
  change (cut "cloudfront.net/" ("https://ds0fghatf06yb.cloudfront.net/" +:+ key))
    with (Some ("https://ds0fghatf06yb.", key)).
  cbv beta iota. rewrite H. reflexivity.
Qed.

End LoadedMaps.

(** X19.  The maps a loaded project fills.  After a successful load,
    the entry of [generatedImages] under a key is the URL of the last
    stored image, in the order of the answer, that names that key as
    its segment and has a URL; the stored map of videos is filled in
    the same way from the stored videos.  An image stored with a key
    gets the address of the store followed by the key as its URL, and
    the video generator reads the same key back from that URL, provided
    the key does not itself hold the text [cloudfront.net/]. *)
Theorem loaded_maps_last_wins (loosely_equal : JS.val -> JS.val -> bool)
    (ctx : Sidebar.context) (p : Sidebar.project) (a : Sidebar.project_answers)
    (st : Sidebar.state) (stored : gmap string string) (k : string) :
  Sidebar.selectedProject ctx = Some p ->
  let r := Sidebar.loadProjectData loosely_equal ctx (Resolved a) st stored in
  let image_of_key :=
    last (List.filter
            (fun img => JS.truthy (Sidebar.image_segment img)
                        && Sidebar.is_set (Sidebar.image_url img)
                        && String.eqb (JS.to_string (Sidebar.image_segment img)) k)
            (default [] (Sidebar.answered (Sidebar.projectImages a)))) in
  let video_of_key :=
    last (List.filter
            (fun v => JS.truthy (Sidebar.video_segment v)
                      && Sidebar.is_set (Sidebar.stored_video_url v)
                      && String.eqb (JS.to_string (Sidebar.video_segment v)) k)
            (default [] (Sidebar.answered (Sidebar.projectVideos a)))) in
  Sidebar.generatedImages (fst r) !! k = image_of_key ≫= Sidebar.image_url
  /\ snd r !! k = video_of_key ≫= Sidebar.stored_video_url
  /\ (forall img key,
        image_of_key = Some img -> Sidebar.image_key img = Some key ->
        Flow.nonempty key = true -> Sidebar.cut "cloudfront.net/" key = None ->
        Sidebar.generatedImages (fst r) !! k = Some (Flow.CDN +:+ key)
        /\ Sidebar.imageS3Key_of (Flow.CDN +:+ key) = Some key).
Proof.
  intros Hp. cbn zeta. unfold Sidebar.loadProjectData. rewrite Hp. cbn [fst snd].
  cbn [Sidebar.generatedImages Sidebar.setLoading Sidebar.setScripts
       Sidebar.setSelectedConcept Sidebar.setGeneratedVideos Sidebar.setGeneratedImages].
  rewrite load_images_lookup, load_videos_lookup. cbn [fst].
  rewrite !lookup_empty.
  split; [|split].
  - destruct (last _); reflexivity.
  - destruct (last _); reflexivity.
  - intros img key -> Hkey Hne Hcut.
    split; [|apply imageS3Key_of_CDN, Hcut].
    unfold Sidebar.image_url. rewrite Hkey, Hne. reflexivity.
Qed.

Lemma loaded_maps_last_wins_witness :
  let ctx := {| Sidebar.prompt := JS.lit "a dog on a beach";
                Sidebar.selectedProject := Some {| Sidebar.project_id := JS.Num 7 |};
                Sidebar.selectedImageModel := Some "recraft-v3";
                Sidebar.selectedVideoModel := Some "kling-v2.1-master" |} in
  let img (uuid : string) (key : option string) (url : option string) :=
    {| Sidebar.si_uuid := JS.Str uuid; Sidebar.si_segment_id := JS.Undefined;
       Sidebar.si_segmentId := JS.Undefined; Sidebar.si_id := JS.Num 40;
       Sidebar.si_s3Key := key; Sidebar.si_imageS3Key := None;
       Sidebar.si_imageS3key := None; Sidebar.si_image_s3_key := None;
       Sidebar.si_url := url; Sidebar.si_imageUrl := None |} in
  let a := {| Sidebar.projectConcepts := None;
              Sidebar.projectImages :=
                Some {| Flow.resp_success := true;
                        Flow.resp_data :=
                          Some [img "1" (Some "images/a.png") None;
                                img "2" None (Some "https://example.org/b.png");
                                img "1" (Some "images/c.png") None;
                                img "1" None None] |};
              Sidebar.projectVideos := None;
              Sidebar.projectSegmentations := None |} in
  let r := Sidebar.loadProjectData (fun _ _ => false) ctx (Resolved a)
             Sidebar.initial ∅ in
  Sidebar.selectedProject ctx = Some {| Sidebar.project_id := JS.Num 7 |}
  /\ Sidebar.generatedImages (fst r) !! "1" = Some (Flow.CDN +:+ "images/c.png")
  /\ Sidebar.imageS3Key_of (Flow.CDN +:+ "images/c.png") = Some "images/c.png".
Proof.
  intros ctx img a r.
  destruct (loaded_maps_last_wins (fun _ _ => false) ctx
              {| Sidebar.project_id := JS.Num 7 |} a Sidebar.initial ∅ "1" eq_refl)
    as (_ & _ & Hkey).
  split; [reflexivity|].
  apply (Hkey (img "1" (Some "images/c.png") None) "images/c.png");
    reflexivity.
Defined.

(* ===================================================================== *)
(** * The videos the sidebar shows                                        *)
(* ===================================================================== *)

Section ShownVideos.

Import Sidebar.

Lemma batch_result_filed kind ctx st st' b0 b evs i r k :
  launch kind ctx st = inr b0 ->
  run (on_event kind) b0 evs = Some b ->
  finish kind ctx b = Some st' ->
  NoDup (task_keys b) ->
  succeeded b i r -> task_key b i = Some k ->
  generated kind st' !! k = Some (tr_url r).
Proof.
  intros Hlaunch Hrun Hfinish Hnd Hi Hk.
  destruct (launch_shape _ _ _ _ Hlaunch) as (_ & Ht0 & Hc0 & _).
  destruct (finish_shape _ _ _ _ Hfinish) as (_ & Hgen & _).
  pose proof (run_recorded _ _ _ _ Hrun (recorded_at_start _ Ht0)) as Hrec.
  rewrite Hgen.
  destruct (Hrec i r Hi) as (j & r' & k' & Hj & Hkj & Hki & Hc).
  assert (k' = k) by congruence. subst k'.
  assert (j = i).
  { apply (NoDup_lookup (task_keys b) j i k Hnd);
      unfold task_keys; rewrite list_lookup_fmap; assumption. }
  subst j. unfold succeeded in *. congruence.
Qed.

End ShownVideos.

(** X20.  A stored video hides the one generated after it.  Load a
    project, then run a video batch to its end.  Right after the load
    the combined map of videos is the stored map.  After the batch, a
    task that ended with a result has its new URL in [generatedVideos]
    (the keys of the tasks being distinct), but for every key the
    stored map holds, the combined map, from which the sidebar lists
    the videos and fills the timeline, still gives the stored URL. *)
Theorem stored_video_hides_generated (loosely_equal : JS.val -> JS.val -> bool)
    (ctx : Sidebar.context) (p : Sidebar.project) (a : Sidebar.project_answers)
    (st0 st st' : Sidebar.state) (stored0 stored : gmap string string)
    (b0 b : Sidebar.batch) (evs : list Sidebar.event) :
  Sidebar.selectedProject ctx = Some p ->
  Sidebar.loadProjectData loosely_equal ctx (Resolved a) st0 stored0 = (st, stored) ->
  Sidebar.launch Sidebar.video ctx st = inr b0 ->
  Sidebar.run (Sidebar.on_event Sidebar.video) b0 evs = Some b ->
  Sidebar.finish Sidebar.video ctx b = Some st' ->
  Sidebar.combinedVideosMap (Sidebar.generatedVideos st) stored = stored
  /\ (forall k u, stored !! k = Some u ->
        Sidebar.combinedVideosMap (Sidebar.generatedVideos st') stored !! k = Some u)
  /\ (forall k, stored !! k = None ->
        Sidebar.combinedVideosMap (Sidebar.generatedVideos st') stored !! k
        = Sidebar.generatedVideos st' !! k)
  /\ (NoDup (Sidebar.task_keys b) ->
      forall i r k, Sidebar.succeeded b i r -> Sidebar.task_key b i = Some k ->
        Sidebar.generatedVideos st' !! k = Some (Sidebar.tr_url r)).
Proof.
  intros Hp Hload Hlaunch Hrun Hfinish.
  unfold Sidebar.loadProjectData in Hload. rewrite Hp in Hload.
  injection Hload as <- <-.
  cbn [Sidebar.generatedVideos Sidebar.setLoading Sidebar.setScripts
       Sidebar.setSelectedConcept Sidebar.setGeneratedVideos] in *.
  unfold Sidebar.combinedVideosMap.
  split; [apply (idemp_L (∪))|].
  split; [intros k u Hk; apply lookup_union_Some_l, Hk|].
  split; [intros k Hk; apply lookup_union_r, Hk|].
  intros Hnd i r k Hi Hk.
  exact (batch_result_filed Sidebar.video ctx _ st' b0 b evs i r k
           Hlaunch Hrun Hfinish Hnd Hi Hk).
Qed.

Lemma stored_video_hides_generated_witness :
  let ctx := {| Sidebar.prompt := JS.lit "a dog on a beach";
                Sidebar.selectedProject := Some {| Sidebar.project_id := JS.Num 7 |};
                Sidebar.selectedImageModel := Some "recraft-v3";
                Sidebar.selectedVideoModel := Some "gen4_turbo" |} in
  let a :=
    {| Sidebar.projectConcepts := None;
       Sidebar.projectImages :=
         Some {| Flow.resp_success := true;
                 Flow.resp_data :=
                   Some [{| Sidebar.si_uuid := JS.Str "1";
                            Sidebar.si_segment_id := JS.Undefined;
                            Sidebar.si_segmentId := JS.Undefined;
                            Sidebar.si_id := JS.Num 40;
                            Sidebar.si_s3Key := Some "images/1.png";
                            Sidebar.si_imageS3Key := None;
                            Sidebar.si_imageS3key := None;
                            Sidebar.si_image_s3_key := None;
                            Sidebar.si_url := None; Sidebar.si_imageUrl := None |}] |};
       Sidebar.projectVideos :=
         Some {| Flow.resp_success := true;
                 Flow.resp_data :=
                   Some [{| Sidebar.sv_uuid := JS.Str "1";
                            Sidebar.sv_segment_id := JS.Undefined;
                            Sidebar.sv_segmentId := JS.Undefined;
                            Sidebar.sv_id := JS.Num 50;
                            Sidebar.sv_s3Keys := Some ["videos/old.mp4"];
                            Sidebar.sv_videoFiles := None;
                            Sidebar.sv_url := None |}] |};
       Sidebar.projectSegmentations :=
         Some {| Flow.resp_success := true;
                 Flow.resp_data :=
                   Some [{| Sidebar.sn_segments :=
                              Some [{| Sidebar.ss_segmentId := JS.Undefined;
                                       Sidebar.ss_id := JS.Num 1;
                                       Sidebar.ss_visual := Some (JS.lit "a dog");
                                       Sidebar.ss_animation := None;
                                       Sidebar.ss_narration := None;
                                       Sidebar.ss_s3Key := None;
                                       Sidebar.ss_image_s3_key := None;
                                       Sidebar.ss_imageS3Key := None;
                                       Sidebar.ss_videoUrl := None;
                                       Sidebar.ss_video_url := None |}];
                            Sidebar.sn_artStyle := None |}] |} |} in
  let evs := [ Sidebar.GenerationSettled 0 (Resolved {| Flow.s3_key := "videos/new.mp4" |});
               Sidebar.DownloadSettled 0 (Resolved "blob:new") ] in
  exists st stored b0 b st',
    Sidebar.loadProjectData (fun _ _ => false) ctx (Resolved a) Sidebar.initial ∅
    = (st, stored)
    /\ Sidebar.launch Sidebar.video ctx st = inr b0
    /\ Sidebar.run (Sidebar.on_event Sidebar.video) b0 evs = Some b
    /\ Sidebar.finish Sidebar.video ctx b = Some st'
    /\ Sidebar.generatedVideos st' !! "1" = Some "blob:new"
    /\ Sidebar.combinedVideosMap (Sidebar.generatedVideos st') stored !! "1"
       = Some (Flow.CDN +:+ "videos/old.mp4").
Proof.
  intros ctx a evs.
  destruct (Sidebar.loadProjectData (fun _ _ => false) ctx (Resolved a) Sidebar.initial ∅)
    as [st stored] eqn:EL.
  destruct (Sidebar.launch Sidebar.video ctx st) as [|b0] eqn:E0;
    [vm_compute in EL; injection EL as <- <-; vm_compute in E0; discriminate E0|].
  destruct (Sidebar.run (Sidebar.on_event Sidebar.video) b0 evs) as [b|] eqn:E1;
    [|vm_compute in EL; injection EL as <- <-; vm_compute in E0; injection E0 as <-;
      vm_compute in E1; discriminate E1].
  destruct (Sidebar.finish Sidebar.video ctx b) as [st'|] eqn:E2;
    [|vm_compute in EL; injection EL as <- <-; vm_compute in E0; injection E0 as <-;
      vm_compute in E1; injection E1 as <-; vm_compute in E2; discriminate E2].
  exists st, stored, b0, b, st'.
  destruct (stored_video_hides_generated (fun _ _ => false) ctx
              {| Sidebar.project_id := JS.Num 7 |} a Sidebar.initial st st' ∅ stored
              b0 b evs eq_refl EL E0 E1 E2) as (_ & Hstored & _ & Hnew).
  assert (Hs : stored !! "1" = Some (Flow.CDN +:+ "videos/old.mp4")).
  { vm_compute in EL. injection EL as _ <-. reflexivity. }
  assert (Hb : Sidebar.launched b = Sidebar.launched b0)
    by (eapply run_launched, E1).
  assert (Hb0 : Sidebar.task_keys b = ["1"]).
  { unfold Sidebar.task_keys. rewrite Hb.
    vm_compute in EL. injection EL as <- <-. vm_compute in E0. injection E0 as <-.
    reflexivity. }
  assert (Htasks : Sidebar.tasks b
                   = [Sidebar.Settled (Some {| Sidebar.tr_segmentId := JS.Num 1;
                                               Sidebar.tr_url := "blob:new" |})]).
  { vm_compute in EL. injection EL as <- <-. vm_compute in E0. injection E0 as <-.
    vm_compute in E1. injection E1 as <-. reflexivity. }
  split; [reflexivity|]. split; [exact E0|]. split; [exact E1|]. split; [exact E2|].
  split.
  - apply (Hnew ltac:(rewrite Hb0; apply NoDup_singleton) 0
             {| Sidebar.tr_segmentId := JS.Num 1; Sidebar.tr_url := "blob:new" |}).
    + unfold Sidebar.succeeded. rewrite Htasks. reflexivity.
    + unfold Sidebar.task_key, Sidebar.task_keys in *.
      destruct (Sidebar.launched b) as [|[pos seg] [|x l]]; try discriminate Hb0.
      cbn in Hb0 |- *. injection Hb0 as ->. reflexivity.
  - apply Hstored, Hs.
Defined.

(* ===================================================================== *)
(** * The session and its copy in the store                               *)
(* ===================================================================== *)

(** X21.  A session survives a restart, a logout does not.  Let
    [JSON.parse] give back the user that [JSON.stringify] wrote.  After
    [handleAuthSuccess] with a token and a user, the provider is
    authenticated, and the state it would start with from the store
    holds the same user and the same token.  After [logout], whatever
    the desktop shell answered, the provider is not authenticated, the
    store holds neither the token nor the user, and a restart is not
    authenticated either.  An answer without a token changes nothing. *)
Theorem session_survives_restart {U : Type} (stringify : U -> string)
    (parse : string -> option (Auth.held U))
    (s : Auth.state U * Auth.storage) (authData : Auth.auth_data U)
    (answer : option (outcome unit)) :
  (forall u, Flow.nonempty (stringify u) = true
             /\ parse (stringify u) = Some (Auth.Held u)) ->
  (Sidebar.is_set (Auth.access_token authData) = false ->
     Auth.handleAuthSuccess stringify authData s = s)
  /\ (forall t u,
        Auth.access_token authData = Some t -> Flow.nonempty t = true ->
        Auth.ad_user authData = Auth.Held u ->
        let s1 := Auth.handleAuthSuccess stringify authData s in
        let store := Auth.persist stringify s1 in
        Auth.isAuthenticated (fst s1) = true
        /\ Auth.user (Auth.start parse store) = Auth.Held u
        /\ Auth.token (Auth.start parse store) = Some t
        /\ Auth.isAuthenticated (Auth.start parse store) = true)
  /\ (let s2 := Auth.logout answer s in
      let store := Auth.persist stringify s2 in
      Auth.isAuthenticated (fst s2) = false
      /\ snd s2 !! "authToken" = None /\ snd s2 !! "authUser" = None
      /\ store = snd s2
      /\ Auth.isAuthenticated (Auth.start parse store) = false).
Proof.
  intros Hjson. split; [|split].
  - unfold Auth.handleAuthSuccess, Sidebar.is_set.
    destruct (Auth.access_token authData) as [t|]; [|reflexivity].
    intros ->. reflexivity.
  - intros t u Ht Hne Hu. cbn zeta.
    destruct (Hjson u) as [Hs Hp].
    unfold Auth.handleAuthSuccess. rewrite Ht, Hne, Hu.
    unfold Auth.persist, Auth.start, Auth.isAuthenticated, Sidebar.is_set.
    cbn [fst snd Auth.user Auth.token Auth.stored_text].
    unfold Auth.storage in *. rewrite lookup_insert_eq, Hs, Hp.
    rewrite !lookup_insert_ne by discriminate.
    rewrite lookup_insert_eq. cbn [default]. rewrite Hne.
    repeat split.
  - cbn zeta. unfold Auth.logout, Auth.persist, Auth.start, Auth.isAuthenticated.
    cbn [fst snd Auth.user Auth.token]. unfold Auth.storage in *.
    split; [reflexivity|].
    split; [rewrite lookup_delete_ne by discriminate; apply lookup_delete_eq|].
    split; [apply lookup_delete_eq|].
    split; [apply delete_id, lookup_delete_eq|].
    rewrite delete_id by apply lookup_delete_eq.
    rewrite lookup_delete_eq. reflexivity.
Qed.

Lemma session_survives_restart_witness :
  let stringify (u : unit) := "{}" in
  let parse (s : string) :=
    if String.eqb s "{}" then Some (Auth.Held tt)
    else if String.eqb s "null" then Some Auth.Nothing else None in
  let s := ({| Auth.user := Auth.Nothing; Auth.token := None;
               Auth.loading := false; Auth.error := Some "Login failed" |},
            (∅ : Auth.storage)) in
  let authData := {| Auth.access_token := Some "t0k3n"; Auth.ad_user := Auth.Held tt |} in
  let s1 := Auth.handleAuthSuccess stringify authData s in
  (forall u, Flow.nonempty (stringify u) = true
             /\ parse (stringify u) = Some (Auth.Held u))
  /\ Auth.isAuthenticated (fst s1) = true
  /\ Auth.token (Auth.start parse (Auth.persist stringify s1)) = Some "t0k3n"
  /\ Auth.isAuthenticated (Auth.start parse (Auth.persist stringify s1)) = true.
Proof.
  intros stringify parse s authData s1.
  assert (Hjson : forall u, Flow.nonempty (stringify u) = true
                            /\ parse (stringify u) = Some (Auth.Held u)).
  { intros []. split; reflexivity. }
  split; [exact Hjson|].
  destruct (session_survives_restart stringify parse s authData None Hjson)
    as (_ & Hin & _).
  destruct (Hin "t0k3n" tt eq_refl eq_refl eq_refl) as (H1 & _ & H3 & H4).
  split; [exact H1|]. split; [exact H3 | exact H4].
Defined.

(* ===================================================================== *)
(** * The video panel                                                     *)
(* ===================================================================== *)

(** X22.  What a generation in the video panel leaves behind.  It sends
    at most two requests, the generation first, which names no project
    and carries the address of the image as its image key.  When it
    ends with an error message, the videos are as they were.  When it
    ends without one, the generation and the download both succeeded,
    the URL of the download is filed under the id of the segment, and
    (the URL not being empty) the panel will not start a generation for
    that segment by itself again.  Unless the data was missing, nothing
    is loading at the end. *)
Theorem video_panel_outcome (currentSegment : option Panel.segment)
    (gen : outcome Flow.gen_response) (download : outcome string)
    (st : Panel.state) :
  let r := Panel.handleGenerateVideo currentSegment gen download st in
  (length (snd r) <= 2)%nat
  /\ (forall c, head (snd r) = Some c ->
        exists seg p,
          currentSegment = Some seg /\ c = Sidebar.GenerateVideo p
          /\ Chat.vp_projectId p = JS.Undefined
          /\ Chat.vp_uuid p = Panel.id seg
          /\ Chat.vp_image_s3_key p = Panel.imageUrl seg
          /\ Sidebar.is_set (Panel.imageUrl seg) = true)
  /\ (is_Some (Panel.error (fst r)) -> Panel.videos (fst r) = Panel.videos st)
  /\ (Panel.error (fst r) = None ->
      exists seg result url,
        currentSegment = Some seg
        /\ gen = Resolved result /\ Flow.nonempty (Flow.s3_key result) = true
        /\ download = Resolved url
        /\ Panel.videos (fst r) = <[JS.to_string (Panel.id seg) := url]> (Panel.videos st)
        /\ (Flow.nonempty url = true ->
            Panel.starts_by_itself currentSegment (fst r) = false))
  /\ (Panel.loading (fst r) = false
      \/ snd r = [] /\ Panel.loading (fst r) = Panel.loading st).
Proof.
  cbn zeta. unfold Panel.handleGenerateVideo.
  destruct currentSegment as [seg|];
    [|cbn; repeat split; auto; try discriminate; intros c H; discriminate H].
  destruct (Sidebar.is_set (Panel.imageUrl seg)) eqn:Hurl; cbn [andb];
    [|cbn; repeat split; auto; try discriminate; intros c H; discriminate H].
  destruct (Panel.present (Panel.narration seg)) eqn:Hnar;
    [|cbn; repeat split; auto; try discriminate; intros c H; discriminate H].
  assert (Hreq : forall c, Some (Panel.request seg st) = Some c ->
            exists seg0 p,
              Some seg = Some seg0 /\ c = Sidebar.GenerateVideo p
              /\ Chat.vp_projectId p = JS.Undefined
              /\ Chat.vp_uuid p = Panel.id seg0
              /\ Chat.vp_image_s3_key p = Panel.imageUrl seg0
              /\ Sidebar.is_set (Panel.imageUrl seg0) = true).
  { intros c [= <-]. exists seg. eexists. split; [reflexivity|].
    split; [reflexivity|]. auto. }
  destruct gen as [result|m].
  - destruct (Flow.nonempty (Flow.s3_key result)) eqn:Hkey.
    + destruct download as [url|m].
      * cbn [fst snd length head]. split; [lia|]. split; [exact Hreq|].
        split; [intros [e He]; discriminate He|].
        split; [|left; reflexivity].
        intros _. exists seg, result, url. split; [reflexivity|].
        split; [reflexivity|]. split; [exact Hkey|]. split; [reflexivity|].
        split; [reflexivity|].
        intros Hne. unfold Panel.starts_by_itself.
        cbn [Panel.videos Panel.setLoading Panel.setVideos Panel.setError].
        unfold Flow.has_at, Flow.truthy_at. rewrite lookup_insert_eq, Hne.
        apply andb_false_r.
      * cbn [fst snd length head]. split; [lia|]. split; [exact Hreq|].
        split; [reflexivity|]. split; [discriminate|]. left; reflexivity.
    + cbn [fst snd length head]. split; [lia|]. split; [exact Hreq|].
      split; [reflexivity|]. split; [discriminate|]. left; reflexivity.
  - cbn [fst snd length head]. split; [lia|]. split; [exact Hreq|].
    split; [reflexivity|]. split; [discriminate|]. left; reflexivity.
Qed.

(* ===================================================================== *)
(** * The six steps, one after the other                                  *)
(* ===================================================================== *)

Section Workflow.

Import Sidebar.

Lemma has_segments_assign k key s :
  has_segments (assign_s3Key k key s) = has_segments s.
Proof.
  destruct s as [[[l|] a]|]; try reflexivity.
  cbn. destruct l as [|x l]; [reflexivity|].
  destruct k; reflexivity.
Qed.

(** What an event leaves alone in the state shown. *)
Lemma event_frame kind b ev b' :
  on_event kind b ev = Some b' ->
  concepts (ui b') = concepts (ui b)
  /\ selectedConcept (ui b') = selectedConcept (ui b)
  /\ generatedImages (ui b') = generatedImages (ui b)
  /\ generatedVideos (ui b') = generatedVideos (ui b)
  /\ has_segments (selectedScript (ui b')) = has_segments (selectedScript (ui b)).
Proof.
  intros H.
  assert (Hs : has_segments (selectedScript (ui b')) = has_segments (selectedScript (ui b))).
  { destruct (event_script _ _ _ _ H) as [-> | (pos & seg & key & _ & ->)];
      [reflexivity | apply has_segments_assign]. }
  revert H.
  destruct kind, ev as [i a | i a]; cbn [on_event image_event video_event event_task];
    destruct (tasks b !! i) as [[| key | res]|] eqn:Et; try discriminate;
    destruct (launched b !! i) as [[pos seg]|] eqn:El; try discriminate;
    intros [= <-];
    (destruct a as [a | m]; [try destruct (Flow.nonempty (Flow.s3_key a))|]);
    (split; [reflexivity|]); (split; [reflexivity|]); (split; [reflexivity|]);
    (split; [reflexivity|]); exact Hs.
Qed.

Lemma run_frame kind evs : forall b b',
  run (on_event kind) b evs = Some b' ->
  concepts (ui b') = concepts (ui b)
  /\ selectedConcept (ui b') = selectedConcept (ui b)
  /\ generatedImages (ui b') = generatedImages (ui b)
  /\ generatedVideos (ui b') = generatedVideos (ui b)
  /\ has_segments (selectedScript (ui b')) = has_segments (selectedScript (ui b)).
Proof.
  induction evs as [|ev evs IH]; intros b b'; cbn [run].
  - intros [= <-]. auto.
  - destruct (on_event kind b ev) as [b1|] eqn:E; [|discriminate].
    intros Hrun. destruct (IH _ _ Hrun) as (H1 & H2 & H3 & H4 & H5).
    destruct (event_frame _ _ _ _ E) as (F1 & F2 & F3 & F4 & F5).
    rewrite H1, H2, H3, H4, H5. auto.
Qed.

Lemma start_tasks_data kind request total l : forall b,
  let b' := fold_left (start_task kind request total) l b in
  concepts (ui b') = concepts (ui b)
  /\ selectedConcept (ui b') = selectedConcept (ui b).
Proof.
  induction l as [|t l IH]; intros b; cbn [fold_left]; [cbn; auto|].
  destruct (IH (start_task kind request total b t)) as (H1 & H2).
  cbn zeta. rewrite H1, H2. unfold start_task.
  destruct (request (snd (snd t))); cbn; auto.
Qed.

(** What a whole batch leaves alone, from the launch to the end. *)
Lemma batch_frame kind ctx st b0 b evs st' :
  launch kind ctx st = inr b0 ->
  run (on_event kind) b0 evs = Some b ->
  finish kind ctx b = Some st' ->
  concepts st' = concepts st
  /\ selectedConcept st' = selectedConcept st
  /\ has_segments (selectedScript st') = has_segments (selectedScript st)
  /\ (kind = video -> generatedImages st' = generatedImages st).
Proof.
  intros Hlaunch Hrun Hfinish.
  destruct (run_frame _ _ _ _ Hrun) as (R1 & R2 & R3 & R4 & R5).
  assert (H0 : concepts (ui b0) = concepts st
               /\ selectedConcept (ui b0) = selectedConcept st
               /\ selectedScript (ui b0) = selectedScript st
               /\ generatedImages (ui b0) = generatedImages st).
  { revert Hlaunch. destruct kind; cbn [launch];
      unfold runImageGeneration_launch, runVideoGeneration_launch.
    - destruct (selectedScript st) as [sc|] eqn:Hsc; [|discriminate].
      destruct (segments sc) as [segs|]; [|discriminate].
      destruct (List.filter _ _) as [|p l]; [discriminate|].
      intros [= <-].
      match goal with
      | |- context [start_all ?k ?r ?i ?s] =>
          pose proof (start_tasks_ui k r (length i) (imap pair i)
                        {| ui := s; launched := i;
                           tasks := replicate (length i) AwaitGeneration;
                           collected := ∅; sent := [] |})
            as (_ & _ & _ & _ & U5 & U6 & _);
          pose proof (start_tasks_data k r (length i) (imap pair i)
                        {| ui := s; launched := i;
                           tasks := replicate (length i) AwaitGeneration;
                           collected := ∅; sent := [] |})
            as (D1 & D2);
          fold (start_all k r i s) in U5, U6, D1, D2
      end.
      rewrite U5, U6, D1, D2. cbn. auto.
    - destruct (bool_decide _); [discriminate|].
      destruct (selectedScript st) as [sc|] eqn:Hsc; [|discriminate].
      destruct (segments sc) as [segs|]; [|discriminate].
      intros [= <-].
      match goal with
      | |- context [start_all ?k ?r ?i ?s] =>
          pose proof (start_tasks_ui k r (length i) (imap pair i)
                        {| ui := s; launched := i;
                           tasks := replicate (length i) AwaitGeneration;
                           collected := ∅; sent := [] |})
            as (_ & _ & _ & _ & U5 & U6 & _);
          pose proof (start_tasks_data k r (length i) (imap pair i)
                        {| ui := s; launched := i;
                           tasks := replicate (length i) AwaitGeneration;
                           collected := ∅; sent := [] |})
            as (D1 & D2);
          fold (start_all k r i s) in U5, U6, D1, D2
      end.
      rewrite U5, U6, D1, D2. cbn. auto. }
  destruct H0 as (A1 & A2 & A3 & A4).
  rewrite A1 in R1. rewrite A2 in R2. rewrite A3 in R5. rewrite A4 in R3.
  revert Hfinish. destruct kind; cbn [finish];
    unfold runImageGeneration_finish, runVideoGeneration_finish;
    destruct (all_settled b); try discriminate; intros [= <-].
  - split; [exact R1|]. split; [exact R2|]. split; [|discriminate].
    rewrite <- R5. cbn.
    destruct (selectedScript (ui b)) as [[[l|] a]|]; reflexivity.
  - destruct (0 <? length (launched b))%nat; cbn;
      (split; [exact R1|]); (split; [exact R2|]); (split; [exact R5|]);
      intros _; exact R3.
Qed.

Lemma derive_status_frame ctx st :
  loading (derive_status ctx st) = loading st
  /\ currentStep (derive_status ctx st) = currentStep st
  /\ concepts (derive_status ctx st) = concepts st
  /\ selectedConcept (derive_status ctx st) = selectedConcept st
  /\ selectedScript (derive_status ctx st) = selectedScript st
  /\ generatedImages (derive_status ctx st) = generatedImages st
  /\ generatedVideos (derive_status ctx st) = generatedVideos st.
Proof. unfold derive_status. destruct (selectedProject ctx); cbn; auto 10. Qed.

Lemma launch_image_has_segments ctx st b0 :
  launch image ctx st = inr b0 -> has_segments (selectedScript st) = true.
Proof.
  cbn [launch]. unfold runImageGeneration_launch.
  destruct (selectedScript st) as [[[segs|] a]|]; try discriminate.
  cbn [segments]. destruct segs as [|s l]; [discriminate | reflexivity].
Qed.

(** A batch in which a task ended with a result leaves a map that is
    not empty. *)
Lemma batch_leaves_entry kind ctx st b0 b evs st' i r :
  launch kind ctx st = inr b0 ->
  run (on_event kind) b0 evs = Some b ->
  finish kind ctx b = Some st' ->
  succeeded b i r ->
  generated kind st' <> ∅.
Proof.
  intros Hlaunch Hrun Hfinish Hi.
  destruct (launch_shape _ _ _ _ Hlaunch) as (_ & Ht0 & Hc0 & _).
  destruct (finish_shape _ _ _ _ Hfinish) as (_ & Hgen & _).
  pose proof (run_recorded _ _ _ _ Hrun (recorded_at_start _ Ht0)) as Hrec.
  destruct (Hrec i r Hi) as (j & r' & k & _ & _ & _ & Hc).
  rewrite Hgen. intros E. rewrite E, lookup_empty in Hc. discriminate Hc.
Qed.

End Workflow.

(** X23.  The six steps compose.  Start from the first state with a
    project selected and a prompt that is not blank, the status being
    derived from the data after every handler.  Click step 0 and let the
    two services answer with at least one concept; select a concept;
    click step 2 and let both segmentation requests succeed; select the
    first script; run the image batch to its end with a task that ended
    with a result; run the video batch to its end likewise.  Then the
    current step went 1, 2, 3, 4, 5 along the way, the two clicks sent
    their two requests each, and in the end the status derived from the
    data shows all six steps as done. *)
Theorem workflow_completes (ctx : Sidebar.context) (p : Sidebar.project)
    (env : Sidebar.concept_answers) (w : Sidebar.web_info)
    (content : JS.str) (rest : list JS.str)
    (c : Sidebar.concept) (cs : list Sidebar.concept)
    (sc1 sc2 : Sidebar.script) (res1 res2 : outcome Sidebar.script)
    (b0 b bv0 bv : Sidebar.batch) (evs evsv : list Sidebar.event)
    (st5 st6 : Sidebar.state)
    (i j : nat) (r rv : Sidebar.task_result) :
  Sidebar.selectedProject ctx = Some p ->
  JS.trim (Sidebar.prompt ctx) <> [] ->
  Sidebar.webInfoResult env = Resolved w ->
  Sidebar.choices w = content :: rest ->
  Sidebar.conceptsResult env content
  = Resolved {| Sidebar.cr_concepts := Some (c :: cs) |} ->
  let shown := Sidebar.derive_status ctx in
  let click0 := Sidebar.handleStepClick ctx env res1 res2 0 (shown Sidebar.initial) in
  let st1 := shown (fst click0) in
  let st2 := shown (Sidebar.handleConceptSelect c st1) in
  let click2 := Sidebar.handleStepClick ctx env (Resolved sc1) (Resolved sc2) 2 st2 in
  let st3 := shown (fst click2) in
  let st4 := shown (Sidebar.handleScriptSelect sc1 st3) in
  Sidebar.launch Sidebar.image ctx st4 = inr b0 ->
  Sidebar.run (Sidebar.on_event Sidebar.image) b0 evs = Some b ->
  Sidebar.finish Sidebar.image ctx b = Some st5 ->
  Sidebar.succeeded b i r ->
  Sidebar.launch Sidebar.video ctx (shown st5) = inr bv0 ->
  Sidebar.run (Sidebar.on_event Sidebar.video) bv0 evsv = Some bv ->
  Sidebar.finish Sidebar.video ctx bv = Some st6 ->
  Sidebar.succeeded bv j rv ->
  (forall n, (n <= 5)%nat -> Sidebar.stepStatus (shown st6) !! n = Some Sidebar.Done)
  /\ Sidebar.currentStep st1 = 1 /\ Sidebar.currentStep st2 = 2
  /\ Sidebar.currentStep st3 = 3 /\ Sidebar.currentStep st4 = 4
  /\ Sidebar.currentStep st5 = 5
  /\ snd click0 = [Sidebar.ProcessWebInfo (Sidebar.prompt ctx) (Sidebar.projectId ctx);
                   Sidebar.GenerateConcepts (Sidebar.prompt ctx) content
                     (Sidebar.projectId ctx)]
  /\ snd click2 = [Sidebar.GetSegmentation (Sidebar.prompt ctx) (Sidebar.concept_title c)
                     (Sidebar.projectId ctx);
                   Sidebar.GetSegmentation (Sidebar.prompt ctx) (Sidebar.concept_title c)
                     (Sidebar.projectId ctx)].
Proof.
  intros Hp Hprompt Hweb Hchoices Hconcepts shown click0 st1 st2 click2 st3 st4
         Hlaunch Hrun Hfinish Hi Hlaunchv Hrunv Hfinishv Hj.
  (* the first click *)
  assert (E0 : click0
               = (Sidebar.setLoading false
                    (Sidebar.setCurrentStep 1
                       (Sidebar.updateStepStatus 0 Sidebar.Done
                          (Sidebar.setConcepts (Some (c :: cs))
                             (Sidebar.setCreditDeductionMessage
                                (Some (Sidebar.ProcessDeducted "Concept Writer Process"))
                                (Sidebar.updateStepStatus 0 Sidebar.Loading
                                   (Sidebar.setError None
                                      (Sidebar.setLoading true
                                         (Sidebar.setCurrentStep 0
                                            (shown Sidebar.initial))))))))),
                  [Sidebar.ProcessWebInfo (Sidebar.prompt ctx) (Sidebar.projectId ctx);
                   Sidebar.GenerateConcepts (Sidebar.prompt ctx) content
                     (Sidebar.projectId ctx)])).
  { subst click0 shown. unfold Sidebar.handleStepClick, Sidebar.derive_status.
    rewrite Hp. cbn [Sidebar.isStepDisabled Sidebar.loading Sidebar.setStepStatus
                     Sidebar.initial orb Sidebar.stepStatus].
    rewrite bool_decide_false
      by (repeat (rewrite lookup_insert_ne by discriminate);
          rewrite lookup_insert_eq; discriminate).
    unfold Sidebar.runConceptWriter.
    destruct (JS.trim (Sidebar.prompt ctx)) as [|x l]; [contradiction Hprompt; reflexivity|].
    rewrite Hweb, Hchoices, Hconcepts. reflexivity. }
  assert (D1 : Sidebar.concepts st1 = Some (c :: cs)
               /\ Sidebar.loading st1 = false /\ Sidebar.currentStep st1 = 1
               /\ Sidebar.selectedScript st1 = None).
  { subst st1 shown.
    destruct (derive_status_frame ctx (fst click0)) as (F1 & F2 & F3 & _ & F5 & _).
    rewrite F1, F2, F3, F5, E0. cbn.
    unfold Sidebar.derive_status. rewrite Hp. cbn. auto. }
  destruct D1 as (C1 & L1 & S1 & Sc1).
  (* the concept *)
  assert (D2 : Sidebar.concepts st2 = Some (c :: cs)
               /\ Sidebar.selectedConcept st2 = Some c
               /\ Sidebar.loading st2 = false /\ Sidebar.currentStep st2 = 2
               /\ Sidebar.selectedScript st2 = None).
  { subst st2 shown.
    destruct (derive_status_frame ctx (Sidebar.handleConceptSelect c st1))
      as (F1 & F2 & F3 & F4 & F5 & _).
    rewrite F1, F2, F3, F4, F5. cbn. auto. }
  destruct D2 as (C2 & K2 & L2 & S2 & Sc2).
  (* the second click *)
  assert (E2 : click2
               = (Sidebar.setLoading false
                    (Sidebar.setCurrentStep 3
                       (Sidebar.updateStepStatus 2 Sidebar.Done
                          (Sidebar.setScripts (Some (sc1, sc2))
                             (Sidebar.showCreditDeduction "Script Generation" None 2
                                (Sidebar.updateStepStatus 2 Sidebar.Loading
                                   (Sidebar.setError None
                                      (Sidebar.setLoading true
                                         (Sidebar.setCurrentStep 2 st2)))))))),
                  [Sidebar.GetSegmentation (Sidebar.prompt ctx) (Sidebar.concept_title c)
                     (Sidebar.projectId ctx);
                   Sidebar.GetSegmentation (Sidebar.prompt ctx) (Sidebar.concept_title c)
                     (Sidebar.projectId ctx)])).
  { subst click2. unfold Sidebar.handleStepClick, Sidebar.isStepDisabled.
    rewrite L2, K2. rewrite bool_decide_true by (eexists; reflexivity).
    cbn [negb orb].
    assert (Hst : Sidebar.stepStatus st2 !! 2 = Some Sidebar.Pending).
    { subst st2 shown.
      destruct (derive_status_steps ctx (Sidebar.handleConceptSelect c st1) p Hp)
        as (_ & _ & H2 & _).
      rewrite H2. cbn [Sidebar.handleConceptSelect Sidebar.setCurrentStep
                       Sidebar.updateStepStatus Sidebar.setStepStatus
                       Sidebar.setSelectedConcept Sidebar.selectedScript].
      rewrite Sc1. reflexivity. }
    rewrite bool_decide_false by (rewrite Hst; discriminate).
    unfold Sidebar.runScriptGeneration.
    cbn [Sidebar.setCurrentStep Sidebar.selectedConcept]. rewrite K2. reflexivity. }
  assert (D3 : Sidebar.concepts st3 = Some (c :: cs)
               /\ Sidebar.selectedConcept st3 = Some c
               /\ Sidebar.currentStep st3 = 3).
  { subst st3 shown.
    destruct (derive_status_frame ctx (fst click2)) as (_ & F2 & F3 & F4 & _).
    rewrite F2, F3, F4, E2. cbn. auto. }
  destruct D3 as (C3 & K3 & S3).
  assert (D4 : Sidebar.concepts st4 = Some (c :: cs)
               /\ Sidebar.selectedConcept st4 = Some c
               /\ Sidebar.currentStep st4 = 4).
  { subst st4 shown.
    destruct (derive_status_frame ctx (Sidebar.handleScriptSelect sc1 st3))
      as (_ & F2 & F3 & F4 & _).
    rewrite F2, F3, F4. cbn. auto. }
  destruct D4 as (C4 & K4 & S4).
  (* the two batches *)
  destruct (batch_frame _ _ _ _ _ _ _ Hlaunch Hrun Hfinish) as (B1 & B2 & B3 & _).
  pose proof (launch_image_has_segments _ _ _ Hlaunch) as Hseg4.
  pose proof (batch_leaves_entry _ _ _ _ _ _ _ _ _ Hlaunch Hrun Hfinish Hi) as Himg.
  destruct (batch_frame _ _ _ _ _ _ _ Hlaunchv Hrunv Hfinishv) as (V1 & V2 & V3 & V4).
  pose proof (batch_leaves_entry _ _ _ _ _ _ _ _ _ Hlaunchv Hrunv Hfinishv Hj) as Hvid.
  destruct (derive_status_frame ctx st5) as (_ & _ & G3 & G4 & G5 & G6 & _).
  fold shown in G3, G4, G5, G6.
  cbn [Sidebar.generated] in Himg, Hvid.
  assert (S5 : Sidebar.currentStep st5 = 5).
  { revert Hfinish. cbn [Sidebar.finish]. unfold Sidebar.runImageGeneration_finish.
    destruct (Sidebar.all_settled b); [|discriminate]. intros [= <-]. reflexivity. }
  split.
  - intros n Hn.
    destruct (derive_status_steps ctx st6 p Hp) as (H0 & H1 & H2 & H3 & H4 & H5).
    fold shown in H0, H1, H2, H3, H4, H5.
    assert (Hc6 : Sidebar.concepts st6 = Some (c :: cs))
      by (rewrite V1, G3, B1; exact C4).
    assert (Hk6 : Sidebar.selectedConcept st6 = Some c)
      by (rewrite V2, G4, B2; exact K4).
    assert (Hs6 : Sidebar.has_segments (Sidebar.selectedScript st6) = true)
      by (rewrite V3, G5, B3; exact Hseg4).
    assert (Hi6 : Sidebar.hasImages st6 = true).
    { unfold Sidebar.hasImages. rewrite (V4 eq_refl), G6.
      rewrite bool_decide_false by exact Himg. reflexivity. }
    assert (Hv6 : Sidebar.hasVideos st6 = true).
    { unfold Sidebar.hasVideos. rewrite bool_decide_false by exact Hvid. reflexivity. }
    destruct n as [|[|[|[|[|[|n]]]]]]; [| | | | | |lia].
    + rewrite H0, Hc6. reflexivity.
    + rewrite H1, Hk6. rewrite bool_decide_true by (eexists; reflexivity). reflexivity.
    + rewrite H2, Hs6. reflexivity.
    + rewrite H3, Hs6. reflexivity.
    + rewrite H4, Hi6. reflexivity.
    + rewrite H5, Hv6. reflexivity.
  - split; [exact S1|]. split; [exact S2|]. split; [exact S3|]. split; [exact S4|].
    split; [exact S5|]. split; [rewrite E0; reflexivity | rewrite E2; reflexivity].
Qed.

Lemma workflow_completes_witness :
  let ctx := {| Sidebar.prompt := JS.lit "a dog on a beach";
                Sidebar.selectedProject := Some {| Sidebar.project_id := JS.Num 7 |};
                Sidebar.selectedImageModel := Some "recraft-v3";
                Sidebar.selectedVideoModel := Some "gen4_turbo" |} in
  let c := {| Sidebar.concept_title := JS.lit "Dog days" |} in
  let env := {| Sidebar.webInfoResult :=
                  Resolved {| Sidebar.choices := [JS.lit "dogs like beaches"] |};
                Sidebar.conceptsResult :=
                  fun _ => Resolved {| Sidebar.cr_concepts := Some [c] |} |} in
  let seg :=
    {| Sidebar.id := JS.Num 1; Sidebar.segmentId := JS.Undefined;
       Sidebar.uuid := JS.Undefined;
       Sidebar.visual := Some (JS.lit "a dog"); Sidebar.animation := None;
       Sidebar.narration := None; Sidebar.s3Key := None;
       Sidebar.image_s3_key := None; Sidebar.imageS3Key := None;
       Sidebar.videoUrl := None; Sidebar.video_url := None |} in
  let sc := {| Sidebar.segments := Some [seg]; Sidebar.artStyle := None |} in
  let shown := Sidebar.derive_status ctx in
  let st1 := shown (fst (Sidebar.handleStepClick ctx env (Rejected "unused")
                           (Rejected "unused") 0 (shown Sidebar.initial))) in
  let st2 := shown (Sidebar.handleConceptSelect c st1) in
  let st3 := shown (fst (Sidebar.handleStepClick ctx env (Resolved sc) (Resolved sc) 2 st2)) in
  let st4 := shown (Sidebar.handleScriptSelect sc st3) in
  let evs := [ Sidebar.GenerationSettled 0 (Resolved {| Flow.s3_key := "images/1.png" |});
               Sidebar.DownloadSettled 0 (Resolved "https://d.cloudfront.net/images/1.png") ] in
  let evsv := [ Sidebar.GenerationSettled 0 (Resolved {| Flow.s3_key := "videos/1.mp4" |});
                Sidebar.DownloadSettled 0 (Resolved "blob:v1") ] in
  exists b0 b st5 bv0 bv st6,
    Sidebar.launch Sidebar.image ctx st4 = inr b0
    /\ Sidebar.run (Sidebar.on_event Sidebar.image) b0 evs = Some b
    /\ Sidebar.finish Sidebar.image ctx b = Some st5
    /\ Sidebar.launch Sidebar.video ctx (shown st5) = inr bv0
    /\ Sidebar.run (Sidebar.on_event Sidebar.video) bv0 evsv = Some bv
    /\ Sidebar.finish Sidebar.video ctx bv = Some st6
    /\ Sidebar.stepStatus (shown st6) !! 0 = Some Sidebar.Done
    /\ Sidebar.stepStatus (shown st6) !! 5 = Some Sidebar.Done.
Proof.
  intros ctx c env seg sc shown st1 st2 st3 st4 evs evsv.
  destruct (Sidebar.launch Sidebar.image ctx st4) as [|b0] eqn:E0;
    [vm_compute in E0; discriminate E0|].
  destruct (Sidebar.run (Sidebar.on_event Sidebar.image) b0 evs) as [b|] eqn:E1;
    [|vm_compute in E0; injection E0 as <-; vm_compute in E1; discriminate E1].
  destruct (Sidebar.finish Sidebar.image ctx b) as [st5|] eqn:E2;
    [|vm_compute in E0; injection E0 as <-; vm_compute in E1; injection E1 as <-;
      vm_compute in E2; discriminate E2].
  destruct (Sidebar.launch Sidebar.video ctx (shown st5)) as [|bv0] eqn:E3;
    [vm_compute in E0; injection E0 as <-; vm_compute in E1; injection E1 as <-;
     vm_compute in E2; injection E2 as <-; vm_compute in E3; discriminate E3|].
  destruct (Sidebar.run (Sidebar.on_event Sidebar.video) bv0 evsv) as [bv|] eqn:E4;
    [|vm_compute in E0; injection E0 as <-; vm_compute in E1; injection E1 as <-;
      vm_compute in E2; injection E2 as <-; vm_compute in E3; injection E3 as <-;
      vm_compute in E4; discriminate E4].
  destruct (Sidebar.finish Sidebar.video ctx bv) as [st6|] eqn:E5;
    [|vm_compute in E0; injection E0 as <-; vm_compute in E1; injection E1 as <-;
      vm_compute in E2; injection E2 as <-; vm_compute in E3; injection E3 as <-;
      vm_compute in E4; injection E4 as <-; vm_compute in E5; discriminate E5].
  assert (Hi : Sidebar.succeeded b 0
                 {| Sidebar.tr_segmentId := JS.Num 1;
                    Sidebar.tr_url := "https://d.cloudfront.net/images/1.png" |}).
  { unfold Sidebar.succeeded.
    vm_compute in E0. injection E0 as <-. vm_compute in E1. injection E1 as <-.
    reflexivity. }
  assert (Hj : Sidebar.succeeded bv 0
                 {| Sidebar.tr_segmentId := JS.Num 1; Sidebar.tr_url := "blob:v1" |}).
  { unfold Sidebar.succeeded.
    vm_compute in E0. injection E0 as <-. vm_compute in E1. injection E1 as <-.
    vm_compute in E2. injection E2 as <-. vm_compute in E3. injection E3 as <-.
    vm_compute in E4. injection E4 as <-. reflexivity. }
  destruct (workflow_completes ctx {| Sidebar.project_id := JS.Num 7 |} env
              {| Sidebar.choices := [JS.lit "dogs like beaches"] |}
              (JS.lit "dogs like beaches") [] c [] sc sc
              (Rejected "unused") (Rejected "unused")
              b0 b bv0 bv evs evsv st5 st6 0 0 _ _
              eq_refl ltac:(discriminate) eq_refl eq_refl eq_refl
              E0 E1 E2 Hi E3 E4 E5 Hj) as (Hall & _).
  exists b0, b, st5, bv0, bv, st6.
  split; [reflexivity|]. split; [exact E1|]. split; [exact E2|].
  split; [exact E3|]. split; [exact E4|]. split; [exact E5|].
  split; apply Hall; lia.
Defined.

(* ===================================================================== *)
(** * From the uuid of a request to the row of the segment               *)
(* ===================================================================== *)

Section SentUuid.

Import Flow.

Lemma digits_of_uint d : all_digits (NilEmpty.string_of_uint d) = true.
Proof. induction d; cbn; auto. Qed.

Lemma to_string_is_number n :
  (0 <= n)%Z -> is_number (JS.to_string (JS.Num n)) = true.
Proof.
  intros Hn. unfold JS.to_string, is_number.
  destruct n as [|q|q]; [reflexivity| |lia].
  cbn [Z.to_int NilZero.string_of_int NilZero.string_of_uint].
  pose proof (digits_of_uint (Pos.to_uint q)) as Hd.
  destruct (Pos.to_uint q) eqn:E;
    try (cbn [NilZero.string_of_uint]; rewrite Hd; reflexivity).
  exfalso. revert E. apply DecimalPos.Unsigned.to_uint_nonnil.
Qed.

Lemma append_longer s c t : s +:+ String c t <> s.
Proof.
  induction s as [|a s IH]; cbn; [discriminate|].
  intros [= H]. exact (IH H).
Qed.

Lemma usable_image_listed k data tv raw :
  In raw (pd_images data) -> image_usable raw = true ->
  image_segment_key (ri_uuid raw) = k ->
  exists d, fd_imageDetails (flowData data tv) !! k = Some d
            /\ In (image_of raw) (idt_allImages d).
Proof.
  intros Hin Hus Hk.
  assert (Ha : In (image_of raw) (arrival k (pd_images data))).
  { unfold arrival. apply list_elem_of_In, list_elem_of_fmap.
    exists raw. split; [reflexivity|]. apply list_elem_of_In, filter_In.
    split; [exact Hin|]. rewrite Hus, Hk, String.eqb_refl. reflexivity. }
  cbn [flowData fd_imageDetails]. unfold imageDetails_of.
  rewrite lookup_omap, allImagesBySegment_lookup_all.
  destruct (arrival k (pd_images data)) as [|i0 l0] eqn:Ea; [contradiction Ha|].
  cbn [mbind option_bind].
  destruct (primary_entry_some (i0 :: l0)) as [[u d] He]; [discriminate|].
  destruct (primary_entry_shape _ _ _ He) as (Hperm & _).
  rewrite He. cbn. exists d. split; [reflexivity|].
  eapply Permutation_in; [symmetry; exact Hperm | exact Ha].
Qed.

End SentUuid.

(** X24.  The uuid a handler sends brings the result back to its
    segment, but for new videos.  Let the segment have a numeric id that
    is not negative.  The uuid of a request to regenerate or create an
    image normalises to the id of the segment, so that a usable image
    the server returns under that uuid is listed among the images of
    that segment in the view.  The uuid of a request to regenerate a
    video normalises to the id of the segment too.  The uuid of a
    request to create a video normalises to the id followed by a dash
    and the time of the request, which is not the key of the segment. *)
Theorem sent_uuid_files_under_segment (ctx : Flow.context) (op : Flow.operation)
    (st : Flow.state) (c : Flow.call) (n : Z) :
  Flow.segment_of op = JS.Num n -> (0 <= n)%Z -> (0 <= Flow.now ctx)%Z ->
  In c (snd (Flow.invoke ctx op st)) ->
  let k := JS.to_string (JS.Num n) in
  let u := JS.to_string (Flow.request_uuid c) in
  match op with
  | Flow.RegenerateImage _ _ | Flow.CreateNewImage _ _ =>
      Flow.image_segment_key u = k
      /\ forall data tv raw,
           In raw (Flow.pd_images data) -> Flow.image_usable raw = true ->
           Flow.ri_uuid raw = u ->
           exists d, Flow.fd_imageDetails (Flow.flowData data tv) !! k = Some d
                     /\ In (Flow.image_of raw) (Flow.idt_allImages d)
  | Flow.RegenerateVideo _ _ => Flow.video_segment_key u = k
  | Flow.CreateNewVideo _ _ _ =>
      Flow.video_segment_key u = k +:+ "-" +:+ JS.to_string (JS.Num (Flow.now ctx))
      /\ Flow.video_segment_key u <> k
  end.
Proof.
  intros Hseg Hn Hnow Hin. cbn zeta.
  pose proof (to_string_is_number n Hn) as Hnum.
  pose proof (to_string_is_number (Flow.now ctx) Hnow) as Hts.
  destruct op as [imageId sd | videoId sd | segmentId sd | segmentId imageId sd];
    cbn [Flow.segment_of] in Hseg; cbn [Flow.invoke] in Hin.
  - unfold Flow.handleRegenerateImage in Hin.
    destruct (_ || _); [contradiction Hin|].
    destruct (negb (JS.truthy _)); [contradiction Hin|].
    destruct (Flow.truthy_key _); [contradiction Hin|].
    destruct Hin as [<-|[]]. cbn [Flow.request_uuid Chat.generateImage_payload Chat.ip_uuid
                                  Chat.ia_uuid].
    rewrite Hseg. unfold Flow.seg_uuid. cbn [JS.to_string].
    assert (Hkey : Flow.image_segment_key ("seg-" +:+ JS.to_string (JS.Num n))
                   = JS.to_string (JS.Num n)) by (apply image_key_seg, Hnum).
    split; [exact Hkey|].
    intros data tv raw Hraw Hus Hu. apply usable_image_listed; [assumption..|].
    rewrite Hu. exact Hkey.
  - unfold Flow.handleRegenerateVideo in Hin.
    destruct (_ || _); [contradiction Hin|].
    destruct (negb (JS.truthy _)); [contradiction Hin|].
    destruct Hin as [<-|[]]. cbn [Flow.request_uuid Chat.generateVideo_payload Chat.vp_uuid
                                  Chat.va_uuid].
    rewrite Hseg. unfold Flow.seg_uuid. cbn [JS.to_string].
    apply video_key_seg.
  - unfold Flow.handleCreateNewImage in Hin.
    destruct (negb (Flow.isAuthenticated _)); [contradiction Hin|].
    destruct (negb (JS.truthy _)); [contradiction Hin|].
    destruct Hin as [<-|[]]. cbn [Flow.request_uuid Chat.generateImage_payload Chat.ip_uuid
                                  Chat.ia_uuid].
    rewrite Hseg. unfold Flow.unique_uuid. cbn [JS.to_string].
    assert (Hkey : Flow.image_segment_key
                     ("seg-" +:+ JS.to_string (JS.Num n) +:+ "-"
                        +:+ JS.to_string (JS.Num (Flow.now ctx)))
                   = JS.to_string (JS.Num n))
      by (apply image_key_seg_stamp; assumption).
    split; [exact Hkey|].
    intros data tv raw Hraw Hus Hu. apply usable_image_listed; [assumption..|].
    rewrite Hu. exact Hkey.
  - unfold Flow.handleCreateNewVideo in Hin.
    destruct (_ || _); [contradiction Hin|].
    destruct (negb (JS.truthy _)); [contradiction Hin|].
    destruct (Flow.targetImage _ _ _); [|contradiction Hin].
    destruct Hin as [<-|[]]. cbn [Flow.request_uuid Chat.generateVideo_payload Chat.vp_uuid
                                  Chat.va_uuid].
    rewrite Hseg. unfold Flow.unique_uuid. cbn [JS.to_string].
    rewrite video_key_seg.
    split; [reflexivity|]. apply append_longer.
Qed.

Lemma sent_uuid_files_under_segment_witness :
  let ctx := {| Flow.isAuthenticated := true; Flow.storedProjectId := JS.Num 7;
                Flow.selectedImageModel := Some "recraft-v3";
                Flow.selectedVideoModel := Some "kling-v2.1-master";
                Flow.now := 1712345678901 |} in
  let sd := {| Flow.sd_id := JS.Num 3; Flow.sd_visual := Some (JS.lit "a dog");
               Flow.sd_animation := None; Flow.sd_artStyle := None;
               Flow.sd_imageS3Key := None; Flow.sd_s3Key := None |} in
  let op := Flow.CreateNewImage (JS.Num 3) sd in
  let raw := {| Flow.ri_id := JS.Num 10; Flow.ri_success := true;
                Flow.ri_s3Key := "images/new.png"; Flow.ri_uuid := "seg-3-1712345678901";
                Flow.ri_visualPrompt := None; Flow.ri_artStyle := None;
                Flow.ri_isPrimary := None |} in
  let data := {| Flow.pd_segments := []; Flow.pd_images := [raw]; Flow.pd_videos := [] |} in
  exists c d,
    snd (Flow.invoke ctx op Flow.initial) = [c]
    /\ JS.to_string (Flow.request_uuid c) = "seg-3-1712345678901"
    /\ Flow.fd_imageDetails (Flow.flowData data ∅) !! "3" = Some d
    /\ In (Flow.image_of raw) (Flow.idt_allImages d).
Proof.
  intros ctx sd op raw data.
  eexists.
  destruct (sent_uuid_files_under_segment ctx op Flow.initial _ 3 eq_refl
              ltac:(lia) ltac:(cbn; lia) (or_introl eq_refl)) as (_ & Hlist).
  destruct (Hlist data ∅ raw (or_introl eq_refl) eq_refl eq_refl) as (d & Hd & Hin).
  exists d. split; [reflexivity|]. split; [reflexivity|]. split; [exact Hd | exact Hin].
Defined.
